(** * LUKE (paddlenlp/transformers/luke/modeling.py): a shallow embedding

    The module is a set of layer definitions over Paddle tensors.  Two views
    of a tensor are used, as the code itself uses them:

    - [tensor A]: a shape and the row-major data, for the rank-polymorphic
      helper [paddle_gather], which is written with [flatten], [reshape],
      [expand], [stack], [transpose] and [gather_nd];
    - nested lists (what [Tensor.tolist()] returns) for the activations of
      fixed rank that flow through the layers: rank 3 is
      [batch][sequence][feature], rank 4 is [batch][head][sequence][feature].

    Scalars are real numbers; integer tensors (ids, positions) hold [Z]. *)

From Stdlib Require Import List ZArith Lia Arith Bool Reals Lra.
Import ListNotations.

(* ===================================================================== *)
(** * Part I.  Definitions                                                *)
(* ===================================================================== *)

(** ** Flat tensors: shape and row-major data *)

Record tensor (A : Type) : Type := mkTensor { shape : list nat; data : list A }.
Arguments mkTensor {A} _ _.
Arguments shape {A} _.
Arguments data {A} _.

(** Number of elements of a shape. *)
Definition numel (sh : list nat) : nat := fold_right Nat.mul 1%nat sh.

(** [len(x.shape)] *)
Definition rank {A} (t : tensor A) : nat := length (shape t).

(** A tensor is well formed when it holds as many elements as its shape says. *)
Definition wf {A} (t : tensor A) : Prop := length (data t) = numel (shape t).

(** Row-major offset of a multi-index. *)
Fixpoint ravel (sh idx : list nat) : nat :=
  match sh, idx with
  | _ :: sh', i :: idx' => (i * numel sh' + ravel sh' idx')%nat
  | _, _ => 0%nat
  end.

(** Multi-index of a row-major offset. *)
Fixpoint unravel (sh : list nat) (j : nat) : list nat :=
  match sh with
  | [] => []
  | _ :: sh' => (j / numel sh')%nat :: unravel sh' (j mod numel sh')%nat
  end.

(** A multi-index is within a shape. *)
Definition in_bounds (sh idx : list nat) : Prop := Forall2 lt idx sh.

(** The tensor of shape [sh] whose entry at multi-index [idx] is [f idx]. *)
Definition tabulate {A} (sh : list nat) (f : list nat -> A) : tensor A :=
  mkTensor sh (map (fun j => f (unravel sh j)) (seq 0 (numel sh))).

(** [t[idx]]; [d] stands for a read outside the data. *)
Definition tget {A} (d : A) (t : tensor A) (idx : list nat) : A :=
  nth (ravel (shape t) idx) (data t) d.

(** [l[k] = v] on a Python list (in range in every use below). *)
Fixpoint set_nth {A} (k : nat) (v : A) (l : list A) : list A :=
  match l, k with
  | [], _ => []
  | _ :: tl, O => v :: tl
  | h :: tl, S k' => h :: set_nth k' v tl
  end.

(** Running a list of fallible steps, stopping at the first failure. *)
Fixpoint sequence {A} (l : list (option A)) : option (list A) :=
  match l with
  | [] => Some []
  | None :: _ => None
  | Some a :: tl => match sequence tl with
                    | Some r => Some (a :: r)
                    | None => None
                    end
  end.

(** Combining two lists position by position (the shorter one decides). *)
Fixpoint zip_with {X Y W} (f : X -> Y -> W) (l1 : list X) (l2 : list Y) : list W :=
  match l1, l2 with
  | a :: l1', b :: l2' => f a b :: zip_with f l1' l2'
  | _, _ => []
  end.

Definition list_eqb (a b : list nat) : bool :=
  if list_eq_dec Nat.eq_dec a b then true else false.

Section PaddleOps.
Context {A : Type}.
Variable dflt : A.

(** [t.flatten()] *)
Definition flatten (t : tensor A) : tensor A :=
  mkTensor [numel (shape t)] (data t).

(** [t.reshape(sh)] for a list [sh] of positive sizes; Paddle raises when
    the element counts differ.  (Paddle reads a [0] in [sh] as "keep the
    input's size here" and [-1] as "infer"; neither is modelled, a [0]
    entry fails.) *)
Definition reshape (t : tensor A) (sh : list nat) : option (tensor A) :=
  if forallb (fun d => 0 <? d)%nat sh && (numel sh =? length (data t))%nat
  then Some (mkTensor sh (data t))
  else None.

(** The shape [paddle.expand(t, target)] produces: [target] is at least as
    long as [t.shape], the shapes are aligned at the last axis, a [-1]
    keeps the size of [t], and an axis of [t] of size other than 1 must
    already have the requested size. *)
Definition expand_axis (xd : nat) (td : Z) : option nat :=
  if (td =? -1)%Z then Some xd
  else if (td <? 0)%Z then None
  else if (Z.of_nat xd =? td)%Z || (xd =? 1)%nat then Some (Z.to_nat td)
  else None.

(** The multi-index of the source read when an entry of the expanded
    tensor is read at [idx]: [0] along every axis of size 1. *)
Definition bcast_index (xsh idx : list nat) : list nat :=
  zip_with (fun xd i => if (xd =? 1)%nat then 0%nat else i) xsh idx.

(** [paddle.expand(t, target)] *)
Definition expand (t : tensor A) (target : list Z) : option (tensor A) :=
  if (length target <? rank t)%nat then None
  else
    let xsh := repeat 1%nat (length target - rank t) ++ shape t in
    match sequence (zip_with expand_axis xsh target) with
    | None => None
    | Some osh =>
        Some (tabulate osh (fun idx =>
                nth (ravel xsh (bcast_index xsh idx)) (data t) dflt))
    end.

(** [paddle.stack(ts)] (axis 0): the inputs share one shape, and there is
    at least one of them. *)
Definition stack (ts : list (tensor A)) : option (tensor A) :=
  match ts with
  | [] => None
  | t0 :: _ =>
      if forallb (fun t => list_eqb (shape t) (shape t0)) ts
      then Some (mkTensor (length ts :: shape t0) (concat (map data ts)))
      else None
  end.

(** [paddle.transpose(t, [1, 0])] of a matrix. *)
Definition transpose_10 (t : tensor A) : option (tensor A) :=
  match shape t with
  | [a; b] => Some (tabulate [b; a] (fun idx =>
                      match idx with
                      | [j; i] => tget dflt t [i; j]
                      | _ => dflt
                      end))
  | _ => None
  end.
End PaddleOps.

(** [paddle.arange(n, dtype=index.dtype)] *)
Definition arange (n : nat) : tensor Z := mkTensor [n] (map Z.of_nat (seq 0 n)).

(** [t.astype("int64")] on an integer tensor. *)
Definition astype_int64 (t : tensor Z) : tensor Z := t.

Section GatherNd.
Context {A : Type}.
Variable dflt : A.

(** One row of the index matrix addresses one element of [x]: every
    coordinate has to be within the axis it indexes. *)
Definition coords_ok (xsh : list nat) (row : list Z) : bool :=
  (length row =? length xsh)%nat &&
  forallb (fun p => (0 <=? fst p)%Z && (fst p <? Z.of_nat (snd p))%Z)
          (combine row xsh).

(** [paddle.gather_nd(x, ind)] for an index matrix [ind] of shape
    [N; rank x]: entry [j] of the result is [x] at the multi-index held in
    row [j].  Paddle raises on a coordinate outside its axis. *)
Definition gather_nd (x : tensor A) (ind : tensor Z) : option (tensor A) :=
  match shape ind with
  | [n; r] =>
      let row j := map (fun k => tget 0%Z ind [j; k]) (seq 0 r) in
      if (r =? rank x)%nat && forallb (fun j => coords_ok (shape x) (row j)) (seq 0 n)
      then Some (tabulate [n] (fun idx =>
                   tget dflt x (map Z.to_nat (row (hd 0%nat idx)))))
      else None
  | _ => None
  end.

(** [paddle_gather(x, dim, index)], lines 41-59. *)
Definition paddle_gather (x : tensor A) (dim : Z) (index : tensor Z)
  : option (tensor A) :=
  let index_shape := shape index in
  let index_flatten := flatten index in
  let dim := if (dim <? 0)%Z then (Z.of_nat (rank x) + dim)%Z else dim in
  let nd_index :=
    sequence
      (map (fun k =>
              if (Z.of_nat k =? dim)%Z then Some index_flatten
              else
                let reshape_shape :=
                  set_nth k (nth k (shape x) 0%nat) (repeat 1%nat (rank x)) in
                let x_arange := arange (nth k (shape x) 0%nat) in
                match reshape x_arange reshape_shape with
                | None => None
                | Some x_arange =>
                    match expand 0%Z x_arange (map Z.of_nat index_shape) with
                    | None => None
                    | Some e => Some (flatten e)
                    end
                end)
           (seq 0 (rank x))) in
  match nd_index with
  | None => None
  | Some nd_index =>
      match stack nd_index with
      | None => None
      | Some st =>
          match transpose_10 0%Z st with
          | None => None
          | Some tr =>
              let ind2 := astype_int64 tr in
              match gather_nd x ind2 with
              | None => None
              | Some g => reshape g index_shape
              end
          end
      end
  end.
End GatherNd.

(** ** Nested tensors, the random generator and the basic layers *)

Definition Vec := list R.
Definition Mat := list Vec.
Definition Tensor3 := list Mat.
Definition Tensor4 := list Tensor3.
Definition IdMat := list (list Z).
Definition IdTensor3 := list (list (list Z)).

(** [t.shape[1]] of a nested tensor of rank at least 2. *)
Definition shape1 {X} (t : list (list X)) : nat := length (hd [] t).

(** Dropout draws from the framework's global random generator: its state
    is the sequence of uniform samples of [0, 1) it has yet to hand out.
    Code that draws is written in the state monad [Rand]. *)
Definition Generator := nat -> R.
Definition Rand (X : Type) := Generator -> X * Generator.

Definition ret {X} (x : X) : Rand X := fun g => (x, g).
Definition bind {X Y} (c : Rand X) (k : X -> Rand Y) : Rand Y :=
  fun g => let (x, g') := c g in k x g'.

Notation "x <- c ;; k" := (bind c (fun x => k))
  (at level 61, c at next level, right associativity).

Definition next_uniform : Rand R := fun g => (g 0%nat, fun n => g (S n)).

Fixpoint mapM {X Y} (f : X -> Rand Y) (l : list X) : Rand (list Y) :=
  match l with
  | [] => ret []
  | a :: tl => b <- f a ;; r <- mapM f tl ;; ret (b :: r)
  end.

(** Broadcasting binary operation along one axis: sizes agree, or one of
    the operands has size 1 there. *)
Definition bcast_zip {X} (f : X -> X -> X) (a b : list X) : list X :=
  match a, b with
  | [a0], _ :: _ :: _ => map (f a0) b
  | _ :: _ :: _, [b0] => map (fun v => f v b0) a
  | _, _ => zip_with f a b
  end.

(** [paddle.concat([a, b], axis=k)] on nested tensors. *)
Definition concat_axis1 {X} (a b : list (list X)) : list (list X) :=
  zip_with (@app X) a b.
Definition concat_axis2 {X} (a b : list (list (list X))) :=
  zip_with (@concat_axis1 X) a b.
Definition concat_axis3 {X} (a b : list (list (list (list X)))) :=
  zip_with (@concat_axis2 X) a b.

(** Exchange of the two outer axes of [m], the new outer axis having size
    [n]: the per-batch part of [transpose((0, 2, 1, 3))]. *)
Definition swap_outer {X} (n : nat) (m : list (list (list X))) : list (list (list X)) :=
  map (fun j => map (fun r => nth j r []) m) (seq 0 n).

Section Layers.
Local Open Scope R_scope.

Definition Rsum (l : list R) : R := fold_right Rplus 0 l.

(** [layer_norm_eps = 1e-6] *)
Definition layer_norm_eps : R := 1 / 10 ^ 6.

(** *** [nn.Dropout(p)] (mode [upscale_in_train]) *)

Definition dropout_scalar (p : R) (v : R) : Rand R :=
  u <- next_uniform ;;
  ret (if Rlt_dec u p then 0 else v / (1 - p)).

Definition dropout_vec (training : bool) (p : R) (x : Vec) : Rand Vec :=
  if training then mapM (dropout_scalar p) x else ret x.
Definition dropout_mat (training : bool) (p : R) (x : Mat) : Rand Mat :=
  if training then mapM (mapM (dropout_scalar p)) x else ret x.
Definition dropout3 (training : bool) (p : R) (x : Tensor3) : Rand Tensor3 :=
  if training then mapM (mapM (mapM (dropout_scalar p))) x else ret x.
Definition dropout4 (training : bool) (p : R) (x : Tensor4) : Rand Tensor4 :=
  if training then mapM (mapM (mapM (mapM (dropout_scalar p)))) x else ret x.

(** *** [nn.Linear]: [y = x W + b], [W] of shape [in_features, out_features].
    The weight is read at (row, column); [bias = None] is
    [bias_attr=False]. *)
Record Linear := mkLinear {
  in_features : nat;
  out_features : nat;
  weight : nat -> nat -> R;
  bias : option (nat -> R)
}.

Definition linear_vec (l : Linear) (x : Vec) : Vec :=
  map (fun j =>
         Rsum (map (fun i => nth i x 0 * weight l i j) (seq 0 (in_features l)))
         + match bias l with Some b => b j | None => 0 end)
      (seq 0 (out_features l)).
Definition linear_mat (l : Linear) (x : Mat) : Mat := map (linear_vec l) x.
Definition linear3 (l : Linear) (x : Tensor3) : Tensor3 := map (linear_mat l) x.

(** *** [nn.LayerNorm] over the last axis *)
Record LayerNorm := mkLayerNorm {
  ln_weight : nat -> R;
  ln_bias : nat -> R;
  ln_epsilon : R
}.

Definition mean (x : Vec) : R := Rsum x / INR (length x).
Definition variance (x : Vec) : R :=
  Rsum (map (fun v => (v - mean x) * (v - mean x)) x) / INR (length x).

Definition layer_norm_vec (l : LayerNorm) (x : Vec) : Vec :=
  map (fun i =>
         (nth i x 0 - mean x) / sqrt (variance x + ln_epsilon l) * ln_weight l i
         + ln_bias l i)
      (seq 0 (length x)).
Definition layer_norm3 (l : LayerNorm) (x : Tensor3) : Tensor3 :=
  map (map (layer_norm_vec l)) x.

(** *** [nn.Embedding]: the row of the table at an id; the row of
    [padding_idx] reads as zeros. *)
Record Embedding := mkEmbedding {
  num_embeddings : nat;
  embedding_dim : nat;
  emb_weight : nat -> nat -> R;
  padding_idx : option Z
}.

Definition is_padding (e : Embedding) (id : Z) : bool :=
  match padding_idx e with Some p => (id =? p)%Z | None => false end.

Definition embedding_vec (e : Embedding) (id : Z) : Vec :=
  map (fun j => if is_padding e id then 0 else emb_weight e (Z.to_nat id) j)
      (seq 0 (embedding_dim e)).
Definition embedding_mat (e : Embedding) (ids : IdMat) : Tensor3 :=
  map (map (embedding_vec e)) ids.

(** *** Elementwise and matrix operations *)

Definition add3 (a b : Tensor3) : Tensor3 :=
  zip_with (zip_with (zip_with Rplus)) a b.

(** [a + b] with broadcasting, rank 4. *)
Definition add4_bcast (a b : Tensor4) : Tensor4 :=
  bcast_zip (bcast_zip (bcast_zip (bcast_zip Rplus))) a b.

Definition dot (a b : Vec) : R := Rsum (zip_with Rmult a b).

(** [m.transpose] of the last two axes, [m] having [ncols] columns. *)
Definition transpose_mat (ncols : nat) (m : Mat) : Mat :=
  map (fun j => map (fun r => nth j r 0) m) (seq 0 ncols).

(** [paddle.matmul(a, b)] on matrices and, batched, on rank 4. *)
Definition matmul2 (a b : Mat) : Mat :=
  map (fun row => map (dot row) (transpose_mat (shape1 b) b)) a.
Definition matmul4 (a b : Tensor4) : Tensor4 :=
  zip_with (zip_with matmul2) a b.

(** [nn.functional.softmax(x, axis=-1)] *)
Definition softmax_vec (x : Vec) : Vec :=
  map (fun v => exp v / Rsum (map exp x)) x.
Definition softmax4 (x : Tensor4) : Tensor4 :=
  map (map (map softmax_vec)) x.
End Layers.

(** ** The LUKE layers *)

Section Luke.
Local Open Scope R_scope.

(** *** Slices and reshapes of nested tensors *)

(** [x[:, :n, :]] and [x[:, n:, :]] *)
Definition slice_to1 {X} (n : nat) (x : list (list X)) : list (list X) :=
  map (firstn n) x.
Definition slice_from1 {X} (n : nat) (x : list (list X)) : list (list X) :=
  map (skipn n) x.
(** [x[:, :, :n, :]] and [x[:, :, n:, :]] *)
Definition slice_to2 {X} (n : nat) (x : list (list (list X))) :=
  map (slice_to1 n) x.
Definition slice_from2 {X} (n : nat) (x : list (list (list X))) :=
  map (slice_from1 n) x.

(** [x.shape[2]] *)
Definition shape2 {X} (x : list (list (list X))) : nat := shape1 (hd [] x).

(** [x.reshape(x.shape[:-1] + [nh, hs])]: every feature row is cut into
    [nh] pieces of [hs] entries. *)
Definition reshape_heads (nh hs : nat) (x : Tensor3) : Tensor4 :=
  map (map (fun row => map (fun h => firstn hs (skipn (h * hs) row)) (seq 0 nh))) x.

(** [x.transpose((0, 2, 1, 3))], the size [n] of axis 2 of [x] given. *)
Definition transpose_0213 (n : nat) (x : Tensor4) : Tensor4 :=
  map (swap_outer n) x.

(** [x.transpose((0, 1, 3, 2))], the size [n] of axis 3 of [x] given. *)
Definition transpose_0132 (n : nat) (x : Tensor4) : Tensor4 :=
  map (map (transpose_mat n)) x.

(** [x.reshape(x.shape[:-2] + [all_head_size])]: the pieces of a row are
    laid end to end. *)
Definition merge_heads (x : Tensor4) : Tensor3 := map (map (@concat R)) x.

Definition map4 (f : R -> R) (x : Tensor4) : Tensor4 := map (map (map (map f))) x.

(** *** LukeSelfOutput, LukeIntermediate, LukeOutput, LukePooler *)

Record LukeSelfOutput := mkLukeSelfOutput {
  so_dense : Linear;
  so_layer_norm : LayerNorm;
  so_dropout : R
}.

Definition LukeSelfOutput_forward (training : bool) (self : LukeSelfOutput)
    (hidden_states input_tensor : Tensor3) : Rand Tensor3 :=
  let hidden_states := linear3 (so_dense self) hidden_states in
  hidden_states <- dropout3 training (so_dropout self) hidden_states ;;
  let hidden_states := layer_norm3 (so_layer_norm self) (add3 hidden_states input_tensor) in
  ret hidden_states.

Record LukeIntermediate := mkLukeIntermediate {
  im_dense : Linear;
  intermediate_act_fn : R -> R
}.

Definition LukeIntermediate_forward (self : LukeIntermediate)
    (hidden_states : Tensor3) : Tensor3 :=
  let hidden_states := linear3 (im_dense self) hidden_states in
  map (map (map (intermediate_act_fn self))) hidden_states.

Record LukeOutput := mkLukeOutput {
  out_dense : Linear;
  out_layer_norm : LayerNorm;
  out_dropout : R
}.

Definition LukeOutput_forward (training : bool) (self : LukeOutput)
    (hidden_states input_tensor : Tensor3) : Rand Tensor3 :=
  let hidden_states := linear3 (out_dense self) hidden_states in
  hidden_states <- dropout3 training (out_dropout self) hidden_states ;;
  let hidden_states := layer_norm3 (out_layer_norm self) (add3 hidden_states input_tensor) in
  ret hidden_states.

Record LukePooler := mkLukePooler { pooler_dense : Linear }.

Definition LukePooler_forward (self : LukePooler) (hidden_states : Tensor3) : Mat :=
  let first_token_tensor := map (fun b => nth 0 b []) hidden_states in
  let pooled_output := linear_mat (pooler_dense self) first_token_tensor in
  map (map tanh) pooled_output.

(** *** EntityEmbeddings *)

Record EntityEmbeddings := mkEntityEmbeddings {
  ee_entity_emb_size : nat;
  ee_hidden_size : nat;
  ee_entity_embeddings : Embedding;
  ee_entity_embedding_dense : Linear;
  ee_position_embeddings : Embedding;
  ee_token_type_embeddings : Embedding;
  ee_layer_norm : LayerNorm;
  ee_dropout : R
}.

(** [paddle.sum(m, axis=-2)] of a matrix with [width] columns. *)
Definition sum_rows (width : nat) (m : Mat) : Vec :=
  fold_right (zip_with Rplus) (repeat 0 width) m.

(** Lines 194-198: the position-embedding term, one row per entity. *)
Definition entity_position_embeddings (self : EntityEmbeddings)
    (position_ids : IdTensor3) : Tensor3 :=
  let position_embeddings :=
    map (map (map (fun id => embedding_vec (ee_position_embeddings self) (Z.max id 0))))
        position_ids in
  let position_embedding_mask : list Tensor3 :=
    map (map (map (fun id => [if (id =? -1)%Z then 0 else 1]))) position_ids in
  let position_embeddings :=
    bcast_zip (bcast_zip (bcast_zip (bcast_zip Rmult)))
              position_embeddings position_embedding_mask in
  let position_embeddings :=
    map (map (sum_rows (embedding_dim (ee_position_embeddings self)))) position_embeddings in
  let mask_sum : Tensor3 :=
    map (map (fun m => map (fun v => Rmax v (1 / 10 ^ 7)) (sum_rows 1 m)))
        position_embedding_mask in
  bcast_zip (bcast_zip (bcast_zip Rdiv)) position_embeddings mask_sum.

Definition EntityEmbeddings_forward (training : bool) (self : EntityEmbeddings)
    (entity_ids : IdMat) (position_ids : IdTensor3) (token_type_ids : option IdMat)
    : Rand Tensor3 :=
  let token_type_ids :=
    match token_type_ids with
    | None => map (map (fun _ => 0%Z)) entity_ids
    | Some t => t
    end in
  let entity_embeddings := embedding_mat (ee_entity_embeddings self) entity_ids in
  let entity_embeddings :=
    if (ee_entity_emb_size self =? ee_hidden_size self)%nat then entity_embeddings
    else linear3 (ee_entity_embedding_dense self) entity_embeddings in
  let position_embeddings := entity_position_embeddings self position_ids in
  let token_type_embeddings :=
    embedding_mat (ee_token_type_embeddings self) token_type_ids in
  let embeddings := add3 (add3 entity_embeddings position_embeddings) token_type_embeddings in
  let embeddings := layer_norm3 (ee_layer_norm self) embeddings in
  dropout3 training (ee_dropout self) embeddings.

(** *** LukeSelfAttention *)

Record LukeSelfAttention := mkLukeSelfAttention {
  sa_num_attention_heads : nat;
  sa_attention_head_size : nat;
  sa_all_head_size : nat;
  query : Linear;
  key : Linear;
  value : Linear;
  w2e_query : Linear;
  e2w_query : Linear;
  e2e_query : Linear;
  sa_dropout : R
}.

Definition transpose_for_scores (self : LukeSelfAttention) (x : Tensor3) : Tensor4 :=
  let x := reshape_heads (sa_num_attention_heads self) (sa_attention_head_size self) x in
  transpose_0213 (sa_num_attention_heads self) x.

(** Lines 239-242. *)
Definition concat_hidden_states (word_hidden_states : Tensor3)
    (entity_hidden_states : option Tensor3) : Tensor3 :=
  match entity_hidden_states with
  | None => word_hidden_states
  | Some e => concat_axis1 word_hidden_states e
  end.

(** Lines 244-245. *)
Definition key_layer (self : LukeSelfAttention) (w : Tensor3) (e : option Tensor3) :=
  transpose_for_scores self (linear3 (key self) (concat_hidden_states w e)).
Definition value_layer (self : LukeSelfAttention) (w : Tensor3) (e : option Tensor3) :=
  transpose_for_scores self (linear3 (value self) (concat_hidden_states w e)).

(** Lines 250-253. *)
Definition w2w_query_layer (self : LukeSelfAttention) (w : Tensor3) :=
  transpose_for_scores self (linear3 (query self) w).
Definition w2e_query_layer (self : LukeSelfAttention) (w : Tensor3) :=
  transpose_for_scores self (linear3 (w2e_query self) w).
Definition e2w_query_layer (self : LukeSelfAttention) (e : Tensor3) :=
  transpose_for_scores self (linear3 (e2w_query self) e).
Definition e2e_query_layer (self : LukeSelfAttention) (e : Tensor3) :=
  transpose_for_scores self (linear3 (e2e_query self) e).

(** Lines 256-259. *)
Definition w2w_key_layer (self : LukeSelfAttention) (w e : Tensor3) :=
  slice_to2 (shape1 w) (key_layer self w (Some e)).
Definition e2w_key_layer (self : LukeSelfAttention) (w e : Tensor3) :=
  slice_to2 (shape1 w) (key_layer self w (Some e)).
Definition w2e_key_layer (self : LukeSelfAttention) (w e : Tensor3) :=
  slice_from2 (shape1 w) (key_layer self w (Some e)).
Definition e2e_key_layer (self : LukeSelfAttention) (w e : Tensor3) :=
  slice_from2 (shape1 w) (key_layer self w (Some e)).

(** [paddle.matmul(q, k.transpose((0, 1, 3, 2)))] *)
Definition scores_of (self : LukeSelfAttention) (q k : Tensor4) : Tensor4 :=
  matmul4 q (transpose_0132 (sa_attention_head_size self) k).

(** Lines 247-274: the attention scores before scaling. *)
Definition attention_scores (self : LukeSelfAttention)
    (word_hidden_states : Tensor3) (entity_hidden_states : option Tensor3) : Tensor4 :=
  match entity_hidden_states with
  | Some e =>
      let w := word_hidden_states in
      let w2w_attention_scores := scores_of self (w2w_query_layer self w) (w2w_key_layer self w e) in
      let w2e_attention_scores := scores_of self (w2e_query_layer self w) (w2e_key_layer self w e) in
      let e2w_attention_scores := scores_of self (e2w_query_layer self e) (e2w_key_layer self w e) in
      let e2e_attention_scores := scores_of self (e2e_query_layer self e) (e2e_key_layer self w e) in
      let word_attention_scores := concat_axis3 w2w_attention_scores w2e_attention_scores in
      let entity_attention_scores := concat_axis3 e2w_attention_scores e2e_attention_scores in
      concat_axis2 word_attention_scores entity_attention_scores
  | None =>
      let query_layer :=
        transpose_for_scores self
          (linear3 (query self) (concat_hidden_states word_hidden_states None)) in
      scores_of self query_layer (key_layer self word_hidden_states None)
  end.

(** Lines 276-282: scaling, mask, softmax. *)
Definition attention_probs (self : LukeSelfAttention)
    (word_hidden_states : Tensor3) (entity_hidden_states : option Tensor3)
    (attention_mask : option Tensor4) : Tensor4 :=
  let attention_scores := attention_scores self word_hidden_states entity_hidden_states in
  let attention_scores :=
    map4 (fun v => v / sqrt (INR (sa_attention_head_size self))) attention_scores in
  let attention_scores :=
    match attention_mask with
    | Some m => add4_bcast attention_scores m
    | None => attention_scores
    end in
  softmax4 attention_scores.

(** Line 286: the probabilities after dropout, which weight the values. *)
Definition attention_weights (training : bool) (self : LukeSelfAttention)
    (word_hidden_states : Tensor3) (entity_hidden_states : option Tensor3)
    (attention_mask : option Tensor4) : Rand Tensor4 :=
  dropout4 training (sa_dropout self)
    (attention_probs self word_hidden_states entity_hidden_states attention_mask).

Definition LukeSelfAttention_forward (training : bool) (self : LukeSelfAttention)
    (word_hidden_states : Tensor3) (entity_hidden_states : option Tensor3)
    (attention_mask : option Tensor4) : Rand (Tensor3 * option Tensor3) :=
  let word_size := shape1 word_hidden_states in
  let value_layer := value_layer self word_hidden_states entity_hidden_states in
  attention_probs <-
    attention_weights training self word_hidden_states entity_hidden_states attention_mask ;;
  let context_layer := matmul4 attention_probs value_layer in
  let context_layer := transpose_0213 (shape2 context_layer) context_layer in
  let context_layer := merge_heads context_layer in
  let output_word_hidden_states := slice_to1 word_size context_layer in
  let output_entity_hidden_states :=
    match entity_hidden_states with
    | None => None
    | Some _ => Some (slice_from1 word_size context_layer)
    end in
  ret (output_word_hidden_states, output_entity_hidden_states).

(** [paddle.concat(outputs[:2], axis=1)], taken when entity states were
    given, in which case [outputs[1]] is a tensor. *)
Definition concat_outputs (outputs : Tensor3 * option Tensor3) : Tensor3 :=
  match snd outputs with
  | Some eo => concat_axis1 (fst outputs) eo
  | None => fst outputs
  end.

(** *** LukeAttention, LukeLayer, LukeEncoder *)

Record LukeAttention := mkLukeAttention {
  attn_self : LukeSelfAttention;
  attn_output : LukeSelfOutput
}.

Definition LukeAttention_forward (training : bool) (self : LukeAttention)
    (word_hidden_states : Tensor3) (entity_hidden_states : option Tensor3)
    (attention_mask : option Tensor4) : Rand (Tensor3 * option Tensor3) :=
  let word_size := shape1 word_hidden_states in
  self_outputs <- LukeSelfAttention_forward training (attn_self self)
                    word_hidden_states entity_hidden_states attention_mask ;;
  let concat_self_outputs :=
    match entity_hidden_states with
    | None => fst self_outputs
    | Some _ => concat_outputs self_outputs
    end in
  let concat_hidden_states := concat_hidden_states word_hidden_states entity_hidden_states in
  attention_output <- LukeSelfOutput_forward training (attn_output self)
                        concat_self_outputs concat_hidden_states ;;
  let word_attention_output := slice_to1 word_size attention_output in
  let entity_attention_output :=
    match entity_hidden_states with
    | None => None
    | Some _ => Some (slice_from1 word_size attention_output)
    end in
  ret (word_attention_output, entity_attention_output).

Record LukeLayer := mkLukeLayer {
  layer_attention : LukeAttention;
  layer_intermediate : LukeIntermediate;
  layer_output : LukeOutput
}.

Definition feed_forward_chunk (training : bool) (self : LukeLayer)
    (attention_output : Tensor3) : Rand Tensor3 :=
  let intermediate_output := LukeIntermediate_forward (layer_intermediate self) attention_output in
  LukeOutput_forward training (layer_output self) intermediate_output attention_output.

Definition LukeLayer_forward (training : bool) (self : LukeLayer)
    (word_hidden_states : Tensor3) (entity_hidden_states : option Tensor3)
    (attention_mask : option Tensor4) : Rand (Tensor3 * option Tensor3) :=
  let word_size := shape1 word_hidden_states in
  self_attention_outputs <- LukeAttention_forward training (layer_attention self)
                              word_hidden_states entity_hidden_states attention_mask ;;
  let concat_attention_output :=
    match entity_hidden_states with
    | None => fst self_attention_outputs
    | Some _ => concat_outputs self_attention_outputs
    end in
  layer_output <- feed_forward_chunk training self concat_attention_output ;;
  let word_layer_output := slice_to1 word_size layer_output in
  let entity_layer_output :=
    match entity_hidden_states with
    | None => None
    | Some _ => Some (slice_from1 word_size layer_output)
    end in
  ret (word_layer_output, entity_layer_output).

(** [LukeEncoder.forward]: the loop over [self.layer]. *)
Fixpoint LukeEncoder_forward (training : bool) (layer : list LukeLayer)
    (word_hidden_states : Tensor3) (entity_hidden_states : option Tensor3)
    (attention_mask : option Tensor4) : Rand (Tensor3 * option Tensor3) :=
  match layer with
  | [] => ret (word_hidden_states, entity_hidden_states)
  | layer_module :: rest =>
      layer_outputs <- LukeLayer_forward training layer_module
                         word_hidden_states entity_hidden_states attention_mask ;;
      let word_hidden_states := fst layer_outputs in
      let entity_hidden_states :=
        match entity_hidden_states with
        | Some _ => snd layer_outputs
        | None => None
        end in
      LukeEncoder_forward training rest word_hidden_states entity_hidden_states attention_mask
  end.

(** *** LukeModel *)

(** [RobertaEmbeddings] (roberta/modeling.py) lies outside this file.
    [LukeEmbeddings.forward] only forwards to it, so the word-embedding
    layer is a parameter: any function of the training flag, of
    [input_ids], [token_type_ids] and [position_ids], and of the random
    generator (it ends in a dropout). *)
Definition RobertaEmbeddings :=
  bool -> IdMat -> option IdMat -> option IdMat -> Rand Tensor3.

Definition LukeEmbeddings_forward (training : bool) (self : RobertaEmbeddings)
    (input_ids : IdMat) (token_type_ids position_ids : option IdMat) : Rand Tensor3 :=
  self training input_ids token_type_ids position_ids.

Record LukeModel := mkLukeModel {
  pad_token_id : Z;
  entity_pad_token_id : Z;
  encoder : list LukeLayer;
  embeddings : RobertaEmbeddings;
  entity_embeddings : EntityEmbeddings;
  pooler : LukePooler
}.

(** An attention mask argument: of rank 2 ([ndim == 2]) or passed as it is. *)
Inductive Mask :=
| Mask2 (m : Mat)
| Mask4 (m : Tensor4).

(** [paddle.unsqueeze(m, axis=[1, 2])] *)
Definition unsqueeze_12 (m : Mat) : Tensor4 := map (fun row => [[row]]) m.

(** Lines 553-561 and 564-572, for ids compared with [pad]. *)
Definition extended_mask (pad : Z) (ids : IdMat) (mask : option Mask) : Tensor4 :=
  match mask with
  | None =>
      unsqueeze_12 (map (map (fun id => (if (id =? pad)%Z then 1 else 0) * - (10000))) ids)
  | Some (Mask2 m) =>
      map4 (fun v => (1 - v) * - (10000)) (unsqueeze_12 m)
  | Some (Mask4 m) => m
  end.

(** The tuple [(word_hidden_state, entity_hidden_state, pooled_output)]. *)
Definition LukeOutputs := (Tensor3 * option Tensor3 * Mat)%type.

(** [LukeModel.forward].  [None] as a result stands for a raised
    exception: entity ids without entity position ids. *)
Definition LukeModel_forward (training : bool) (self : LukeModel)
    (input_ids : IdMat) (token_type_ids position_ids : option IdMat)
    (attention_mask : option Mask)
    (entity_ids : option IdMat) (entity_position_ids : option IdTensor3)
    (entity_token_type_ids : option IdMat) (entity_attention_mask : option Mask)
    : Rand (option LukeOutputs) :=
  let batch_size := length input_ids in
  let seq_length := shape1 input_ids in
  let attention_mask := extended_mask (pad_token_id self) input_ids attention_mask in
  let attention_mask :=
    match entity_ids with
    | Some entity_ids =>
        let entity_attention_mask :=
          extended_mask (entity_pad_token_id self) entity_ids entity_attention_mask in
        concat_axis3 attention_mask entity_attention_mask
    | None => attention_mask
    end in
  let entity_token_type_ids :=
    match entity_ids, entity_token_type_ids with
    | Some entity_ids, None => Some (repeat (repeat 0%Z (shape1 entity_ids)) batch_size)
    | _, t => t
    end in
  word_embedding_output <-
    LukeEmbeddings_forward training (embeddings self) input_ids token_type_ids position_ids ;;
  match entity_ids, entity_position_ids with
  | Some _, None => ret None
  | _, _ =>
      entity_embedding_output <-
        match entity_ids, entity_position_ids with
        | Some entity_ids, Some entity_position_ids =>
            e <- EntityEmbeddings_forward training (entity_embeddings self)
                   entity_ids entity_position_ids entity_token_type_ids ;;
            ret (Some e)
        | _, _ => ret None
        end ;;
      encoder_outputs <- LukeEncoder_forward training (encoder self)
                           word_embedding_output entity_embedding_output
                           (Some attention_mask) ;;
      let sequence_output := fst encoder_outputs in
      let pooled_output := LukePooler_forward (pooler self) sequence_output in
      ret (Some (sequence_output, snd encoder_outputs, pooled_output))
  end.
End Luke.

(** ** The task heads *)

Section Heads.
Local Open Scope R_scope.

(** The arguments every head passes on to [LukeModel.forward]. *)
Record LukeInputs := mkLukeInputs {
  input_ids : IdMat;
  token_type_ids : option IdMat;
  position_ids : option IdMat;
  attention_mask : option Mask;
  entity_ids : option IdMat;
  entity_position_ids : option IdTensor3;
  entity_token_type_ids : option IdMat;
  entity_attention_mask : option Mask
}.

(** [self.luke(input_ids=..., ..., entity_attention_mask=...)] *)
Definition call_luke (training : bool) (luke : LukeModel) (a : LukeInputs)
    : Rand (option LukeOutputs) :=
  LukeModel_forward training luke
    (input_ids a) (token_type_ids a) (position_ids a) (attention_mask a)
    (entity_ids a) (entity_position_ids a) (entity_token_type_ids a)
    (entity_attention_mask a).

(** *** LukeLMHead, EntityPredictionHead, LukeForMaskedLM *)

Record LukeLMHead := mkLukeLMHead {
  lm_dense : Linear;
  lm_layer_norm : LayerNorm;
  lm_activation : R -> R;
  lm_vocab_size : nat;
  lm_hidden_size : nat;
  decoder_weight : nat -> nat -> R;
  decoder_bias : nat -> R
}.

Definition LukeLMHead_forward (self : LukeLMHead) (features : Tensor3) : Tensor3 :=
  let hidden_state := linear3 (lm_dense self) features in
  let hidden_state := map (map (map (lm_activation self))) hidden_state in
  let hidden_state := layer_norm3 (lm_layer_norm self) hidden_state in
  map (map (fun row =>
              map (fun v =>
                     Rsum (map (fun k => nth k row 0 * decoder_weight self v k)
                               (seq 0 (lm_hidden_size self)))
                     + decoder_bias self v)
                  (seq 0 (lm_vocab_size self))))
      hidden_state.

Record EntityPredictionHeadTransform := mkEntityPredictionHeadTransform {
  ept_dense : Linear;
  transform_act_fn : R -> R;
  ept_layer_norm : LayerNorm
}.

Definition EntityPredictionHeadTransform_forward
    (self : EntityPredictionHeadTransform) (hidden_states : Tensor3) : Tensor3 :=
  let hidden_states := linear3 (ept_dense self) hidden_states in
  let hidden_states := map (map (map (transform_act_fn self))) hidden_states in
  layer_norm3 (ept_layer_norm self) hidden_states.

Record EntityPredictionHead := mkEntityPredictionHead {
  transform : EntityPredictionHeadTransform;
  decoder : Linear
}.

Definition EntityPredictionHead_forward (self : EntityPredictionHead)
    (hidden_states : Tensor3) : Tensor3 :=
  let hidden_states := EntityPredictionHeadTransform_forward (transform self) hidden_states in
  linear3 (decoder self) hidden_states.

Record LukeForMaskedLM := mkLukeForMaskedLM {
  mlm_luke : LukeModel;
  lm_head : LukeLMHead;
  entity_predictions : EntityPredictionHead
}.

(** [None] as a result stands for a raised exception (here: the entity
    head applied to [None]). *)
Definition LukeForMaskedLM_forward (training : bool) (self : LukeForMaskedLM)
    (a : LukeInputs) : Rand (option (Tensor3 * Tensor3)) :=
  outputs <- call_luke training (mlm_luke self) a ;;
  match outputs with
  | Some (word, Some entity, _) =>
      let logits := LukeLMHead_forward (lm_head self) word in
      let entity_logits := EntityPredictionHead_forward (entity_predictions self) entity in
      ret (Some (logits, entity_logits))
  | _ => ret None
  end.

(** *** LukeForEntityClassification *)

Record LukeForEntityClassification := mkLukeForEntityClassification {
  ec_luke : LukeModel;
  ec_dropout : R;
  ec_classifier : Linear
}.

Definition LukeForEntityClassification_forward (training : bool)
    (self : LukeForEntityClassification) (a : LukeInputs) : Rand (option Mat) :=
  outputs <- call_luke training (ec_luke self) a ;;
  match outputs with
  | Some (_, Some entity, _) =>
      let feature_vector := map (fun b => nth 0 b []) entity in
      feature_vector <- dropout_mat training (ec_dropout self) feature_vector ;;
      let logits := linear_mat (ec_classifier self) feature_vector in
      ret (Some logits)
  | _ => ret None
  end.

(** *** LukeForEntityPairClassification *)

Record LukeForEntityPairClassification := mkLukeForEntityPairClassification {
  ep_luke : LukeModel;
  ep_dropout : R;
  ep_classifier : Linear
}.

Definition LukeForEntityPairClassification_forward (training : bool)
    (self : LukeForEntityPairClassification) (a : LukeInputs) : Rand (option Mat) :=
  outputs <- call_luke training (ep_luke self) a ;;
  match outputs with
  | Some (_, Some entity, _) =>
      let feature_vector :=
        concat_axis1 (map (fun b => nth 0 b []) entity) (map (fun b => nth 1 b []) entity) in
      feature_vector <- dropout_mat training (ep_dropout self) feature_vector ;;
      let logits := linear_mat (ep_classifier self) feature_vector in
      ret (Some logits)
  | _ => ret None
  end.

(** *** LukeForEntitySpanClassification *)

(** The flat view of nested tensors, for [paddle_gather], and back. *)
Definition to_tensor3 (x : Tensor3) : tensor R :=
  mkTensor [length x; shape1 x; shape2 x] (concat (map (@concat R) x)).
Definition to_tensor2 (ids : IdMat) : tensor Z :=
  mkTensor [length ids; shape1 ids] (concat ids).
Definition of_tensor3 (t : tensor R) : Tensor3 :=
  match shape t with
  | [a; b; c] =>
      map (fun i => map (fun j => map (fun k => tget 0 t [i; j; k]) (seq 0 c)) (seq 0 b))
          (seq 0 a)
  | _ => []
  end.

(** [t.unsqueeze(-1)] *)
Definition unsqueeze_last {A} (t : tensor A) : tensor A :=
  mkTensor (shape t ++ [1%nat]) (data t).

(** Lines 1030-1031 and 1032-1033: the word states at the given positions. *)
Definition gather_positions (word : Tensor3) (positions : IdMat) : option Tensor3 :=
  let hidden_size := shape2 word in
  match expand 0%Z (unsqueeze_last (to_tensor2 positions))
               [(-1)%Z; (-1)%Z; Z.of_nat hidden_size] with
  | None => None
  | Some positions =>
      match paddle_gather 0 (to_tensor3 word) (-2) positions with
      | None => None
      | Some states => Some (of_tensor3 states)
      end
  end.

Record LukeForEntitySpanClassification := mkLukeForEntitySpanClassification {
  sp_luke : LukeModel;
  sp_dropout : R;
  sp_classifier : Linear
}.

Definition LukeForEntitySpanClassification_forward (training : bool)
    (self : LukeForEntitySpanClassification)
    (entity_start_positions entity_end_positions : IdMat) (a : LukeInputs)
    : Rand (option Tensor3) :=
  outputs <- call_luke training (sp_luke self) a ;;
  match outputs with
  | Some (word, entity, _) =>
      match gather_positions word entity_start_positions with
      | None => ret None
      | Some start_states =>
          match gather_positions word entity_end_positions with
          | None => ret None
          | Some end_states =>
              match entity with
              | None => ret None
              | Some entity =>
                  let feature_vector :=
                    concat_axis2 (concat_axis2 start_states end_states) entity in
                  feature_vector <- dropout3 training (sp_dropout self) feature_vector ;;
                  let logits := linear3 (sp_classifier self) feature_vector in
                  ret (Some logits)
              end
          end
      end
  | None => ret None
  end.

(** *** LukeForQuestionAnswering *)

Record LukeForQuestionAnswering := mkLukeForQuestionAnswering {
  qa_luke : LukeModel;
  qa_outputs : Linear
}.

(** [paddle.split(x, 2, -1)] and [x.squeeze(-1)] (last axis of size 1). *)
Definition split2_last (x : Tensor3) : Tensor3 * Tensor3 :=
  (map (map (fun r => firstn (length r / 2) r)) x,
   map (map (fun r => skipn (length r / 2) r)) x).
Definition squeeze_last (x : Tensor3) : Mat := map (map (fun r => nth 0 r 0)) x.

(** Line 1125. *)
Definition qa_word_hidden_states (a : LukeInputs) (word : Tensor3) : Tensor3 :=
  slice_to1 (shape1 (input_ids a)) word.

Definition LukeForQuestionAnswering_forward (training : bool)
    (self : LukeForQuestionAnswering) (a : LukeInputs) : Rand (option (Mat * Mat)) :=
  encoder_outputs <- call_luke training (qa_luke self) a ;;
  match encoder_outputs with
  | Some (word, _, _) =>
      let word_hidden_states := qa_word_hidden_states a word in
      let logits := linear3 (qa_outputs self) word_hidden_states in
      let (start_logits, end_logits) := split2_last logits in
      ret (Some (squeeze_last start_logits, squeeze_last end_logits))
  | None => ret None
  end.
End Heads.

(** ** Shapes of nested tensors *)

(** [x] has shape [B, S, ...]. *)
Definition dims2 {X} (B S : nat) (x : list (list X)) : Prop :=
  length x = B /\ Forall (fun xb => length xb = S) x.

(** [x] has shape [B, N, S, ...]. *)
Definition dims3 {X} (B N S : nat) (x : list (list (list X))) : Prop :=
  length x = B /\ Forall (dims2 N S) x.

(** The two outputs of a layer: word states of shape [B, ws] and, when
    entity states were given, entity states of shape [B, es]. *)
Definition outputs_dims (B ws es : nat) (e : option Tensor3)
    (out : Tensor3 * option Tensor3) : Prop :=
  dims2 B ws (fst out) /\
  match e with
  | None => snd out = None
  | Some _ => exists oe, snd out = Some oe /\ dims2 B es oe
  end.

(** An attention mask argument for a batch of [B] sequences of [S]
    positions: absent, of rank 2 with shape [B, S], or of rank 4 with
    shape [B, 1, 1, S]. *)
Definition mask_shape_ok (B S : nat) (mask : option Mask) : Prop :=
  match mask with
  | None => True
  | Some (Mask2 m) => dims2 B S m
  | Some (Mask4 m) =>
      dims3 B 1 1 m /\ Forall (Forall (Forall (fun row => length row = S))) m
  end.

(** The inputs of [LukeModel.forward] are well shaped: entity position ids
    come with entity ids, and every entity-side tensor has the batch size
    of [input_ids] and the entity count of [entity_ids]. *)
Definition inputs_shape_ok (a : LukeInputs) : Prop :=
  let B := length (input_ids a) in
  let S := shape1 (input_ids a) in
  dims2 B S (input_ids a) /\
  mask_shape_ok B S (attention_mask a) /\
  match entity_ids a with
  | None => True
  | Some ids =>
      let E := shape1 ids in
      dims2 B E ids /\
      (exists pos, entity_position_ids a = Some pos /\ dims2 B E pos) /\
      match entity_token_type_ids a with
      | None => True
      | Some t => dims2 B E t
      end /\
      mask_shape_ok B E (entity_attention_mask a)
  end.

(** The word-embedding layer (a parameter) returns one row per input id. *)
Definition embeddings_shape_ok (training : bool) (emb : RobertaEmbeddings)
    (a : LukeInputs) : Prop :=
  forall g,
    dims2 (length (input_ids a)) (shape1 (input_ids a))
          (fst (emb training (input_ids a) (token_type_ids a) (position_ids a) g)).

(** Every layer was built with at least one head of positive size. *)
Definition heads_ok (layers : list LukeLayer) : Prop :=
  Forall (fun l =>
            (0 < sa_num_attention_heads (attn_self (layer_attention l)))%nat /\
            (0 < sa_attention_head_size (attn_self (layer_attention l)))%nat)
         layers.

(** ** The attention scores in the words of the specification *)

Section BlockScores.
Local Open Scope R_scope.

(** [Q K^T]: entry (i, j) is the dot product of row [i] of [Q] with row
    [j] of [K]. *)
Definition mat_qkT (Q K : Mat) : Mat := map (fun q => map (dot q) K) Q.

(** The 2x2 block matrix with blocks [A B / C D]. *)
Definition block_matrix (A B C D : Mat) : Mat :=
  zip_with (@app R) A B ++ zip_with (@app R) C D.

(** Head [h] of the projection [l] of the states [x] of one batch element. *)
Definition head_proj (self : LukeSelfAttention) (l : Linear) (h : nat) (x : Mat) : Mat :=
  map (fun row => firstn (sa_attention_head_size self)
                    (skipn (h * sa_attention_head_size self) (linear_vec l row))) x.

(** The score matrix of the claim: for every batch element and head, the
    block matrix of word-to-word, word-to-entity, entity-to-word and
    entity-to-entity scores. *)
Definition block_attention_scores (self : LukeSelfAttention) (w e : Tensor3) : Tensor4 :=
  zip_with
    (fun wb eb =>
       map (fun h =>
              block_matrix
                (mat_qkT (head_proj self (query self) h wb) (head_proj self (key self) h wb))
                (mat_qkT (head_proj self (w2e_query self) h wb) (head_proj self (key self) h eb))
                (mat_qkT (head_proj self (e2w_query self) h eb) (head_proj self (key self) h wb))
                (mat_qkT (head_proj self (e2e_query self) h eb) (head_proj self (key self) h eb)))
           (seq 0 (sa_num_attention_heads self)))
    w e.

(** Standard single-stream attention scores of a sequence [x]: one query
    and one key projection. *)
Definition standard_attention_scores (self : LukeSelfAttention) (x : Tensor3) : Tensor4 :=
  map (fun xb =>
         map (fun h =>
                mat_qkT (head_proj self (query self) h xb) (head_proj self (key self) h xb))
             (seq 0 (sa_num_attention_heads self)))
      x.
End BlockScores.

(** ** Self-attention, one position at a time *)

Section AttentionRows.
Local Open Scope R_scope.

(** The mask row of batch element [b] added to a row of scores (line 279). *)
Definition mask_row (mask : option Tensor4) (b : nat) (row : Vec) : Vec :=
  match mask with
  | None => row
  | Some m => bcast_zip Rplus row (nth 0 (nth 0 (nth b m []) []) [])
  end.

(** The attention probabilities of position [s] in head [h]. *)
Definition prob_row (self : LukeSelfAttention) (w : Tensor3) (e : option Tensor3)
    (mask : option Tensor4) (b h s : nat) : Vec :=
  softmax_vec
    (mask_row mask b
       (map (fun v => v / sqrt (INR (sa_attention_head_size self)))
            (nth s (nth h (nth b (attention_scores self w e) []) []) []))).

(** The value vectors of head [h]. *)
Definition value_head (self : LukeSelfAttention) (w : Tensor3) (e : option Tensor3)
    (b h : nat) : Mat :=
  head_proj self (value self) h (nth b (concat_hidden_states w e) []).

(** The output state of position [s]: head by head, the values weighted
    by the probabilities of the position. *)
Definition context_row (self : LukeSelfAttention) (w : Tensor3) (e : option Tensor3)
    (mask : option Tensor4) (b s : nat) : Vec :=
  concat (map (fun h =>
                 map (dot (prob_row self w e mask b h s))
                     (transpose_mat (shape1 (value_head self w e b h))
                                    (value_head self w e b h)))
              (seq 0 (sa_num_attention_heads self))).
End AttentionRows.

(** ** Scaled dot-product attention in the words of the specification *)

Section AttentionSpec.
Local Open Scope R_scope.

(** The attention probabilities of a tensor of scores of shape
    [B, heads, T, T]: every row of scores is divided by the square root of
    the head size, the mask row of its batch element is added to it, and
    the softmax of the row is taken. *)
Definition scaled_masked_softmax (self : LukeSelfAttention) (mask : option Tensor4)
    (scores : Tensor4) : Tensor4 :=
  map (fun b =>
         map (map (fun row =>
                     softmax_vec
                       (mask_row mask b
                          (map (fun v => v / sqrt (INR (sa_attention_head_size self))) row))))
             (nth b scores []))
      (seq 0 (length scores)).

(** The states the weights [weights], of shape [B, heads, T, T], give on
    the sequences [x]: the state of position [s] is, head by head, row [s]
    of the product of the weights of the head with the value vectors of the
    head, the heads laid end to end. *)
Definition weighted_values (self : LukeSelfAttention) (weights : Tensor4) (x : Tensor3)
    : Tensor3 :=
  map (fun b =>
         map (fun s =>
                concat (map (fun h =>
                               nth s (matmul2 (nth h (nth b weights []) [])
                                              (head_proj self (value self) h (nth b x [])))
                                   [])
                            (seq 0 (sa_num_attention_heads self))))
             (seq 0 (length (nth b x []))))
      (seq 0 (length x)).

(** Standard single-stream self-attention over the word states [x]: the
    scores come from the [query] and [key] projections, the probabilities
    go through dropout and weight the [value] projections. *)
Definition standard_self_attention (training : bool) (self : LukeSelfAttention)
    (x : Tensor3) (mask : option Tensor4) : Rand Tensor3 :=
  weights <- dropout4 training (sa_dropout self)
               (scaled_masked_softmax self mask (standard_attention_scores self x)) ;;
  ret (weighted_values self weights x).

(** A transformer layer over the word states alone: standard
    self-attention, its output projection with the residual connection,
    and the feed-forward part. *)
Definition standard_layer (training : bool) (self : LukeLayer)
    (x : Tensor3) (mask : option Tensor4) : Rand Tensor3 :=
  a <- standard_self_attention training (attn_self (layer_attention self)) x mask ;;
  a <- LukeSelfOutput_forward training (attn_output (layer_attention self)) a x ;;
  feed_forward_chunk training self a.

Fixpoint standard_encoder (training : bool) (layer : list LukeLayer)
    (x : Tensor3) (mask : option Tensor4) : Rand Tensor3 :=
  match layer with
  | [] => ret x
  | layer_module :: rest =>
      x <- standard_layer training layer_module x mask ;;
      standard_encoder training rest x mask
  end.

(** The word-only model: word embeddings, the standard encoder under the
    extended word mask, and the pooler. *)
Definition standard_luke (training : bool) (self : LukeModel) (a : LukeInputs)
    : Rand (Tensor3 * Mat) :=
  x <- LukeEmbeddings_forward training (embeddings self)
         (input_ids a) (token_type_ids a) (position_ids a) ;;
  word <- standard_encoder training (encoder self) x
            (Some (extended_mask (pad_token_id self) (input_ids a) (attention_mask a))) ;;
  ret (word, LukePooler_forward (pooler self) word).
End AttentionSpec.

(** ** The position term of an entity in the words of the specification *)

Section EntityPositionSpec.
Local Open Scope R_scope.

(** The mean of the position embeddings at the position ids of one
    entity that are not [-1], the divisor clipped below at [1e-7]. *)
Definition mean_position_embedding (table : Embedding) (ids : list Z) : Vec :=
  let used := filter (fun id => negb (id =? -1)%Z) ids in
  map (fun h =>
         Rsum (map (fun id => emb_weight table (Z.to_nat id) h) used)
         / Rmax (INR (length used)) (1 / 10 ^ 7))
      (seq 0 (embedding_dim table)).

(** Position ids are [-1] (padding) or rows of the position table. *)
Definition valid_position_ids (table : Embedding) (position_ids : IdTensor3) : Prop :=
  Forall (Forall (Forall (fun id => (-1 <= id < Z.of_nat (num_embeddings table))%Z)))
         position_ids.
End EntityPositionSpec.

(** ** Models that differ in the entity query projections only *)

(** Two attention layers agree on everything but [w2e_query], [e2w_query]
    and [e2e_query]. *)
Definition same_up_to_entity_queries (a b : LukeSelfAttention) : Prop :=
  sa_num_attention_heads a = sa_num_attention_heads b /\
  sa_attention_head_size a = sa_attention_head_size b /\
  sa_all_head_size a = sa_all_head_size b /\
  query a = query b /\ key a = key b /\ value a = value b /\
  sa_dropout a = sa_dropout b.

Definition layers_agree (a b : LukeLayer) : Prop :=
  same_up_to_entity_queries (attn_self (layer_attention a)) (attn_self (layer_attention b)) /\
  attn_output (layer_attention a) = attn_output (layer_attention b) /\
  layer_intermediate a = layer_intermediate b /\
  layer_output a = layer_output b.

Definition models_agree (a b : LukeModel) : Prop :=
  pad_token_id a = pad_token_id b /\
  entity_pad_token_id a = entity_pad_token_id b /\
  Forall2 layers_agree (encoder a) (encoder b) /\
  embeddings a = embeddings b /\
  entity_embeddings a = entity_embeddings b /\
  pooler a = pooler b.

(** ** Purity *)

(** A computation that returns the same value whatever the state of the
    random generator, and leaves that state as it found it. *)
Definition generator_free {X} (c : Rand X) : Prop :=
  exists x, forall g, c g = (x, g).


(** ** The span features in the words of the specification *)

(** For every batch element [b] and entity [i]: the word state at the
    start position, then the word state at the end position, then the
    entity state, laid end to end along the feature axis. *)
Definition span_features (word : Tensor3) (starts ends : IdMat) (entity : Tensor3)
    : Tensor3 :=
  map (fun b =>
         map (fun i =>
                nth (Z.to_nat (nth i (nth b starts []) 0%Z)) (nth b word []) []
                ++ nth (Z.to_nat (nth i (nth b ends []) 0%Z)) (nth b word []) []
                ++ nth i (nth b entity []) [])
             (seq 0 (shape1 starts)))
      (seq 0 (length word)).

(** [x] has shape [B, S, H]. *)
Definition rect3 {X} (B S H : nat) (x : list (list (list X))) : Prop :=
  dims2 B S x /\ Forall (Forall (fun r => length r = H)) x.

(** Positions are indices into a sequence of [S] word states. *)
Definition positions_ok (S : nat) (positions : IdMat) : Prop :=
  Forall (Forall (fun s => (0 <= s < Z.of_nat S)%Z)) positions.

(** The index tensor of lines 1030 and 1032: [positions.unsqueeze(-1)]
    expanded along the feature axis to shape [B, E, H]. *)
Definition expanded_positions (B E H : nat) (positions : IdMat) : tensor Z :=
  tabulate [B; E; H] (fun idx =>
    nth (ravel [B; E; 1%nat] (bcast_index [B; E; 1%nat] idx)) (concat positions) 0%Z).

(** ** The default attention mask as a mask argument *)

(** The rank-2 mask that marks the ids other than [pad] with 1 and the
    ids equal to [pad] with 0. *)
Definition non_padding_mask (pad : Z) (ids : IdMat) : Mat :=
  map (map (fun id => if (id =? pad)%Z then 0%R else 1%R)) ids.

(** ** Small instances on which the theorems are run *)

(** An attention layer with one head of size 1, every projection the identity on one feature. *)
Definition unit_linear : Linear := mkLinear 1 1 (fun _ _ => 1%R) None.
Definition unit_attention (p : R) : LukeSelfAttention :=
  mkLukeSelfAttention 1 1 1 unit_linear unit_linear unit_linear
                      unit_linear unit_linear unit_linear p.

(** Entity embeddings of width 1: the position table holds its row number. *)
Definition unit_layer_norm : LayerNorm :=
  mkLayerNorm (fun _ => 1%R) (fun _ => 0%R) layer_norm_eps.
Definition unit_entity_embeddings (p : R) : EntityEmbeddings :=
  mkEntityEmbeddings 1 1
    (mkEmbedding 3 1 (fun i _ => INR i) (Some 0%Z))
    unit_linear
    (mkEmbedding 4 1 (fun i _ => INR i) None)
    (mkEmbedding 1 1 (fun _ _ => 0%R) None)
    unit_layer_norm p.

(** A one-layer model of hidden size 2 with one head: the word-embedding
    layer embeds every token as the zero vector, queries and keys are zero
    (uniform attention), the value projection is [-2] times the identity,
    the attention output projection is the identity, the feed-forward
    projections are zero, layer norms have weight 1 and bias 0.  The entity
    table has the rows [0 0], [0 0], [1 0]; row 0 is the padding row. *)
Definition zero_linear (n m : nat) : Linear := mkLinear n m (fun _ _ => 0%R) None.
Definition scaled_identity (c : R) (n : nat) : Linear :=
  mkLinear n n (fun i j => if (i =? j)%nat then c else 0%R) None.
Definition tiny_self_attention (p : R) : LukeSelfAttention :=
  mkLukeSelfAttention 1 2 2 (zero_linear 2 2) (zero_linear 2 2) (scaled_identity (-2) 2)
                      (zero_linear 2 2) (zero_linear 2 2) (zero_linear 2 2) p.
Definition tiny_layer (act : R -> R) (p : R) : LukeLayer :=
  mkLukeLayer
    (mkLukeAttention (tiny_self_attention p)
                     (mkLukeSelfOutput (scaled_identity 1 2) unit_layer_norm p))
    (mkLukeIntermediate (zero_linear 2 2) act)
    (mkLukeOutput (zero_linear 2 2) unit_layer_norm p).
Definition zero_embeddings : RobertaEmbeddings :=
  fun _ input_ids _ _ => ret (map (map (fun _ => [0%R; 0%R])) input_ids).
Definition tiny_entity_embeddings (ln : LayerNorm) (p : R) : EntityEmbeddings :=
  mkEntityEmbeddings 2 2
    (mkEmbedding 3 2 (fun i j => if (i =? 2)%nat && (j =? 0)%nat then 1%R else 0%R) (Some 0%Z))
    (zero_linear 2 2)
    (mkEmbedding 4 2 (fun _ _ => 0%R) None)
    (mkEmbedding 1 2 (fun _ _ => 0%R) None)
    ln p.
Definition tiny_luke (act : R -> R) (p : R) : LukeModel :=
  mkLukeModel 1 0 [tiny_layer act p] zero_embeddings
              (tiny_entity_embeddings unit_layer_norm p)
              (mkLukePooler (zero_linear 2 2)).

(** The same model over a word-embedding layer that embeds every token as
    the vector [1 0]. *)
Definition one_hot_embeddings : RobertaEmbeddings :=
  fun _ input_ids _ _ => ret (map (map (fun _ => [1%R; 0%R])) input_ids).
Definition tiny_word_luke (act : R -> R) (p : R) : LukeModel :=
  mkLukeModel 1 0 [tiny_layer act p] one_hot_embeddings
              (tiny_entity_embeddings unit_layer_norm p)
              (mkLukePooler (zero_linear 2 2)).

(** One sentence of one token, with one entity (of the given id) mentioned
    at position 0. *)
Definition tiny_inputs (entity : Z) : LukeInputs :=
  mkLukeInputs [[5%Z]] None None None (Some [[entity]]) (Some [[[0%Z]]]) None None.

(** The same sentence with no entity given. *)
Definition tiny_word_inputs : LukeInputs :=
  mkLukeInputs [[5%Z]] None None None None None None None.

(** A span head on the one-layer model: dropout probability [p], a
    classifier from 6 features to 1 label that sums its inputs. *)
Definition tiny_span_head (act : R -> R) (p : R) : LukeForEntitySpanClassification :=
  mkLukeForEntitySpanClassification (tiny_luke act p) p (mkLinear 6 1 (fun _ _ => 1%R) None).


(** The layer norm (weight 1, bias 0) of a pair [x; y] is
    [nrm d; nrm (- d)] with [d = (x - y) / 2]. *)
Definition nrm (d : R) : R := (d / sqrt (d * d + layer_norm_eps))%R.

(* ===================================================================== *)
(** * Part II.  Properties                                                *)
(* ===================================================================== *)

(** ** Row-major indexing *)

Lemma numel_repeat_1 n : numel (repeat 1%nat n) = 1%nat.
Proof. induction n; simpl; [reflexivity | rewrite IHn; reflexivity]. Qed.

Lemma in_bounds_length sh idx : in_bounds sh idx -> length idx = length sh.
Proof. intros H; induction H; simpl; congruence. Qed.

Lemma ravel_lt sh idx : in_bounds sh idx -> (ravel sh idx < numel sh)%nat.
Proof.
  intros H; induction H as [|i d idx sh Hid _ IH]; simpl; [lia|].
  fold (numel sh). nia.
Qed.

Lemma unravel_ravel sh idx : in_bounds sh idx -> unravel sh (ravel sh idx) = idx.
Proof.
  intros H; induction H as [|i d idx sh Hid Hrest IH]; simpl; [reflexivity|].
  pose proof (ravel_lt _ _ Hrest) as Hlt.
  assert (Hn : numel sh <> 0%nat) by lia.
  f_equal.
  - rewrite Nat.div_add_l by exact Hn. rewrite Nat.div_small by exact Hlt. lia.
  - rewrite Nat.add_comm, Nat.Div0.mod_add, Nat.mod_small by exact Hlt. exact IH.
Qed.

Lemma unravel_in_bounds sh j : (j < numel sh)%nat -> in_bounds sh (unravel sh j).
Proof.
  revert j; induction sh as [|d sh IH]; intros j Hj; simpl; [constructor|].
  simpl in Hj. fold (numel sh) in Hj.
  assert (Hn : numel sh <> 0%nat) by nia.
  constructor.
  - apply Nat.Div0.div_lt_upper_bound. nia.
  - apply IH. apply Nat.mod_upper_bound; exact Hn.
Qed.

Lemma ravel_unravel sh j : (j < numel sh)%nat -> ravel sh (unravel sh j) = j.
Proof.
  revert j; induction sh as [|d sh IH]; intros j Hj; simpl in *; [lia|].
  fold (numel sh) in *.
  assert (Hn : numel sh <> 0%nat) by nia.
  rewrite IH by (apply Nat.mod_upper_bound; exact Hn).
  pose proof (Nat.div_mod_eq j (numel sh)). lia.
Qed.

Lemma nth_map_seq {A} (g : nat -> A) n k d :
  (k < n)%nat -> nth k (map g (seq 0 n)) d = g k.
Proof.
  intros Hk.
  rewrite (nth_indep _ d (g 0%nat)) by (rewrite length_map, length_seq; exact Hk).
  rewrite (map_nth g (seq 0 n) 0%nat k), seq_nth by exact Hk. reflexivity.
Qed.

Lemma tget_tabulate {A} (d : A) sh f idx :
  in_bounds sh idx -> tget d (tabulate sh f) idx = f idx.
Proof.
  intros H. unfold tget, tabulate; simpl.
  rewrite nth_map_seq by (apply ravel_lt; exact H).
  rewrite unravel_ravel by exact H. reflexivity.
Qed.

Lemma wf_tabulate {A} sh (f : list nat -> A) : wf (tabulate sh f).
Proof. unfold wf, tabulate; simpl. rewrite length_map, length_seq. reflexivity. Qed.

(** ** [paddle_gather] *)

Lemma sequence_map_some {X Y} (F : X -> option Y) (G : X -> Y) l :
  (forall k, In k l -> F k = Some (G k)) ->
  sequence (map F l) = Some (map G l).
Proof.
  induction l as [|a l IH]; intros H; simpl; [reflexivity|].
  rewrite (H a) by (left; reflexivity).
  rewrite IH by (intros k Hk; apply H; right; exact Hk). reflexivity.
Qed.

Lemma sequence_expand_axis xsh ish :
  Forall2 (fun xd n => xd = n \/ xd = 1%nat) xsh ish ->
  sequence (zip_with expand_axis xsh (map Z.of_nat ish)) = Some ish.
Proof.
  intros H; induction H as [|xd n xsh ish Hx _ IH]; simpl; [reflexivity|].
  rewrite IH. unfold expand_axis.
  replace (Z.of_nat n =? -1)%Z with false by (symmetry; apply Z.eqb_neq; lia).
  replace (Z.of_nat n <? 0)%Z with false by (symmetry; apply Z.ltb_ge; lia).
  replace ((Z.of_nat xd =? Z.of_nat n)%Z || (xd =? 1)%nat) with true.
  - rewrite Nat2Z.id. reflexivity.
  - symmetry. apply orb_true_iff. destruct Hx as [-> | ->].
    + left. apply Z.eqb_refl.
    + right. reflexivity.
Qed.

Lemma length_set_nth {X} k (v : X) l : length (set_nth k v l) = length l.
Proof.
  revert k; induction l as [|h l IH]; intros [|k]; simpl; try reflexivity.
  rewrite IH. reflexivity.
Qed.

Lemma nth_set_nth {X} k j (v : X) l d :
  (k < length l)%nat ->
  nth j (set_nth k v l) d = if (j =? k)%nat then v else nth j l d.
Proof.
  revert k j; induction l as [|h l IH]; intros [|k] [|j] Hk; simpl in *;
    try lia; try reflexivity.
  apply IH. lia.
Qed.

Lemma numel_one_hot k v r :
  (k < r)%nat -> numel (set_nth k v (repeat 1%nat r)) = v.
Proof.
  revert k; induction r as [|r IH]; intros [|k] Hk; simpl; try lia.
  - fold (numel (repeat 1%nat r)). rewrite numel_repeat_1. lia.
  - fold (numel (set_nth k v (repeat 1%nat r))). rewrite IH by lia. lia.
Qed.

Lemma one_hot_compatible k v r ish :
  length ish = r -> (k < r)%nat ->
  v = nth k ish 0%nat \/ v = 1%nat ->
  Forall2 (fun xd n => xd = n \/ xd = 1%nat) (set_nth k v (repeat 1%nat r)) ish.
Proof.
  revert k ish; induction r as [|r IH]; intros k [|n ish] Hl Hk Hv;
    simpl in *; try lia.
  destruct k as [|k]; simpl.
  - constructor; [exact Hv|].
    injection Hl as Hl. clear - Hl. revert r Hl.
    induction ish as [|m ish IH]; intros [|r] Hl; simpl in *; try lia; constructor.
    + right; reflexivity.
    + apply IH. lia.
  - constructor; [right; reflexivity|]. apply IH; [lia | lia | exact Hv].
Qed.

Lemma ravel_ones_bcast m u :
  ravel (repeat 1%nat m) (bcast_index (repeat 1%nat m) u) = 0%nat.
Proof.
  revert u; induction m as [|m IH]; intros [|a u]; simpl; try reflexivity.
  apply IH.
Qed.

Lemma ravel_one_hot_bcast k v r u :
  length u = r -> (k < r)%nat ->
  ravel (set_nth k v (repeat 1%nat r))
        (bcast_index (set_nth k v (repeat 1%nat r)) u)
  = if (v =? 1)%nat then 0%nat else nth k u 0%nat.
Proof.
  revert k u; induction r as [|r IH]; intros k [|a u] Hl Hk; simpl in *; try lia.
  destruct k as [|k]; simpl.
  - fold (numel (repeat 1%nat r)). rewrite numel_repeat_1.
    fold (bcast_index (repeat 1%nat r) u). rewrite ravel_ones_bcast.
    destruct (v =? 1)%nat; lia.
  - fold (bcast_index (set_nth k v (repeat 1%nat r)) u).
    rewrite IH by lia. reflexivity.
Qed.

Lemma nth_concat_uniform {X} (ls : list (list X)) n k j d :
  Forall (fun l => length l = n) ls -> (k < length ls)%nat -> (j < n)%nat ->
  nth (k * n + j) (concat ls) d = nth j (nth k ls []) d.
Proof.
  revert k; induction ls as [|l ls IH]; intros k Hall Hk Hj; simpl in *; [lia|].
  inversion Hall as [|? ? Hl Hrest]; subst.
  destruct k as [|k]; simpl.
  - apply app_nth1. lia.
  - rewrite app_nth2 by lia.
    replace (length l + k * length l + j - length l)%nat
      with (k * length l + j)%nat by lia.
    apply IH; [exact Hrest | lia | exact Hj].
Qed.

Lemma length_concat_uniform {X} (ls : list (list X)) n :
  Forall (fun l => length l = n) ls -> length (concat ls) = (length ls * n)%nat.
Proof.
  induction 1 as [|l ls Hl _ IH]; simpl; [reflexivity|].
  rewrite length_app, IH, Hl. reflexivity.
Qed.

Lemma in_bounds_nth sh idx k :
  in_bounds sh idx -> (k < length sh)%nat -> (nth k idx 0 < nth k sh 0)%nat.
Proof.
  intros Hb; revert k.
  induction Hb as [|i n idx sh Hin _ IH]; intros [|k] Hk; simpl in *; try lia.
  apply IH. lia.
Qed.

Lemma nth_bcast_index xs i n :
  (n < length xs)%nat -> (n < length i)%nat ->
  nth n (bcast_index xs i) 0%nat = if (nth n xs 0 =? 1)%nat then 0%nat else nth n i 0%nat.
Proof.
  revert i n; induction xs as [|a xs IH]; intros [|b i] [|n] H1 H2; simpl in *;
    try lia; try reflexivity.
  apply IH; lia.
Qed.

Lemma length_bcast_index xs i :
  length xs = length i -> length (bcast_index xs i) = length xs.
Proof.
  revert i; induction xs as [|a xs IH]; intros [|b i] H; simpl in *; try lia.
  f_equal. apply IH. lia.
Qed.

Lemma in_bounds_of_nth sh idx :
  length idx = length sh ->
  (forall k, (k < length sh)%nat -> (nth k idx 0 < nth k sh 0)%nat) ->
  in_bounds sh idx.
Proof.
  revert idx; induction sh as [|n sh IH]; intros [|i idx] Hl H; simpl in *;
    try lia; [constructor|].
  constructor.
  - apply (H 0%nat). lia.
  - apply IH; [lia|]. intros k Hk. apply (H (S k)). lia.
Qed.

Lemma forallb_combine_seq (f : nat -> Z) (xs : list nat) (P : Z * nat -> bool) :
  (forall k, (k < length xs)%nat -> P (f k, nth k xs 0%nat) = true) ->
  forallb P (combine (map f (seq 0 (length xs))) xs) = true.
Proof.
  revert f; induction xs as [|a xs IH]; intros f H; simpl; [reflexivity|].
  pose proof (H 0%nat ltac:(simpl; lia)) as H0. simpl in H0. rewrite H0. simpl.
  rewrite <- seq_shift, map_map. apply IH.
  intros k Hk. apply (H (S k)). simpl. lia.
Qed.

Section GatherCorrect.
Context {A : Type}.
Variable dflt : A.
Variables (x : tensor A) (index : tensor Z) (d : nat).
Hypothesis Hwfi : wf index.
Hypothesis Hrank : rank index = rank x.
Hypothesis Hd : (d < rank x)%nat.
Hypothesis Hpos : Forall (fun n => 0 < n)%nat (shape index).
Hypothesis Hshape : forall k, (k < rank x)%nat -> k <> d ->
    nth k (shape x) 0%nat = nth k (shape index) 0%nat \/ nth k (shape x) 0%nat = 1%nat.
Hypothesis Hvalid :
  Forall (fun e => 0 <= e < Z.of_nat (nth d (shape x) 0%nat))%Z (data index).

(** The coordinate list [nd_index[k]] built by the loop. *)
Let one_hot k := set_nth k (nth k (shape x) 0%nat) (repeat 1%nat (rank x)).
Let nd k : tensor Z :=
  if (Z.of_nat k =? Z.of_nat d)%Z then flatten index
  else flatten (tabulate (shape index) (fun idx =>
         nth (ravel (one_hot k) (bcast_index (one_hot k) idx))
             (map Z.of_nat (seq 0 (nth k (shape x) 0%nat))) 0%Z)).

(** The coordinate the loop stores for axis [k] at flat position [j]. *)
Let coord k j : Z :=
  if (k =? d)%nat then nth j (data index) 0%Z
  else Z.of_nat (if (nth k (shape x) 0 =? 1)%nat then 0
                 else nth k (unravel (shape index) j) 0)%nat.

Lemma gather_axis_positive k :
  (k < rank x)%nat -> k <> d -> (0 < nth k (shape x) 0)%nat.
Proof.
  intros Hk Hkd. destruct (Hshape k Hk Hkd) as [-> | ->]; [|lia].
  rewrite Forall_forall in Hpos. apply Hpos. apply nth_In.
  unfold rank in *. lia.
Qed.

Lemma gather_loop_step k :
  (k < rank x)%nat ->
  (if (Z.of_nat k =? Z.of_nat d)%Z then Some (flatten index)
   else
     match reshape (arange (nth k (shape x) 0%nat)) (one_hot k) with
     | None => None
     | Some x_arange =>
         match expand 0%Z x_arange (map Z.of_nat (shape index)) with
         | None => None
         | Some e => Some (flatten e)
         end
     end) = Some (nd k).
Proof.
  intros Hk. unfold nd.
  destruct (Z.of_nat k =? Z.of_nat d)%Z eqn:E; [reflexivity|].
  assert (Hkd : k <> d) by (intros ->; rewrite Z.eqb_refl in E; discriminate).
  pose proof (gather_axis_positive k Hk Hkd) as Hxk.
  unfold reshape, arange; simpl.
  rewrite length_map, length_seq.
  unfold one_hot at 1 2. rewrite numel_one_hot by exact Hk.
  rewrite Nat.eqb_refl, andb_true_r.
  replace (forallb (fun n => (0 <? n)%nat)
             (set_nth k (nth k (shape x) 0%nat) (repeat 1%nat (rank x)))) with true.
  2:{ symmetry. apply forallb_forall. intros n Hn.
      apply In_nth with (d := 0%nat) in Hn. destruct Hn as (p & Hp & <-).
      rewrite length_set_nth, repeat_length in Hp.
      rewrite nth_set_nth by (rewrite repeat_length; exact Hk).
      apply Nat.ltb_lt. destruct (p =? k)%nat; [exact Hxk|].
      rewrite nth_repeat_lt by exact Hp. lia. }
  assert (Hlen : length (one_hot k) = length (shape index)).
  { unfold one_hot. rewrite length_set_nth, repeat_length. symmetry. exact Hrank. }
  unfold expand, rank; simpl.
  rewrite length_map, Hlen, Nat.ltb_irrefl, Nat.sub_diag; simpl.
  rewrite sequence_expand_axis.
  2:{ apply one_hot_compatible; [exact Hrank | exact Hk |].
      destruct (Hshape k Hk Hkd) as [-> | ->]; [left | right]; reflexivity. }
  reflexivity.
Qed.

Lemma gather_nd_index :
  sequence
    (map (fun k =>
            if (Z.of_nat k =? Z.of_nat d)%Z then Some (flatten index)
            else
              match reshape (arange (nth k (shape x) 0%nat))
                      (set_nth k (nth k (shape x) 0%nat) (repeat 1%nat (rank x))) with
              | None => None
              | Some x_arange =>
                  match expand 0%Z x_arange (map Z.of_nat (shape index)) with
                  | None => None
                  | Some e => Some (flatten e)
                  end
              end)
       (seq 0 (rank x))) = Some (map nd (seq 0 (rank x))).
Proof.
  apply sequence_map_some. intros k Hk. apply in_seq in Hk.
  apply gather_loop_step. lia.
Qed.

Lemma nd_shape k : shape (nd k) = [numel (shape index)].
Proof. unfold nd. destruct (Z.of_nat k =? Z.of_nat d)%Z; reflexivity. Qed.

Lemma nd_length k : length (data (nd k)) = numel (shape index).
Proof.
  unfold nd. destruct (Z.of_nat k =? Z.of_nat d)%Z; simpl.
  - exact Hwfi.
  - rewrite length_map, length_seq. reflexivity.
Qed.

Lemma nd_coord k j :
  (k < rank x)%nat -> (j < numel (shape index))%nat ->
  nth j (data (nd k)) 0%Z = coord k j.
Proof.
  intros Hk Hj. unfold nd, coord.
  destruct (Nat.eqb_spec k d) as [-> | Hkd].
  - rewrite Z.eqb_refl. reflexivity.
  - replace (Z.of_nat k =? Z.of_nat d)%Z with false
      by (symmetry; apply Z.eqb_neq; lia).
    simpl. rewrite nth_map_seq by exact Hj.
    unfold one_hot. rewrite ravel_one_hot_bcast.
    2:{ rewrite <- Hrank. unfold rank.
        apply in_bounds_length. apply unravel_in_bounds. exact Hj. }
    2: exact Hk.
    apply nth_map_seq.
    destruct (Nat.eqb_spec (nth k (shape x) 0%nat) 1) as [E | E]; [lia|].
    destruct (Hshape k Hk Hkd) as [E' | E']; [|contradiction].
    rewrite E'. apply in_bounds_nth.
    + apply unravel_in_bounds. exact Hj.
    + unfold rank in *. lia.
Qed.

Lemma coord_in_range k j :
  (k < rank x)%nat -> (j < numel (shape index))%nat ->
  (0 <= coord k j < Z.of_nat (nth k (shape x) 0%nat))%Z.
Proof.
  intros Hk Hj. unfold coord.
  destruct (Nat.eqb_spec k d) as [-> | Hkd].
  - rewrite Forall_forall in Hvalid. apply Hvalid. apply nth_In.
    rewrite Hwfi. exact Hj.
  - pose proof (gather_axis_positive k Hk Hkd) as Hxk.
    destruct (Nat.eqb_spec (nth k (shape x) 0%nat) 1) as [E | E]; [lia|].
    destruct (Hshape k Hk Hkd) as [E' | E']; [|contradiction].
    assert (nth k (unravel (shape index) j) 0 < nth k (shape index) 0)%nat.
    { apply in_bounds_nth; [apply unravel_in_bounds; exact Hj|].
      unfold rank in *. lia. }
    lia.
Qed.

Lemma gather_stack :
  stack (map nd (seq 0 (rank x)))
  = Some (mkTensor [rank x; numel (shape index)]
            (concat (map data (map nd (seq 0 (rank x)))))).
Proof.
  unfold stack.
  destruct (map nd (seq 0 (rank x))) as [|t0 ts] eqn:E.
  - destruct (rank x); [lia | discriminate].
  - rewrite <- E.
    replace (forallb (fun t => list_eqb (shape t) (shape t0)) (map nd (seq 0 (rank x))))
      with true.
    + rewrite length_map, length_seq.
      replace (shape t0) with [numel (shape index)]; [reflexivity|].
      assert (In t0 (map nd (seq 0 (rank x)))) as Hin by (rewrite E; left; reflexivity).
      apply in_map_iff in Hin. destruct Hin as (k & <- & _).
      symmetry; apply nd_shape.
    + symmetry. apply forallb_forall. intros t Ht.
      apply in_map_iff in Ht. destruct Ht as (k & <- & _).
      assert (In t0 (map nd (seq 0 (rank x)))) as Hin by (rewrite E; left; reflexivity).
      apply in_map_iff in Hin. destruct Hin as (k0 & <- & _).
      rewrite !nd_shape. unfold list_eqb.
      destruct (list_eq_dec Nat.eq_dec _ _); [reflexivity | contradiction].
Qed.

(** The index matrix [ind2]: row [j] holds the coordinates of the element
    of [x] read for flat position [j]. *)
Let ind2 : tensor Z :=
  tabulate [numel (shape index); rank x] (fun idx =>
    match idx with
    | [j; i] => tget 0%Z (mkTensor [rank x; numel (shape index)]
                            (concat (map data (map nd (seq 0 (rank x)))))) [i; j]
    | _ => 0%Z
    end).

Lemma ind2_row j :
  (j < numel (shape index))%nat ->
  map (fun k => tget 0%Z ind2 [j; k]) (seq 0 (rank x))
  = map (fun k => coord k j) (seq 0 (rank x)).
Proof.
  intros Hj. apply map_ext_in. intros k Hk. apply in_seq in Hk.
  unfold ind2. rewrite tget_tabulate by (repeat constructor; lia).
  unfold tget; simpl.
  replace (k * (numel (shape index) * 1) + (j * 1 + 0))%nat
    with (k * numel (shape index) + j)%nat by lia.
  rewrite nth_concat_uniform.
  - rewrite map_map.
    rewrite (nth_indep _ [] (data (nd 0%nat)))
      by (rewrite length_map, length_seq; lia).
    rewrite (map_nth (fun k => data (nd k)) (seq 0 (rank x)) 0%nat k).
    rewrite seq_nth by lia. simpl. apply nd_coord; [lia | exact Hj].
  - apply Forall_forall. intros l Hl. rewrite map_map in Hl.
    apply in_map_iff in Hl. destruct Hl as (k' & <- & _). apply nd_length.
  - rewrite !length_map, length_seq. lia.
  - exact Hj.
Qed.

Lemma gather_read_index i :
  in_bounds (shape index) i ->
  map Z.to_nat (map (fun k => coord k (ravel (shape index) i)) (seq 0 (rank x)))
  = set_nth d (Z.to_nat (tget 0%Z index i)) (bcast_index (shape x) i).
Proof.
  intros Hi.
  pose proof (in_bounds_length _ _ Hi) as Hli.
  assert (Hlx : length (shape x) = length i) by (unfold rank in *; lia).
  apply nth_ext with (d := 0%nat) (d' := 0%nat).
  - rewrite !length_map, length_seq, length_set_nth, length_bcast_index by exact Hlx.
    reflexivity.
  - intros n Hn. rewrite !length_map, length_seq in Hn.
    rewrite map_map, nth_map_seq by exact Hn.
    rewrite nth_set_nth
      by (rewrite length_bcast_index by exact Hlx; exact Hd).
    unfold coord. destruct (n =? d)%nat; [reflexivity|].
    rewrite Nat2Z.id, unravel_ravel by exact Hi.
    symmetry. apply nth_bcast_index; unfold rank in *; lia.
Qed.

(** What [paddle_gather] returns, entry by entry. *)
Lemma paddle_gather_correct (dim : Z) :
  (if (dim <? 0)%Z then (Z.of_nat (rank x) + dim)%Z else dim) = Z.of_nat d ->
  exists out,
    paddle_gather dflt x dim index = Some out /\
    shape out = shape index /\
    wf out /\
    (forall i, in_bounds (shape index) i ->
       in_bounds (shape x)
         (set_nth d (Z.to_nat (tget 0%Z index i)) (bcast_index (shape x) i)) /\
       tget dflt out i
       = tget dflt x
           (set_nth d (Z.to_nat (tget 0%Z index i)) (bcast_index (shape x) i))) /\
    ((forall k, (k < rank x)%nat -> k <> d ->
        nth k (shape x) 0%nat = nth k (shape index) 0%nat) ->
     forall i, in_bounds (shape index) i ->
       tget dflt out i
       = tget dflt x (set_nth d (Z.to_nat (tget 0%Z index i)) i)).
Proof.
  intros Hdim.
  set (N := numel (shape index)).
  set (row := fun j => map (fun k => tget 0%Z ind2 [j; k]) (seq 0 (rank x))).
  set (g := tabulate [N] (fun idx => tget dflt x (map Z.to_nat (row (hd 0%nat idx))))).
  assert (Hrun : paddle_gather dflt x dim index
                 = Some (mkTensor (shape index) (data g))).
  { unfold paddle_gather. cbv zeta. rewrite Hdim.
    rewrite gather_nd_index, gather_stack.
    unfold transpose_10, astype_int64; simpl shape; cbv iota beta.
    fold ind2. unfold gather_nd. simpl shape. cbv iota beta zeta.
    rewrite Nat.eqb_refl. simpl andb.
    replace (forallb _ (seq 0 (numel (shape index)))) with true.
    - unfold reshape.
      replace (forallb (fun n => (0 <? n)%nat) (shape index)) with true.
      + assert (Hlen : forall f : list nat -> A,
                   length (data (tabulate [numel (shape index)] f))
                   = numel (shape index)).
        { intros f. unfold tabulate; simpl. rewrite length_map, length_seq. lia. }
        rewrite Hlen, Nat.eqb_refl. reflexivity.
      + symmetry. apply forallb_forall. intros n Hn.
        rewrite Forall_forall in Hpos. apply Nat.ltb_lt. apply Hpos. exact Hn.
    - symmetry. apply forallb_forall. intros j Hj. apply in_seq in Hj.
      rewrite ind2_row by lia.
      unfold coords_ok. rewrite length_map, length_seq.
      unfold rank at 1. rewrite Nat.eqb_refl. simpl andb.
      unfold rank. apply forallb_combine_seq. intros k Hk. simpl.
      pose proof (coord_in_range k j Hk ltac:(lia)) as Hr.
      apply andb_true_iff. split; [apply Z.leb_le | apply Z.ltb_lt]; lia. }
  assert (Hget : forall i, in_bounds (shape index) i ->
            tget dflt (mkTensor (shape index) (data g)) i
            = tget dflt x
                (set_nth d (Z.to_nat (tget 0%Z index i)) (bcast_index (shape x) i))).
  { intros i Hi. pose proof (ravel_lt _ _ Hi) as Hlt. fold N in Hlt.
    unfold tget at 1. cbn [shape data]. subst g. unfold tabulate. cbn [data].
    rewrite nth_map_seq by (simpl; lia).
    change (unravel [N] (ravel (shape index) i))
      with [(ravel (shape index) i / 1)%nat].
    cbn [hd]. rewrite Nat.div_1_r. unfold row. rewrite ind2_row by exact Hlt.
    rewrite gather_read_index by exact Hi. reflexivity. }
  assert (Hin : forall i, in_bounds (shape index) i ->
            in_bounds (shape x)
              (set_nth d (Z.to_nat (tget 0%Z index i)) (bcast_index (shape x) i))).
  { intros i Hi. pose proof (ravel_lt _ _ Hi) as Hlt.
    rewrite <- gather_read_index by exact Hi.
    apply in_bounds_of_nth.
    - rewrite !length_map, length_seq. reflexivity.
    - intros k Hk. rewrite map_map, nth_map_seq by exact Hk.
      pose proof (coord_in_range k _ Hk Hlt). lia. }
  exists (mkTensor (shape index) (data g)).
  split; [exact Hrun|]. split; [reflexivity|]. split.
  { unfold wf, g, tabulate; simpl. rewrite length_map, length_seq. fold N. lia. }
  split.
  { intros i Hi. split; [apply Hin | apply Hget]; exact Hi. }
  intros Hexact i Hi. rewrite Hget by exact Hi. f_equal.
  pose proof (in_bounds_length _ _ Hi) as Hli.
  assert (Hlx : length (shape x) = length i) by (unfold rank in *; lia).
  apply nth_ext with (d := 0%nat) (d' := 0%nat).
  - rewrite !length_set_nth, length_bcast_index by exact Hlx. exact Hlx.
  - intros n Hn. rewrite length_set_nth, length_bcast_index in Hn by exact Hlx.
    rewrite !nth_set_nth
      by (try rewrite length_bcast_index by exact Hlx; unfold rank in *; lia).
    destruct (Nat.eqb_spec n d) as [_ | Hnd]; [reflexivity|].
    rewrite nth_bcast_index by lia.
    destruct (Nat.eqb_spec (nth n (shape x) 0%nat) 1) as [E | E]; [|reflexivity].
    assert (nth n i 0 < nth n (shape index) 0)%nat
      by (apply in_bounds_nth; [exact Hi | lia]).
    rewrite <- (Hexact n Hn Hnd) in H. lia.
Qed.
End GatherCorrect.

(** C2.  For a well-formed index tensor of the rank of [x], with no axis
    of size 0, whose shape agrees with that of [x] on every axis other
    than [dim] (or [x] has size 1 there, the broadcast case), and whose
    entries are indices into axis [dim] of [x]: [paddle_gather(x, dim,
    index)] returns a tensor of exactly the shape of [index], and its
    entry at a multi-index [i] is the entry of [x] at [i] with the
    coordinate at position [dim] replaced by [index[i]] (coordinates along
    broadcast axes of [x] being read as 0).  A negative [dim] counts from
    the last axis. *)
Theorem paddle_gather_spec {A : Type} (dflt : A) (x : tensor A) (index : tensor Z)
    (d : nat) (dim : Z) :
  wf index ->
  rank index = rank x ->
  (d < rank x)%nat ->
  Forall (fun n => 0 < n)%nat (shape index) ->
  (forall k, (k < rank x)%nat -> k <> d ->
     nth k (shape x) 0%nat = nth k (shape index) 0%nat \/ nth k (shape x) 0%nat = 1%nat) ->
  Forall (fun e => 0 <= e < Z.of_nat (nth d (shape x) 0%nat))%Z (data index) ->
  (if (dim <? 0)%Z then (Z.of_nat (rank x) + dim)%Z else dim) = Z.of_nat d ->
  exists out,
    paddle_gather dflt x dim index = Some out /\
    shape out = shape index /\
    wf out /\
    (forall i, in_bounds (shape index) i ->
       in_bounds (shape x)
         (set_nth d (Z.to_nat (tget 0%Z index i)) (bcast_index (shape x) i)) /\
       tget dflt out i
       = tget dflt x
           (set_nth d (Z.to_nat (tget 0%Z index i)) (bcast_index (shape x) i))) /\
    ((forall k, (k < rank x)%nat -> k <> d ->
        nth k (shape x) 0%nat = nth k (shape index) 0%nat) ->
     forall i, in_bounds (shape index) i ->
       tget dflt out i
       = tget dflt x (set_nth d (Z.to_nat (tget 0%Z index i)) i)).
Proof.
  intros Hwfi Hrank Hd Hpos Hshape Hvalid Hdim.
  apply (paddle_gather_correct dflt x index d Hwfi Hrank Hd Hpos Hshape Hvalid dim Hdim).
Qed.

(** A run of C2: a 2x3 matrix gathered along its last axis. *)
Lemma paddle_gather_spec_witness :
  exists out,
    paddle_gather 0%Z (mkTensor [2; 3]%nat [10; 11; 12; 20; 21; 22]%Z) (-1)
                  (mkTensor [2; 2]%nat [2; 0; 1; 1]%Z) = Some out /\
    shape out = [2; 2]%nat /\
    data out = [12; 10; 21; 21]%Z.
Proof.
  destruct (paddle_gather_spec 0%Z
              (mkTensor [2; 3]%nat [10; 11; 12; 20; 21; 22]%Z)
              (mkTensor [2; 2]%nat [2; 0; 1; 1]%Z) 1%nat (-1)%Z)
    as (out & Hrun & Hshape & _).
  - reflexivity.
  - reflexivity.
  - unfold rank; simpl. lia.
  - repeat constructor.
  - unfold rank. intros [|[|k]] Hk Hne; simpl in *; lia.
  - simpl. repeat constructor; lia.
  - reflexivity.
  - exists out. split; [exact Hrun|]. split; [exact Hshape|].
    vm_compute in Hrun. injection Hrun as <-. reflexivity.
Defined.

(** ** Lists combined position by position *)

Lemma zip_with_map_l {X X' Y W} (f : X' -> Y -> W) (g : X -> X') a b :
  zip_with f (map g a) b = zip_with (fun x y => f (g x) y) a b.
Proof.
  revert b; induction a as [|x a IH]; intros [|y b]; simpl; try reflexivity.
  rewrite IH. reflexivity.
Qed.

Lemma zip_with_map_r {X Y Y' W} (f : X -> Y' -> W) (g : Y -> Y') a b :
  zip_with f a (map g b) = zip_with (fun x y => f x (g y)) a b.
Proof.
  revert b; induction a as [|x a IH]; intros [|y b]; simpl; try reflexivity.
  rewrite IH. reflexivity.
Qed.

Lemma map_zip_with {X Y W V} (f : W -> V) (g : X -> Y -> W) a b :
  map f (zip_with g a b) = zip_with (fun x y => f (g x y)) a b.
Proof.
  revert b; induction a as [|x a IH]; intros [|y b]; simpl; try reflexivity.
  rewrite IH. reflexivity.
Qed.

Lemma zip_with_zip_with {X Y U V W} (f : U -> V -> W) (g : X -> Y -> U) (h : X -> Y -> V) a b :
  zip_with f (zip_with g a b) (zip_with h a b)
  = zip_with (fun x y => f (g x y) (h x y)) a b.
Proof.
  revert b; induction a as [|x a IH]; intros [|y b]; simpl; try reflexivity.
  rewrite IH. reflexivity.
Qed.

Lemma zip_with_diag {X W} (f : X -> X -> W) a :
  zip_with f a a = map (fun x => f x x) a.
Proof. induction a as [|x a IH]; simpl; [reflexivity | rewrite IH; reflexivity]. Qed.

Lemma zip_with_zip_l {X Y U W} (f : U -> X -> W) (g : X -> Y -> U) a b :
  zip_with f (zip_with g a b) a = zip_with (fun x y => f (g x y) x) a b.
Proof.
  revert b; induction a as [|x a IH]; intros [|y b]; simpl; try reflexivity.
  rewrite IH. reflexivity.
Qed.

Lemma zip_with_ext_in {X Y W} (f g : X -> Y -> W) a b :
  (forall x y, In x a -> In y b -> f x y = g x y) ->
  zip_with f a b = zip_with g a b.
Proof.
  revert b; induction a as [|x a IH]; intros [|y b] H; simpl; try reflexivity.
  rewrite (H x y) by (left; reflexivity).
  rewrite IH; [reflexivity|].
  intros x' y' Hx Hy. apply H; right; assumption.
Qed.

Lemma length_zip_with {X Y W} (f : X -> Y -> W) a b :
  length (zip_with f a b) = Nat.min (length a) (length b).
Proof.
  revert b; induction a as [|x a IH]; intros [|y b]; simpl; try reflexivity.
  rewrite IH. reflexivity.
Qed.

Lemma zip_with_app {X Y W} (f : X -> Y -> W) a1 a2 b1 b2 :
  length a1 = length b1 ->
  zip_with f (a1 ++ a2) (b1 ++ b2) = zip_with f a1 b1 ++ zip_with f a2 b2.
Proof.
  revert b1; induction a1 as [|x a1 IH]; intros [|y b1] H; simpl in *; try lia.
  - reflexivity.
  - rewrite IH by lia. reflexivity.
Qed.

Lemma zip_with_zip_r {X Y U W} (f : X -> U -> W) (g : X -> Y -> U) a b :
  zip_with f a (zip_with g a b) = zip_with (fun x y => f x (g x y)) a b.
Proof.
  revert b; induction a as [|x a IH]; intros [|y b]; simpl; try reflexivity.
  rewrite IH. reflexivity.
Qed.

Lemma zip_with_zip_r2 {X Y U W} (f : Y -> U -> W) (g : X -> Y -> U) a b :
  zip_with f b (zip_with g a b) = zip_with (fun x y => f y (g x y)) a b.
Proof.
  revert b; induction a as [|x a IH]; intros [|y b]; simpl; try reflexivity.
  rewrite IH. reflexivity.
Qed.

Lemma map_seq_nth {X Y} (f : X -> Y) (l : list X) d :
  map (fun j => f (nth j l d)) (seq 0 (length l)) = map f l.
Proof.
  induction l as [|x l IH]; simpl; [reflexivity|].
  rewrite <- seq_shift, map_map. simpl. rewrite IH. reflexivity.
Qed.

(** [lia] over lengths of nested tensors, whose element types are
    abbreviations. *)
Ltac tlia := unfold Tensor4, Tensor3, Mat, Vec, IdTensor3, IdMat in *; lia.

(** ** Attention scores: the block structure (C1) and the shared keys (C9) *)

Section Scores.
Local Open Scope R_scope.
Variable self : LukeSelfAttention.
Let nh := sa_num_attention_heads self.
Let hs := sa_attention_head_size self.

Lemma transpose_for_scores_linear (l : Linear) (x : Tensor3) :
  transpose_for_scores self (linear3 l x)
  = map (fun xb => map (fun h => head_proj self l h xb) (seq 0 nh)) x.
Proof.
  unfold transpose_for_scores, transpose_0213, reshape_heads, linear3.
  rewrite !map_map. apply map_ext. intros xb.
  unfold swap_outer. apply map_ext_in. intros h Hh. apply in_seq in Hh.
  unfold head_proj, linear_mat. rewrite !map_map. apply map_ext. intros row.
  rewrite nth_map_seq by lia. reflexivity.
Qed.

Lemma Rsum_zip_zeros (q : Vec) m : Rsum (zip_with Rmult q (repeat 0 m)) = 0.
Proof.
  revert m; induction q as [|a q IH]; intros [|m]; simpl; try reflexivity.
  rewrite IH. lra.
Qed.

Lemma dot_app_zeros (q k : Vec) m : dot q (k ++ repeat 0 m) = dot q k.
Proof.
  unfold dot. revert q; induction k as [|b k IH]; intros q; simpl.
  - rewrite Rsum_zip_zeros. destruct q; reflexivity.
  - destruct q as [|a q]; simpl; [reflexivity|]. rewrite IH. reflexivity.
Qed.

Lemma pad_row (k : Vec) n :
  (length k <= n)%nat ->
  map (fun j => nth j k 0) (seq 0 n) = k ++ repeat 0 (n - length k).
Proof.
  intros H. apply nth_ext with (d := 0) (d' := 0).
  - rewrite length_map, length_seq, length_app, repeat_length. lia.
  - intros j Hj. rewrite length_map, length_seq in Hj.
    rewrite nth_map_seq by exact Hj.
    destruct (Nat.lt_ge_cases j (length k)) as [Hlt | Hge].
    + rewrite app_nth1 by exact Hlt. reflexivity.
    + rewrite app_nth2 by exact Hge. rewrite nth_overflow by exact Hge.
      symmetry. apply nth_repeat.
Qed.

(** [paddle.matmul(Q, K.transpose)] is [Q K^T]. *)
Lemma matmul2_transpose (Q K : Mat) n :
  (0 < n)%nat -> Forall (fun k => (length k <= n)%nat) K ->
  matmul2 Q (transpose_mat n K) = mat_qkT Q K.
Proof.
  intros Hn HK. unfold matmul2, mat_qkT. apply map_ext. intros q.
  assert (Hs : shape1 (transpose_mat n K) = length K).
  { unfold shape1, transpose_mat. destruct n as [|n]; [lia|]. simpl.
    rewrite length_map. reflexivity. }
  rewrite Hs. unfold transpose_mat at 1. rewrite map_map.
  rewrite <- (map_seq_nth (dot q) K []).
  apply map_ext_in. intros j Hj. apply in_seq in Hj.
  unfold transpose_mat. rewrite map_map.
  assert (Hrow : map (fun x => nth j (map (fun r => nth x r 0) K) 0) (seq 0 n)
                 = map (fun x => nth x (nth j K []) 0) (seq 0 n)).
  { apply map_ext. intros x.
    rewrite (nth_indep (map (fun r => nth x r 0) K) 0 (nth x [] 0)).
    - rewrite (map_nth (fun r => nth x r 0) K [] j). reflexivity.
    - rewrite length_map. tlia. }
  rewrite Hrow, pad_row.
  - apply dot_app_zeros.
  - rewrite Forall_forall in HK. apply HK. apply nth_In. tlia.
Qed.

Lemma head_proj_width l h x :
  Forall (fun k => (length k <= hs)%nat) (head_proj self l h x).
Proof.
  apply Forall_forall. intros k Hk. unfold head_proj in Hk.
  apply in_map_iff in Hk. destruct Hk as (row & <- & _).
  rewrite length_firstn. apply Nat.le_min_l.
Qed.

Lemma head_proj_app l h x y :
  head_proj self l h (x ++ y) = head_proj self l h x ++ head_proj self l h y.
Proof. unfold head_proj. apply map_app. Qed.

Lemma length_head_proj l h x : length (head_proj self l h x) = length x.
Proof. unfold head_proj. apply length_map. Qed.

(** The key layer of the concatenated states, one batch element at a time. *)
Lemma key_layer_some (w e : Tensor3) :
  key_layer self w (Some e)
  = zip_with (fun wb eb =>
                map (fun h => head_proj self (key self) h wb
                              ++ head_proj self (key self) h eb) (seq 0 nh)) w e.
Proof.
  unfold key_layer, concat_hidden_states, concat_axis1.
  rewrite transpose_for_scores_linear, map_zip_with.
  apply zip_with_ext_in. intros wb eb _ _.
  apply map_ext. intros h. apply head_proj_app.
Qed.

Lemma word_keys (w e : Tensor3) :
  Forall (fun wb => length wb = shape1 w) w ->
  slice_to2 (shape1 w) (key_layer self w (Some e))
  = zip_with (fun wb eb => map (fun h => head_proj self (key self) h wb) (seq 0 nh)) w e.
Proof.
  intros Hw. rewrite key_layer_some. unfold slice_to2, slice_to1.
  rewrite map_zip_with. apply zip_with_ext_in. intros wb eb Hwb _.
  rewrite map_map. apply map_ext. intros h.
  rewrite Forall_forall in Hw.
  rewrite firstn_app, length_head_proj, (Hw wb Hwb), Nat.sub_diag. simpl.
  rewrite app_nil_r. apply firstn_all2. rewrite length_head_proj, (Hw wb Hwb). lia.
Qed.

Lemma entity_keys (w e : Tensor3) :
  Forall (fun wb => length wb = shape1 w) w ->
  slice_from2 (shape1 w) (key_layer self w (Some e))
  = zip_with (fun wb eb => map (fun h => head_proj self (key self) h eb) (seq 0 nh)) w e.
Proof.
  intros Hw. rewrite key_layer_some. unfold slice_from2, slice_from1.
  rewrite map_zip_with. apply zip_with_ext_in. intros wb eb Hwb _.
  rewrite map_map. apply map_ext. intros h.
  rewrite Forall_forall in Hw.
  rewrite skipn_app, length_head_proj, (Hw wb Hwb), Nat.sub_diag. simpl.
  rewrite skipn_all2 by (rewrite length_head_proj, (Hw wb Hwb); lia).
  reflexivity.
Qed.

(** Scores of queries and keys given head by head. *)
Lemma heads_scores (fq fk : nat -> Mat) :
  (0 < hs)%nat ->
  (forall h, Forall (fun k => (length k <= hs)%nat) (fk h)) ->
  zip_with matmul2 (map fq (seq 0 nh)) (map (transpose_mat hs) (map fk (seq 0 nh)))
  = map (fun h => mat_qkT (fq h) (fk h)) (seq 0 nh).
Proof.
  intros Hhs Hk.
  rewrite map_map, zip_with_map_l, zip_with_map_r, zip_with_diag.
  apply map_ext. intros h. apply matmul2_transpose; [exact Hhs | apply Hk].
Qed.

Lemma scores_of_heads_l {X Y} (fq : X -> nat -> Mat) (fk : X -> Y -> nat -> Mat) a b :
  (0 < hs)%nat ->
  (forall x y h, Forall (fun k => (length k <= hs)%nat) (fk x y h)) ->
  scores_of self
    (map (fun x => map (fq x) (seq 0 nh)) a)
    (zip_with (fun x y => map (fk x y) (seq 0 nh)) a b)
  = zip_with (fun x y => map (fun h => mat_qkT (fq x h) (fk x y h)) (seq 0 nh)) a b.
Proof.
  intros Hhs Hk. unfold scores_of, matmul4, transpose_0132.
  rewrite map_zip_with, zip_with_map_l, zip_with_zip_r.
  apply zip_with_ext_in. intros x y _ _.
  apply heads_scores; [exact Hhs | apply Hk].
Qed.

Lemma scores_of_heads_r {X Y} (fq : Y -> nat -> Mat) (fk : X -> Y -> nat -> Mat) a b :
  (0 < hs)%nat ->
  (forall x y h, Forall (fun k => (length k <= hs)%nat) (fk x y h)) ->
  scores_of self
    (map (fun y => map (fq y) (seq 0 nh)) b)
    (zip_with (fun x y => map (fk x y) (seq 0 nh)) a b)
  = zip_with (fun x y => map (fun h => mat_qkT (fq y h) (fk x y h)) (seq 0 nh)) a b.
Proof.
  intros Hhs Hk. unfold scores_of, matmul4, transpose_0132.
  rewrite map_zip_with, zip_with_map_l, zip_with_zip_r2.
  apply zip_with_ext_in. intros x y _ _.
  apply heads_scores; [exact Hhs | apply Hk].
Qed.

Lemma scores_of_heads_diag {X} (fq fk : X -> nat -> Mat) a :
  (0 < hs)%nat ->
  (forall x h, Forall (fun k => (length k <= hs)%nat) (fk x h)) ->
  scores_of self
    (map (fun x => map (fq x) (seq 0 nh)) a)
    (map (fun x => map (fk x) (seq 0 nh)) a)
  = map (fun x => map (fun h => mat_qkT (fq x h) (fk x h)) (seq 0 nh)) a.
Proof.
  intros Hhs Hk. unfold scores_of, matmul4, transpose_0132.
  rewrite map_map, zip_with_map_l, zip_with_map_r, zip_with_diag.
  apply map_ext. intros x.
  apply heads_scores; [exact Hhs | apply Hk].
Qed.

(** The scores the code computes when entity states are given, batch
    element by batch element and head by head. *)
Lemma attention_scores_blocks (w e : Tensor3) :
  (0 < hs)%nat ->
  Forall (fun wb => length wb = shape1 w) w ->
  attention_scores self w (Some e) = block_attention_scores self w e.
Proof.
  intros Hhs Hw.
  unfold attention_scores, w2w_key_layer, e2w_key_layer, w2e_key_layer, e2e_key_layer.
  rewrite (word_keys w e Hw), (entity_keys w e Hw).
  unfold w2w_query_layer, w2e_query_layer, e2w_query_layer, e2e_query_layer.
  rewrite !transpose_for_scores_linear.
  rewrite !scores_of_heads_l by (try exact Hhs; intros; apply head_proj_width).
  rewrite !scores_of_heads_r by (try exact Hhs; intros; apply head_proj_width).
  unfold concat_axis3, concat_axis2.
  rewrite !zip_with_zip_with. unfold block_attention_scores.
  apply zip_with_ext_in. intros wb eb _ _.
  rewrite !zip_with_map_l, !zip_with_map_r, !zip_with_diag.
  unfold concat_axis1 at 1.
  rewrite zip_with_map_l, zip_with_map_r, zip_with_diag.
  reflexivity.
Qed.
End Scores.

Lemma mat_qkT_app (Q1 Q2 K1 K2 : Mat) :
  mat_qkT (Q1 ++ Q2) (K1 ++ K2)
  = block_matrix (mat_qkT Q1 K1) (mat_qkT Q1 K2) (mat_qkT Q2 K1) (mat_qkT Q2 K2).
Proof.
  unfold mat_qkT, block_matrix.
  rewrite map_app, !zip_with_map_l, !zip_with_map_r, !zip_with_diag.
  f_equal; apply map_ext; intros q; apply map_app.
Qed.

Lemma length_mat_qkT Q K : length (mat_qkT Q K) = length Q.
Proof. unfold mat_qkT. apply length_map. Qed.

Lemma mat_qkT_row_length Q K :
  Forall (fun r => length r = length K) (mat_qkT Q K).
Proof.
  apply Forall_forall. intros r Hr. unfold mat_qkT in Hr.
  apply in_map_iff in Hr. destruct Hr as (q & <- & _). apply length_map.
Qed.

(** C1.  When word and entity hidden states are both given, the attention
    scores before the softmax are, for every batch element and head, the
    2x2 block matrix of the word-to-word scores ([query] of the word states
    times the keys of the word states, transposed), the word-to-entity
    scores ([w2e_query] of the word states times the keys of the entity
    states), the entity-to-word scores ([e2w_query] of the entity states
    times the keys of the word states) and the entity-to-entity scores
    ([e2e_query] of the entity states times the keys of the entity states);
    the word block has [word_size] rows and columns, so word positions
    come first in both directions. *)
Theorem attention_scores_block_matrix (self : LukeSelfAttention) (w e : Tensor3) :
  (0 < sa_attention_head_size self)%nat ->
  Forall (fun wb => length wb = shape1 w) w ->
  attention_scores self w (Some e) = block_attention_scores self w e /\
  (forall wb eb h, In wb w ->
     let w2w := mat_qkT (head_proj self (query self) h wb) (head_proj self (key self) h wb) in
     let w2e := mat_qkT (head_proj self (w2e_query self) h wb) (head_proj self (key self) h eb) in
     let e2w := mat_qkT (head_proj self (e2w_query self) h eb) (head_proj self (key self) h wb) in
     length w2w = shape1 w /\ length w2e = shape1 w /\
     Forall (fun r => length r = shape1 w) w2w /\
     Forall (fun r => length r = shape1 w) e2w).
Proof.
  intros Hhs Hw. split.
  - apply attention_scores_blocks; assumption.
  - intros wb eb h Hwb. rewrite Forall_forall in Hw. cbv zeta.
    rewrite !length_mat_qkT, !length_head_proj.
    repeat split; try (apply Hw; exact Hwb).
    + rewrite <- (Hw wb Hwb), <- (length_head_proj self (key self) h wb).
      apply mat_qkT_row_length.
    + rewrite <- (Hw wb Hwb), <- (length_head_proj self (key self) h wb).
      apply mat_qkT_row_length.
Qed.

Lemma attention_scores_block_matrix_witness :
  attention_scores (unit_attention 0) [[[1%R]]] (Some [[[2%R]]])
  = block_attention_scores (unit_attention 0) [[[1%R]]] [[[2%R]]].
Proof.
  apply (attention_scores_block_matrix (unit_attention 0) [[[1%R]]] [[[2%R]]]).
  - simpl. lia.
  - repeat constructor.
Defined.

(** C9.  With entities present the keys are computed once, by the single
    [key] projection of the concatenated word and entity states, and
    sliced: the word-to-word and entity-to-word streams use one and the
    same word-key block, the word-to-entity and entity-to-entity streams
    one and the same entity-key block, and the values come from the single
    [value] projection.  The four streams differ in their query projection
    only: when the four query projections coincide, the scores are those of
    standard attention over the concatenated sequence. *)
Theorem attention_streams_share_keys (self : LukeSelfAttention) (w e : Tensor3) :
  (0 < sa_attention_head_size self)%nat ->
  Forall (fun wb => length wb = shape1 w) w ->
  w2w_key_layer self w e = e2w_key_layer self w e /\
  w2e_key_layer self w e = e2e_key_layer self w e /\
  w2w_key_layer self w e
  = slice_to2 (shape1 w)
      (transpose_for_scores self (linear3 (key self) (concat_axis1 w e))) /\
  w2e_key_layer self w e
  = slice_from2 (shape1 w)
      (transpose_for_scores self (linear3 (key self) (concat_axis1 w e))) /\
  value_layer self w (Some e)
  = transpose_for_scores self (linear3 (value self) (concat_axis1 w e)) /\
  (w2e_query self = query self -> e2w_query self = query self ->
   e2e_query self = query self ->
   attention_scores self w (Some e) = attention_scores self (concat_axis1 w e) None).
Proof.
  intros Hhs Hw. repeat split.
  intros H1 H2 H3.
  rewrite (attention_scores_blocks self w e Hhs Hw).
  unfold block_attention_scores, attention_scores, key_layer, concat_hidden_states.
  rewrite H1, H2, H3, !transpose_for_scores_linear.
  rewrite scores_of_heads_diag by (try exact Hhs; intros; apply head_proj_width).
  unfold concat_axis1. rewrite map_zip_with.
  apply zip_with_ext_in. intros wb eb _ _. apply map_ext. intros h.
  rewrite !head_proj_app. symmetry. apply mat_qkT_app.
Qed.

Lemma attention_streams_share_keys_witness :
  attention_scores (unit_attention 0) [[[1%R]]] (Some [[[2%R]]])
  = attention_scores (unit_attention 0) (concat_axis1 [[[1%R]]] [[[2%R]]]) None.
Proof.
  apply (attention_streams_share_keys (unit_attention 0) [[[1%R]]] [[[2%R]]]);
    try reflexivity.
  - simpl. lia.
  - repeat constructor.
Defined.

(** ** The position term of the entity embeddings (C3) *)

Section EntityPosition.
Local Open Scope R_scope.

Lemma bcast_zip_same_length {X} (f : X -> X -> X) a b :
  length a = length b -> bcast_zip f a b = zip_with f a b.
Proof.
  destruct a as [|a0 [|a1 a]], b as [|b0 [|b1 b]]; simpl; intros H;
    try discriminate; reflexivity.
Qed.

Lemma bcast_zip_one_r {X} (f : X -> X -> X) a m :
  bcast_zip f a [m] = map (fun v => f v m) a.
Proof. destruct a as [|a0 [|a1 a]]; reflexivity. Qed.

Lemma bcast_zip_maps {X Y} (f : X -> X -> X) (g h : Y -> X) l :
  bcast_zip f (map g l) (map h l) = map (fun y => f (g y) (h y)) l.
Proof.
  rewrite bcast_zip_same_length by (rewrite !length_map; reflexivity).
  rewrite zip_with_map_l, zip_with_map_r. apply zip_with_diag.
Qed.

Lemma repeat_map_seq {X} (c : X) n : repeat c n = map (fun _ => c) (seq 0 n).
Proof.
  induction n as [|n IH]; simpl; [reflexivity|].
  rewrite <- seq_shift, map_map, <- IH. reflexivity.
Qed.

Lemma sum_rows_tabulated {Y} (F : Y -> nat -> R) (l : list Y) n :
  sum_rows n (map (fun y => map (F y) (seq 0 n)) l)
  = map (fun h => Rsum (map (fun y => F y h) l)) (seq 0 n).
Proof.
  unfold sum_rows. induction l as [|y l IH]; simpl.
  - apply repeat_map_seq.
  - rewrite IH, zip_with_map_l, zip_with_map_r. apply zip_with_diag.
Qed.

Lemma masked_sum (F : nat -> R) (ids : list Z) :
  Forall (fun id => (-1 <= id)%Z) ids ->
  Rsum (map (fun id => F (Z.to_nat (Z.max id 0)) * (if (id =? -1)%Z then 0 else 1)) ids)
  = Rsum (map (fun id => F (Z.to_nat id)) (filter (fun id => negb (id =? -1)%Z) ids)).
Proof.
  induction 1 as [|id ids Hid _ IH]; simpl; [reflexivity|].
  rewrite IH. destruct (Z.eqb_spec id (-1)) as [-> | Hne]; simpl.
  - ring.
  - rewrite Z.max_l by lia. ring.
Qed.

Lemma mask_count (ids : list Z) :
  Rsum (map (fun id => if (id =? -1)%Z then 0 else 1) ids)
  = INR (length (filter (fun id => negb (id =? -1)%Z) ids)).
Proof.
  induction ids as [|id ids IH]; [reflexivity|].
  cbn [map Rsum fold_right filter]. fold (Rsum (map (fun id => if (id =? -1)%Z then 0 else 1) ids)).
  rewrite IH. destruct (id =? -1)%Z; cbn [negb length].
  - ring.
  - rewrite S_INR. ring.
Qed.
End EntityPosition.

(** C3.  For position ids that are [-1] or rows of the position table, the
    position-embedding term that [EntityEmbeddings.forward] adds for an
    entity is the sum of the position embeddings at those of its position
    ids that differ from [-1], divided by the number of such ids, the
    divisor clipped below at [1e-7]: an id equal to [-1] is clipped to 0
    and multiplied by a zero mask, so it adds nothing to the sum or to the
    count. *)
Theorem entity_position_term (self : EntityEmbeddings) (position_ids : IdTensor3) :
  padding_idx (ee_position_embeddings self) = None ->
  valid_position_ids (ee_position_embeddings self) position_ids ->
  entity_position_embeddings self position_ids
  = map (map (mean_position_embedding (ee_position_embeddings self))) position_ids /\
  (forall training entity_ids token_type_ids,
     EntityEmbeddings_forward training self entity_ids position_ids token_type_ids
     = dropout3 training (ee_dropout self)
         (layer_norm3 (ee_layer_norm self)
            (add3
               (add3
                  (if (ee_entity_emb_size self =? ee_hidden_size self)%nat
                   then embedding_mat (ee_entity_embeddings self) entity_ids
                   else linear3 (ee_entity_embedding_dense self)
                          (embedding_mat (ee_entity_embeddings self) entity_ids))
                  (map (map (mean_position_embedding (ee_position_embeddings self)))
                       position_ids))
               (embedding_mat (ee_token_type_embeddings self)
                  match token_type_ids with
                  | None => map (map (fun _ => 0%Z)) entity_ids
                  | Some t => t
                  end)))).
Proof.
  intros Hpad Hvalid.
  assert (Hterm : entity_position_embeddings self position_ids
                  = map (map (mean_position_embedding (ee_position_embeddings self)))
                        position_ids).
  { unfold entity_position_embeddings.
    rewrite bcast_zip_maps, !map_map, bcast_zip_maps.
    apply map_ext_in. intros b Hb.
    rewrite bcast_zip_maps, !map_map, bcast_zip_maps.
    apply map_ext_in. intros ids Hids.
    assert (Hge : Forall (fun id => (-1 <= id)%Z) ids).
    { unfold valid_position_ids in Hvalid. rewrite Forall_forall in Hvalid.
      specialize (Hvalid b Hb). rewrite Forall_forall in Hvalid.
      specialize (Hvalid ids Hids). revert Hvalid. apply Forall_impl. intros; lia. }
    rewrite bcast_zip_maps.
    assert (Hrows : map (fun id =>
                      bcast_zip Rmult
                        (embedding_vec (ee_position_embeddings self) (Z.max id 0))
                        [if (id =? -1)%Z then 0%R else 1%R]) ids
                    = map (fun id =>
                        map (fun h =>
                               emb_weight (ee_position_embeddings self)
                                 (Z.to_nat (Z.max id 0)) h
                               * (if (id =? -1)%Z then 0 else 1))%R
                            (seq 0 (embedding_dim (ee_position_embeddings self)))) ids).
    { apply map_ext. intros id. rewrite bcast_zip_one_r.
      unfold embedding_vec, is_padding. rewrite Hpad, map_map. reflexivity. }
    rewrite Hrows, sum_rows_tabulated.
    change (map (fun id => [if (id =? -1)%Z then 0%R else 1%R]) ids)
      with (map (fun id => map (fun _ : nat => if (id =? -1)%Z then 0%R else 1%R)
                             (seq 0 1)) ids).
    rewrite sum_rows_tabulated. cbn [seq map].
    rewrite bcast_zip_one_r, map_map, mask_count.
    unfold mean_position_embedding. apply map_ext. intros h.
    rewrite (masked_sum (fun n => emb_weight (ee_position_embeddings self) n h) ids Hge).
    reflexivity. }
  split; [exact Hterm|].
  intros training entity_ids token_type_ids.
  unfold EntityEmbeddings_forward. rewrite Hterm.
  destruct (ee_entity_emb_size self =? ee_hidden_size self)%nat; reflexivity.
Qed.

Lemma entity_position_term_witness :
  entity_position_embeddings (unit_entity_embeddings 0) [[[1; 2; -1]]]%Z
  = map (map (mean_position_embedding (ee_position_embeddings (unit_entity_embeddings 0))))
        [[[1; 2; -1]]]%Z.
Proof.
  apply (entity_position_term (unit_entity_embeddings 0) [[[1; 2; -1]]]%Z).
  - reflexivity.
  - repeat constructor; simpl; lia.
Defined.

(** ** Shapes through the layers (C10) *)

Section Shapes.
Local Open Scope R_scope.

Lemma dims2_shape1 {X} B S (x : list (list X)) :
  dims2 B S x -> (0 < B)%nat -> shape1 x = S.
Proof.
  intros [Hl Hall] HB. destruct x as [|xb x]; simpl in *; [lia|].
  inversion Hall; subst. reflexivity.
Qed.

Lemma dims3_shape2 {X} B N S (x : list (list (list X))) :
  dims3 B N S x -> (0 < B)%nat -> (0 < N)%nat -> shape2 x = S.
Proof.
  intros [Hl Hall] HB HN. destruct x as [|xb x]; simpl in *; [lia|].
  inversion Hall as [|? ? Hxb _]; subst. unfold shape2; simpl.
  apply (dims2_shape1 N S xb Hxb HN).
Qed.

Lemma dims2_nil {X} S : dims2 0 S (@nil (list X)).
Proof. split; [reflexivity | constructor]. Qed.

Lemma dims2_zero {X} S (x : list (list X)) : dims2 0 S x -> x = [].
Proof. intros [Hl _]. destruct x; [reflexivity | discriminate]. Qed.

Lemma dims2_map {X Y} (f : list X -> list Y) B S S' (x : list (list X)) :
  (forall r, length r = S -> length (f r) = S') ->
  dims2 B S x -> dims2 B S' (map f x).
Proof.
  intros Hf [Hl Hall]. split; [rewrite length_map; exact Hl|].
  apply Forall_map. revert Hall. apply Forall_impl. exact Hf.
Qed.

Lemma dims2_map_map {X Y} (f : X -> Y) B S (x : list (list X)) :
  dims2 B S x -> dims2 B S (map (map f) x).
Proof. apply dims2_map. intros r Hr. rewrite length_map. exact Hr. Qed.

Lemma Forall_zip_with {X Y W} (PA : X -> Prop) (PB : Y -> Prop) (P : W -> Prop)
    (f : X -> Y -> W) a b :
  (forall x y, PA x -> PB y -> P (f x y)) ->
  Forall PA a -> Forall PB b -> Forall P (zip_with f a b).
Proof.
  intros Hf Ha; revert b. induction Ha as [|x a Hx _ IH]; intros b Hb; simpl.
  - constructor.
  - destruct Hb as [|y b Hy Hb]; constructor; [apply Hf; assumption | apply IH; exact Hb].
Qed.

Lemma dims2_zip_with {X Y W} (f : list X -> list Y -> list W) B S1 S2 S'
    (a : list (list X)) (b : list (list Y)) :
  (forall r1 r2, length r1 = S1 -> length r2 = S2 -> length (f r1 r2) = S') ->
  dims2 B S1 a -> dims2 B S2 b -> dims2 B S' (zip_with f a b).
Proof.
  intros Hf [Hla Ha] [Hlb Hb]. split.
  - rewrite length_zip_with. lia.
  - apply (Forall_zip_with _ _ _ f a b Hf Ha Hb).
Qed.

Lemma dims2_concat_axis1 {X} B S1 S2 (a b : list (list X)) :
  dims2 B S1 a -> dims2 B S2 b -> dims2 B (S1 + S2) (concat_axis1 a b).
Proof.
  apply dims2_zip_with. intros r1 r2 H1 H2. rewrite length_app. lia.
Qed.

Lemma dims2_add3 B S (a b : Tensor3) :
  dims2 B S a -> dims2 B S b -> dims2 B S (add3 a b).
Proof.
  apply dims2_zip_with. intros r1 r2 H1 H2. rewrite length_zip_with. tlia.
Qed.

Lemma dims2_slice_to1 {X} B S n (x : list (list X)) :
  (n <= S)%nat -> dims2 B S x -> dims2 B n (slice_to1 n x).
Proof.
  intros Hn. apply dims2_map. intros r Hr. rewrite length_firstn. lia.
Qed.

Lemma dims2_slice_from1 {X} B S n (x : list (list X)) :
  dims2 B S x -> dims2 B (S - n) (slice_from1 n x).
Proof.
  apply dims2_map. intros r Hr. rewrite length_skipn. lia.
Qed.

Lemma slice_to1_all {X} B S (x : list (list X)) :
  dims2 B S x -> slice_to1 S x = x.
Proof.
  intros [_ Hall]. unfold slice_to1.
  rewrite <- (map_id x) at 2. apply map_ext_in. intros r Hr.
  rewrite Forall_forall in Hall. apply firstn_all2. rewrite (Hall r Hr). lia.
Qed.

(** *** Dropout keeps shapes *)

Lemma mapM_length {X Y} (f : X -> Rand Y) l g :
  length (fst (mapM f l g)) = length l.
Proof.
  revert g; induction l as [|a l IH]; intros g; simpl; [reflexivity|].
  unfold bind. destruct (f a g) as [b g1]. specialize (IH g1).
  destruct (mapM f l g1) as [r g2]. simpl in *. rewrite IH. reflexivity.
Qed.

Lemma mapM_Forall {X Y} (f : X -> Rand Y) (P : X -> Prop) (Q : Y -> Prop) l g :
  (forall x g, P x -> Q (fst (f x g))) ->
  Forall P l -> Forall Q (fst (mapM f l g)).
Proof.
  intros Hf Hl; revert g. induction Hl as [|a l Ha _ IH]; intros g; simpl.
  - constructor.
  - unfold bind. pose proof (Hf a g Ha) as Hb. destruct (f a g) as [b g1].
    specialize (IH g1). destruct (mapM f l g1) as [r g2]. simpl in *.
    constructor; assumption.
Qed.

Lemma dropout3_dims2 training p B S (x : Tensor3) g :
  dims2 B S x -> dims2 B S (fst (dropout3 training p x g)).
Proof.
  intros [Hl Hall]. unfold dropout3. destruct training; [|split; assumption].
  split.
  - etransitivity; [apply mapM_length | exact Hl].
  - apply (mapM_Forall _ (fun xb => length xb = S)); [|exact Hall].
    intros xb g' Hxb. etransitivity; [apply mapM_length | exact Hxb].
Qed.

Lemma dropout4_dims3 training p B N S (x : Tensor4) g :
  dims3 B N S x -> dims3 B N S (fst (dropout4 training p x g)).
Proof.
  intros [Hl Hall]. unfold dropout4. destruct training; [|split; assumption].
  split.
  - etransitivity; [apply mapM_length | exact Hl].
  - apply (mapM_Forall _ (dims2 N S)); [|exact Hall].
    intros xb g' [Hlb Hb]. split.
    + etransitivity; [apply mapM_length | exact Hlb].
    + apply (mapM_Forall _ (fun xh => length xh = S)); [|exact Hb].
      intros xh g'' Hxh. etransitivity; [apply mapM_length | exact Hxh].
Qed.

(** *** Attention *)

Lemma dims2_uniform {X} B S (x : list (list X)) :
  dims2 B S x -> Forall (fun xb => length xb = shape1 x) x.
Proof.
  intros H. destruct x as [|xb x]; [constructor|].
  rewrite (dims2_shape1 B S (xb :: x) H) by (destruct H as [<- _]; simpl; lia).
  apply H.
Qed.

Lemma slice_to1_shape1 {X Y} B S (w : list (list X)) (c : list (list Y)) :
  dims2 B S w -> length c = B -> slice_to1 (shape1 w) c = slice_to1 S c.
Proof.
  intros Hw Hc. destruct B as [|B].
  - destruct c; [reflexivity | discriminate].
  - rewrite (dims2_shape1 (Datatypes.S B) S w Hw) by lia. reflexivity.
Qed.

Lemma slice_from1_shape1 {X Y} B S (w : list (list X)) (c : list (list Y)) :
  dims2 B S w -> length c = B -> slice_from1 (shape1 w) c = slice_from1 S c.
Proof.
  intros Hw Hc. destruct B as [|B].
  - destruct c; [reflexivity | discriminate].
  - rewrite (dims2_shape1 (Datatypes.S B) S w Hw) by lia. reflexivity.
Qed.

Lemma dims3_map3 {X Y} (f : X -> Y) B N S (x : list (list (list X))) :
  dims3 B N S x -> dims3 B N S (map (map (map f)) x).
Proof.
  intros [Hl Hall]. split; [rewrite length_map; exact Hl|].
  apply Forall_map. revert Hall. apply Forall_impl. intros xb. apply dims2_map_map.
Qed.

Lemma attention_scores_none (self : LukeSelfAttention) (w : Tensor3) :
  (0 < sa_attention_head_size self)%nat ->
  attention_scores self w None = standard_attention_scores self w.
Proof.
  intros Hhs. unfold attention_scores, key_layer, concat_hidden_states.
  rewrite !transpose_for_scores_linear.
  apply scores_of_heads_diag; [exact Hhs | intros; apply head_proj_width].
Qed.

Lemma attention_scores_dims (self : LukeSelfAttention) B ws es
    (w : Tensor3) (e : option Tensor3) :
  (0 < sa_attention_head_size self)%nat ->
  dims2 B ws w ->
  match e with Some e' => dims2 B es e' | None => es = 0%nat end ->
  dims3 B (sa_num_attention_heads self) (ws + es) (attention_scores self w e).
Proof.
  intros Hhs Hw He. destruct e as [e'|].
  - rewrite attention_scores_blocks by (try exact Hhs; apply (dims2_uniform B ws w Hw)).
    unfold block_attention_scores. destruct Hw as [Hlw Hw], He as [Hle He]. split.
    + rewrite length_zip_with. tlia.
    + apply Forall_zip_with
        with (PA := fun xb : Mat => length xb = ws) (PB := fun xb : Mat => length xb = es);
        [| exact Hw | exact He].
      intros wb eb Hwb Heb. split; [rewrite length_map, length_seq; reflexivity|].
      apply Forall_map, Forall_forall. intros h _.
      unfold block_matrix.
      rewrite length_app, !length_zip_with, !length_mat_qkT, !length_head_proj.
      tlia.
  - subst es. rewrite attention_scores_none by exact Hhs.
    unfold standard_attention_scores. destruct Hw as [Hlw Hw]. split.
    + rewrite length_map. exact Hlw.
    + apply Forall_map. revert Hw. apply Forall_impl. intros wb Hwb. split.
      * rewrite length_map, length_seq. reflexivity.
      * apply Forall_map, Forall_forall. intros h _.
        rewrite length_mat_qkT, length_head_proj. tlia.
Qed.

Lemma add4_bcast_dims B N S (a m : Tensor4) :
  dims3 B N S a -> dims3 B 1 1 m -> dims3 B N S (add4_bcast a m).
Proof.
  intros [Hla Ha] [Hlm Hm]. unfold add4_bcast.
  rewrite bcast_zip_same_length by tlia. split.
  - rewrite length_zip_with. tlia.
  - apply Forall_zip_with with (PA := dims2 N S) (PB := dims2 1 1);
      [| exact Ha | exact Hm].
    intros ab mb [Hlab Hab] [Hlmb Hmb].
    destruct mb as [|mh [|? ?]]; try discriminate.
    rewrite bcast_zip_one_r. inversion Hmb as [|? ? Hmh _]; subst. split.
    + rewrite length_map. reflexivity.
    + apply Forall_map. revert Hab. apply Forall_impl. intros ah Hah.
      destruct mh as [|mr [|? ?]]; try discriminate.
      rewrite bcast_zip_one_r, length_map. exact Hah.
Qed.

Lemma attention_probs_dims (self : LukeSelfAttention) B ws es
    (w : Tensor3) (e : option Tensor3) (mask : option Tensor4) :
  (0 < sa_attention_head_size self)%nat ->
  dims2 B ws w ->
  match e with Some e' => dims2 B es e' | None => es = 0%nat end ->
  match mask with Some m => dims3 B 1 1 m | None => True end ->
  dims3 B (sa_num_attention_heads self) (ws + es) (attention_probs self w e mask).
Proof.
  intros Hhs Hw He Hm. unfold attention_probs, softmax4.
  apply dims3_map3.
  pose proof (attention_scores_dims self B ws es w e Hhs Hw He) as Hs.
  apply (dims3_map3 (map (fun v => v / sqrt (INR (sa_attention_head_size self))))) in Hs.
  destruct mask as [m|]; [apply add4_bcast_dims; assumption | exact Hs].
Qed.

Lemma concat_hidden_states_dims B ws es (w : Tensor3) (e : option Tensor3) :
  dims2 B ws w ->
  match e with Some e' => dims2 B es e' | None => es = 0%nat end ->
  dims2 B (ws + es) (concat_hidden_states w e).
Proof.
  intros Hw He. destruct e as [e'|]; simpl.
  - apply dims2_concat_axis1; assumption.
  - subst es. rewrite Nat.add_0_r. exact Hw.
Qed.

Lemma value_layer_dims (self : LukeSelfAttention) B (x : Tensor3) :
  length x = B ->
  dims2 B (sa_num_attention_heads self)
        (transpose_for_scores self (linear3 (value self) x)).
Proof.
  intros Hx. rewrite transpose_for_scores_linear. split.
  - rewrite length_map. exact Hx.
  - apply Forall_map, Forall_forall. intros xb _.
    rewrite length_map, length_seq. reflexivity.
Qed.

Lemma matmul4_dims B N S (a b : Tensor4) :
  dims3 B N S a -> dims2 B N b -> dims3 B N S (matmul4 a b).
Proof.
  intros [Hla Ha] [Hlb Hb]. unfold matmul4. split.
  - rewrite length_zip_with. tlia.
  - apply Forall_zip_with with (PA := dims2 N S) (PB := fun bb : Tensor3 => length bb = N);
      [| exact Ha | exact Hb].
    intros ab bb [Hlab Hab] Hlbb. split.
    + rewrite length_zip_with. tlia.
    + apply (Forall_zip_with (fun ah => length ah = S) (fun _ => True)); auto.
      * intros ah bh Hah _. unfold matmul2. rewrite length_map. exact Hah.
      * apply Forall_forall. auto.
Qed.

Lemma context_layer_dims B N S (x : Tensor4) :
  (0 < N)%nat -> dims3 B N S x ->
  dims2 B S (merge_heads (transpose_0213 (shape2 x) x)).
Proof.
  intros HN Hx. destruct B as [|B].
  - destruct Hx as [Hl _]. destruct x; [apply dims2_nil | discriminate].
  - rewrite (dims3_shape2 (Datatypes.S B) N S x Hx) by lia.
    destruct Hx as [Hl _]. unfold merge_heads, transpose_0213. split.
    + rewrite !length_map. exact Hl.
    + apply Forall_map, Forall_map, Forall_forall. intros xb _.
      unfold swap_outer. rewrite !length_map, length_seq. reflexivity.
Qed.

Lemma self_attention_dims training (self : LukeSelfAttention) B ws es
    (w : Tensor3) (e : option Tensor3) (mask : option Tensor4) g :
  (0 < sa_num_attention_heads self)%nat ->
  (0 < sa_attention_head_size self)%nat ->
  dims2 B ws w ->
  match e with Some e' => dims2 B es e' | None => es = 0%nat end ->
  match mask with Some m => dims3 B 1 1 m | None => True end ->
  let out := fst (LukeSelfAttention_forward training self w e mask g) in
  dims2 B ws (fst out) /\
  match e with
  | None => snd out = None
  | Some _ => exists oe, snd out = Some oe /\ dims2 B es oe
  end.
Proof.
  intros Hnh Hhs Hw He Hm.
  unfold LukeSelfAttention_forward, attention_weights, bind.
  pose proof (attention_probs_dims self B ws es w e mask Hhs Hw He Hm) as Hp.
  apply (dropout4_dims3 training (sa_dropout self) _ _ _ _ g) in Hp.
  destruct (dropout4 training (sa_dropout self) (attention_probs self w e mask) g)
    as [probs g1]. simpl in Hp. simpl.
  assert (Hv : dims2 B (sa_num_attention_heads self) (value_layer self w e)).
  { apply (value_layer_dims self B).
    apply (concat_hidden_states_dims B ws es w e Hw He). }
  pose proof (matmul4_dims _ _ _ _ _ Hp Hv) as Hc.
  apply (context_layer_dims _ _ _ _ Hnh) in Hc.
  set (context := merge_heads _) in *.
  assert (Hlc : length context = B) by apply Hc.
  split.
  - rewrite (slice_to1_shape1 B ws w context Hw Hlc).
    apply (dims2_slice_to1 B (ws + es)); [lia | exact Hc].
  - destruct e as [e'|]; [|reflexivity].
    eexists. split; [reflexivity|].
    rewrite (slice_from1_shape1 B ws w context Hw Hlc).
    replace es with (ws + es - ws)%nat at 1 by lia.
    apply dims2_slice_from1. exact Hc.
Qed.

(** *** The layers around the attention *)

Lemma linear3_dims l B S (x : Tensor3) : dims2 B S x -> dims2 B S (linear3 l x).
Proof. apply dims2_map_map. Qed.

Lemma layer_norm3_dims l B S (x : Tensor3) : dims2 B S x -> dims2 B S (layer_norm3 l x).
Proof. apply dims2_map_map. Qed.

Lemma self_output_dims training (self : LukeSelfOutput) B S (h x : Tensor3) g :
  dims2 B S h -> dims2 B S x ->
  dims2 B S (fst (LukeSelfOutput_forward training self h x g)).
Proof.
  intros Hh Hx. unfold LukeSelfOutput_forward, bind.
  pose proof (dropout3_dims2 training (so_dropout self) B S _ g
                (linear3_dims (so_dense self) B S h Hh)) as Hd.
  destruct (dropout3 training (so_dropout self) (linear3 (so_dense self) h) g) as [d g1].
  simpl in *. apply layer_norm3_dims, dims2_add3; assumption.
Qed.

Lemma output_dims training (self : LukeOutput) B S (h x : Tensor3) g :
  dims2 B S h -> dims2 B S x ->
  dims2 B S (fst (LukeOutput_forward training self h x g)).
Proof.
  intros Hh Hx. unfold LukeOutput_forward, bind.
  pose proof (dropout3_dims2 training (out_dropout self) B S _ g
                (linear3_dims (out_dense self) B S h Hh)) as Hd.
  destruct (dropout3 training (out_dropout self) (linear3 (out_dense self) h) g) as [d g1].
  simpl in *. apply layer_norm3_dims, dims2_add3; assumption.
Qed.

Lemma intermediate_dims (self : LukeIntermediate) B S (x : Tensor3) :
  dims2 B S x -> dims2 B S (LukeIntermediate_forward self x).
Proof.
  intros Hx. unfold LukeIntermediate_forward.
  apply dims2_map_map, linear3_dims, Hx.
Qed.

Lemma concat_outputs_dims B ws es (e : option Tensor3) out :
  match e with Some e' => dims2 B es e' | None => es = 0%nat end ->
  outputs_dims B ws es e out ->
  dims2 B (ws + es)
    match e with None => fst out | Some _ => concat_outputs out end.
Proof.
  intros He [Hw Ho]. destruct e as [e'|].
  - destruct Ho as (oe & Hoe & Hd). unfold concat_outputs. rewrite Hoe.
    apply dims2_concat_axis1; assumption.
  - subst es. rewrite Nat.add_0_r. exact Hw.
Qed.

Lemma split_outputs_dims B ws es (w : Tensor3) (e : option Tensor3) (x : Tensor3) :
  dims2 B ws w -> dims2 B (ws + es) x ->
  outputs_dims B ws es e
    (slice_to1 (shape1 w) x,
     match e with None => None | Some _ => Some (slice_from1 (shape1 w) x) end).
Proof.
  intros Hw Hx. assert (Hl : length x = B) by apply Hx. split; simpl.
  - rewrite (slice_to1_shape1 B ws w x Hw Hl).
    apply (dims2_slice_to1 B (ws + es)); [lia | exact Hx].
  - destruct e as [e'|]; [|reflexivity].
    eexists. split; [reflexivity|].
    rewrite (slice_from1_shape1 B ws w x Hw Hl).
    replace es with (ws + es - ws)%nat at 1 by lia.
    apply dims2_slice_from1. exact Hx.
Qed.

Lemma attention_dims training (self : LukeAttention) B ws es
    (w : Tensor3) (e : option Tensor3) (mask : option Tensor4) g :
  (0 < sa_num_attention_heads (attn_self self))%nat ->
  (0 < sa_attention_head_size (attn_self self))%nat ->
  dims2 B ws w ->
  match e with Some e' => dims2 B es e' | None => es = 0%nat end ->
  match mask with Some m => dims3 B 1 1 m | None => True end ->
  outputs_dims B ws es e (fst (LukeAttention_forward training self w e mask g)).
Proof.
  intros Hnh Hhs Hw He Hm. unfold LukeAttention_forward, bind.
  pose proof (self_attention_dims training (attn_self self) B ws es w e mask g
                Hnh Hhs Hw He Hm) as Hso.
  destruct (LukeSelfAttention_forward training (attn_self self) w e mask g) as [so g1].
  cbv zeta in Hso. simpl fst in Hso.
  pose proof (concat_outputs_dims B ws es e so He Hso) as Hc.
  pose proof (concat_hidden_states_dims B ws es w e Hw He) as Hx.
  pose proof (self_output_dims training (attn_output self) B (ws + es) _ _ g1 Hc Hx) as Ho.
  destruct (LukeSelfOutput_forward training (attn_output self) _ _ g1) as [ao g2].
  simpl fst in *. apply split_outputs_dims; assumption.
Qed.

Lemma layer_dims training (self : LukeLayer) B ws es
    (w : Tensor3) (e : option Tensor3) (mask : option Tensor4) g :
  (0 < sa_num_attention_heads (attn_self (layer_attention self)))%nat ->
  (0 < sa_attention_head_size (attn_self (layer_attention self)))%nat ->
  dims2 B ws w ->
  match e with Some e' => dims2 B es e' | None => es = 0%nat end ->
  match mask with Some m => dims3 B 1 1 m | None => True end ->
  outputs_dims B ws es e (fst (LukeLayer_forward training self w e mask g)).
Proof.
  intros Hnh Hhs Hw He Hm. unfold LukeLayer_forward, feed_forward_chunk, bind.
  pose proof (attention_dims training (layer_attention self) B ws es w e mask g
                Hnh Hhs Hw He Hm) as Ha.
  destruct (LukeAttention_forward training (layer_attention self) w e mask g) as [sa g1].
  simpl fst in Ha.
  pose proof (concat_outputs_dims B ws es e sa He Ha) as Hc.
  pose proof (output_dims training (layer_output self) B (ws + es) _ _ g1
                (intermediate_dims (layer_intermediate self) _ _ _ Hc) Hc) as Ho.
  destruct (LukeOutput_forward training (layer_output self) _ _ g1) as [lo g2].
  simpl fst in *. apply split_outputs_dims; assumption.
Qed.

Lemma encoder_dims training (layers : list LukeLayer) B ws es
    (w : Tensor3) (e : option Tensor3) (mask : option Tensor4) g :
  heads_ok layers ->
  dims2 B ws w ->
  match e with Some e' => dims2 B es e' | None => es = 0%nat end ->
  match mask with Some m => dims3 B 1 1 m | None => True end ->
  outputs_dims B ws es e (fst (LukeEncoder_forward training layers w e mask g)).
Proof.
  intros Hok; revert w e g.
  induction Hok as [|l layers [Hnh Hhs] _ IH]; intros w e g Hw He Hm; simpl.
  - split; [exact Hw|]. destruct e as [e'|]; [|reflexivity].
    exists e'. split; [reflexivity | exact He].
  - unfold bind.
    pose proof (layer_dims training l B ws es w e mask g Hnh Hhs Hw He Hm) as Hl.
    destruct (LukeLayer_forward training l w e mask g) as [lo g1].
    simpl fst in Hl. destruct Hl as [Hlw Hle].
    destruct e as [e'|].
    + destruct Hle as (oe & Hoe & Hd). rewrite Hoe.
      apply (IH (fst lo) (Some oe) g1); assumption.
    + apply (IH (fst lo) None g1); assumption.
Qed.

(** *** Masks and entity embeddings *)

Lemma unsqueeze_12_dims (m : Mat) : dims3 (length m) 1 1 (unsqueeze_12 m).
Proof.
  unfold unsqueeze_12. split; [apply length_map|].
  apply Forall_map, Forall_forall. intros row _.
  split; [reflexivity | repeat constructor].
Qed.

Lemma extended_mask_dims pad (ids : IdMat) (mask : option Mask) B S :
  dims2 B S ids -> mask_shape_ok B S mask ->
  dims3 B 1 1 (extended_mask pad ids mask).
Proof.
  intros [Hl _] Hm. unfold extended_mask. destruct mask as [[m|m]|].
  - destruct Hm as [Hlm _]. rewrite <- Hlm.
    apply (dims3_map3 (map (fun v => (1 - v) * - (10000)))).
    apply unsqueeze_12_dims.
  - apply Hm.
  - rewrite <- Hl,
      <- (length_map (map (fun id => (if (id =? pad)%Z then 1 else 0) * - (10000))) ids).
    apply unsqueeze_12_dims.
Qed.

Lemma concat_masks_dims B (a b : Tensor4) :
  dims3 B 1 1 a -> dims3 B 1 1 b -> dims3 B 1 1 (concat_axis3 a b).
Proof.
  intros [Hla Ha] [Hlb Hb]. unfold concat_axis3. split.
  - rewrite length_zip_with. tlia.
  - apply Forall_zip_with with (PA := dims2 1 1) (PB := dims2 1 1);
      [| exact Ha | exact Hb].
    intros x y Hx Hy. unfold concat_axis2.
    apply (dims2_zip_with _ 1 1 1 1 x y); [|exact Hx | exact Hy].
    intros r1 r2 H1 H2. unfold concat_axis1. rewrite length_zip_with. tlia.
Qed.

Lemma entity_position_embeddings_rows (self : EntityEmbeddings) :
  exists F : list Z -> Vec,
    forall position_ids,
      entity_position_embeddings self position_ids = map (map F) position_ids.
Proof.
  eexists. intros position_ids. unfold entity_position_embeddings.
  rewrite bcast_zip_maps, !map_map, bcast_zip_maps.
  apply map_ext. intros b.
  rewrite bcast_zip_maps, !map_map, bcast_zip_maps.
  apply map_ext. intros ids.
  rewrite bcast_zip_maps. reflexivity.
Qed.

Lemma entity_embeddings_dims training (self : EntityEmbeddings) B E
    (ids : IdMat) (pos : IdTensor3) (tt : option IdMat) g :
  dims2 B E ids -> dims2 B E pos ->
  match tt with None => True | Some t => dims2 B E t end ->
  dims2 B E (fst (EntityEmbeddings_forward training self ids pos tt g)).
Proof.
  intros Hids Hpos Htt. unfold EntityEmbeddings_forward.
  apply dropout3_dims2, layer_norm3_dims, dims2_add3; [apply dims2_add3|].
  - destruct (ee_entity_emb_size self =? ee_hidden_size self)%nat;
      [| apply linear3_dims]; apply dims2_map_map; exact Hids.
  - destruct (entity_position_embeddings_rows self) as (F & ->).
    apply dims2_map_map. exact Hpos.
  - apply dims2_map_map. destruct tt as [t|]; [exact Htt|].
    apply dims2_map_map. exact Hids.
Qed.

Lemma zeros_dims B E : dims2 B E (repeat (repeat 0%Z E) B).
Proof.
  split; [apply repeat_length|].
  apply Forall_forall. intros r Hr. apply repeat_spec in Hr. subst r.
  apply repeat_length.
Qed.
End Shapes.

(** C10.  For well-shaped inputs [LukeModel.forward] returns, and the
    returned word hidden states have one row per position of [input_ids] in
    every batch element; when [entity_ids] is given the returned entity
    hidden states have one row per entity of [entity_ids] (and are [None]
    otherwise); every encoder layer preserves these lengths; hence the
    slice to the first [input_ids.shape[1]] positions taken in
    [LukeForQuestionAnswering.forward] is the identity. *)
Theorem luke_sequence_lengths (training : bool) (self : LukeModel) (a : LukeInputs)
    (g : Generator) :
  heads_ok (encoder self) ->
  inputs_shape_ok a ->
  embeddings_shape_ok training (embeddings self) a ->
  (exists word entity pooled g',
     call_luke training self a g = (Some (word, entity, pooled), g') /\
     dims2 (length (input_ids a)) (shape1 (input_ids a)) word /\
     match entity_ids a with
     | None => entity = None
     | Some ids => exists e, entity = Some e /\ dims2 (length ids) (shape1 ids) e
     end /\
     qa_word_hidden_states a word = word) /\
  (forall l, In l (encoder self) ->
     forall B ws es w e mask g1,
       dims2 B ws w ->
       match e with Some e' => dims2 B es e' | None => es = 0%nat end ->
       match mask with Some m => dims3 B 1 1 m | None => True end ->
       outputs_dims B ws es e (fst (LukeLayer_forward training l w e mask g1))).
Proof.
  intros Hok (Hids & Hmask & Hent) Hemb. split.
  2:{ intros l Hl B ws es w e mask g1 Hw He Hm.
      unfold heads_ok in Hok. rewrite Forall_forall in Hok.
      destruct (Hok l Hl) as [Hnh Hhs]. apply layer_dims; assumption. }
  unfold call_luke, LukeModel_forward, LukeEmbeddings_forward, bind.
  pose proof (Hemb g) as Hw0.
  destruct (embeddings self training (input_ids a) (token_type_ids a) (position_ids a) g)
    as [w0 g1]. simpl fst in Hw0.
  pose proof (extended_mask_dims (pad_token_id self) _ _ _ _ Hids Hmask) as Hm.
  destruct (entity_ids a) as [ids|].
  - destruct Hent as (Hdi & (pos & Epos & Hdp) & Htt & Hem). rewrite Epos.
    pose proof (extended_mask_dims (entity_pad_token_id self) _ _ _ _ Hdi Hem) as Hme.
    pose proof (concat_masks_dims _ _ _ Hm Hme) as Hmc.
    assert (He0 : forall tt,
              tt = match entity_token_type_ids a with
                   | Some _ => entity_token_type_ids a
                   | None => Some (repeat (repeat 0%Z (shape1 ids)) (length (input_ids a)))
                   end ->
              dims2 (length (input_ids a)) (shape1 ids)
                (fst (EntityEmbeddings_forward training (entity_embeddings self)
                        ids pos tt g1))).
    { intros tt ->. apply entity_embeddings_dims; [exact Hdi | exact Hdp |].
      destruct (entity_token_type_ids a); [exact Htt | apply zeros_dims]. }
    specialize (He0 _ eq_refl).
    destruct (EntityEmbeddings_forward training (entity_embeddings self) ids pos _ g1)
      as [e0 g2]. simpl fst in He0. unfold ret at 1.
    pose proof (encoder_dims training (encoder self) _ _ _ w0 (Some e0) (Some _) g2
                  Hok Hw0 He0 Hmc) as Henc.
    destruct (LukeEncoder_forward training (encoder self) w0 (Some e0) _ g2) as [[ow oe] g3].
    destruct Henc as [Hw (e' & He' & Hde)]. simpl in Hw, He'. subst oe.
    do 4 eexists. split; [reflexivity|]. split; [exact Hw|]. split.
    + exists e'. split; [reflexivity|]. destruct Hdi as [-> _]. exact Hde.
    + apply (slice_to1_all _ _ _ Hw).
  - unfold ret at 1.
    pose proof (encoder_dims training (encoder self) _ _ 0%nat w0 None (Some _) g1
                  Hok Hw0 eq_refl Hm) as Henc.
    destruct (LukeEncoder_forward training (encoder self) w0 None _ g1) as [[ow oe] g3].
    destruct Henc as [Hw He']. simpl in Hw, He'. subst oe.
    do 4 eexists. split; [reflexivity|]. split; [exact Hw|]. split; [reflexivity|].
    apply (slice_to1_all _ _ _ Hw).
Qed.

Lemma luke_sequence_lengths_witness :
  exists word entity pooled g',
    call_luke false (tiny_luke (fun x => x) 0) (tiny_inputs 1) (fun _ => 0%R)
    = (Some (word, entity, pooled), g') /\
    dims2 (length (input_ids (tiny_inputs 1))) (shape1 (input_ids (tiny_inputs 1))) word /\
    match entity_ids (tiny_inputs 1) with
    | None => entity = None
    | Some ids => exists e, entity = Some e /\ dims2 (length ids) (shape1 ids) e
    end /\
    qa_word_hidden_states (tiny_inputs 1) word = word.
Proof.
  apply (luke_sequence_lengths false (tiny_luke (fun x => x) 0) (tiny_inputs 1)
           (fun _ => 0%R)).
  - repeat constructor.
  - unfold inputs_shape_ok; simpl. repeat split; repeat constructor.
    exists [[[0%Z]]]. repeat split; repeat constructor.
  - intros g. simpl. repeat split; repeat constructor.
Defined.

(** ** Without entities: models that differ in the entity queries *)

Section NoEntities.
Local Open Scope R_scope.

Lemma self_attention_none_agree training (a b : LukeSelfAttention) w mask g :
  same_up_to_entity_queries a b ->
  LukeSelfAttention_forward training a w None mask g
  = LukeSelfAttention_forward training b w None mask g.
Proof.
  intros (H1 & H2 & H3 & H4 & H5 & H6 & H7).
  unfold LukeSelfAttention_forward, attention_weights, attention_probs,
    attention_scores, value_layer, key_layer, scores_of, transpose_for_scores.
  rewrite H1, H2, H4, H5, H6, H7. reflexivity.
Qed.

Lemma layer_none_agree training (a b : LukeLayer) w mask g :
  layers_agree a b ->
  LukeLayer_forward training a w None mask g = LukeLayer_forward training b w None mask g.
Proof.
  intros (H1 & H2 & H3 & H4).
  unfold LukeLayer_forward, feed_forward_chunk, LukeAttention_forward, bind.
  rewrite (self_attention_none_agree training _ _ w mask g H1), H2, H3, H4.
  reflexivity.
Qed.

Lemma encoder_none_agree training (a b : list LukeLayer) w mask g :
  Forall2 layers_agree a b ->
  LukeEncoder_forward training a w None mask g
  = LukeEncoder_forward training b w None mask g.
Proof.
  intros H; revert w g. induction H as [|la lb a b Hl _ IH]; intros w g; simpl.
  - reflexivity.
  - unfold bind. rewrite (layer_none_agree training la lb w mask g Hl).
    destruct (LukeLayer_forward training lb w None mask g) as [lo g1]. apply IH.
Qed.

Lemma self_attention_none_entity training (self : LukeSelfAttention) w mask g :
  snd (fst (LukeSelfAttention_forward training self w None mask g)) = None.
Proof.
  unfold LukeSelfAttention_forward, bind.
  destruct (attention_weights training self w None mask g). reflexivity.
Qed.

Lemma layer_none_entity training (self : LukeLayer) w mask g :
  snd (fst (LukeLayer_forward training self w None mask g)) = None.
Proof.
  unfold LukeLayer_forward, bind.
  destruct (LukeAttention_forward training (layer_attention self) w None mask g).
  destruct (feed_forward_chunk training self _ _). reflexivity.
Qed.

Lemma encoder_none_entity training (layers : list LukeLayer) w mask g :
  snd (fst (LukeEncoder_forward training layers w None mask g)) = None.
Proof.
  revert w g; induction layers as [|l layers IH]; intros w g; simpl; [reflexivity|].
  unfold bind. destruct (LukeLayer_forward training l w None mask g). apply IH.
Qed.
End NoEntities.

(** ** Purity of the forward passes (C7) *)

Section Purity.
Local Open Scope R_scope.

Lemma generator_free_ret {X} (x : X) : generator_free (ret x).
Proof. exists x. reflexivity. Qed.

Lemma generator_free_bind {X Y} (c : Rand X) (k : X -> Rand Y) :
  generator_free c -> (forall x, generator_free (k x)) -> generator_free (bind c k).
Proof.
  intros [x Hc] Hk. destruct (Hk x) as [y Hy]. exists y. intros g.
  unfold bind. rewrite Hc. apply Hy.
Qed.

Lemma dropout3_eval p x : generator_free (dropout3 false p x).
Proof. apply generator_free_ret. Qed.

Lemma dropout4_eval p x : generator_free (dropout4 false p x).
Proof. apply generator_free_ret. Qed.

Lemma dropout_mat_eval p x : generator_free (dropout_mat false p x).
Proof. apply generator_free_ret. Qed.

Lemma self_output_eval self h x : generator_free (LukeSelfOutput_forward false self h x).
Proof.
  unfold LukeSelfOutput_forward.
  apply generator_free_bind; [apply dropout3_eval | intros; apply generator_free_ret].
Qed.

Lemma output_eval self h x : generator_free (LukeOutput_forward false self h x).
Proof.
  unfold LukeOutput_forward.
  apply generator_free_bind; [apply dropout3_eval | intros; apply generator_free_ret].
Qed.

Lemma self_attention_eval self w e mask :
  generator_free (LukeSelfAttention_forward false self w e mask).
Proof.
  unfold LukeSelfAttention_forward, attention_weights.
  apply generator_free_bind; [apply dropout4_eval | intros; apply generator_free_ret].
Qed.

Lemma attention_eval self w e mask :
  generator_free (LukeAttention_forward false self w e mask).
Proof.
  unfold LukeAttention_forward.
  apply generator_free_bind; [apply self_attention_eval | intros so].
  apply generator_free_bind; [apply self_output_eval | intros; apply generator_free_ret].
Qed.

Lemma layer_eval self w e mask : generator_free (LukeLayer_forward false self w e mask).
Proof.
  unfold LukeLayer_forward, feed_forward_chunk.
  apply generator_free_bind; [apply attention_eval | intros sa].
  apply generator_free_bind; [apply output_eval | intros; apply generator_free_ret].
Qed.




End Purity.




(** ** Word states depend on the entities (C5) *)

Section JointContext.
Local Open Scope R_scope.

Lemma layer_norm_eps_pos : 0 < layer_norm_eps.
Proof. unfold layer_norm_eps. apply Rdiv_lt_0_compat; [lra|]. apply pow_lt. lra. Qed.

Lemma nrm_denominator d : 0 < sqrt (d * d + layer_norm_eps).
Proof.
  apply sqrt_lt_R0. pose proof layer_norm_eps_pos.
  pose proof (Rle_0_sqr d) as Hsq. unfold Rsqr in Hsq. lra.
Qed.

Lemma nrm_0 : nrm 0 = 0.
Proof. unfold nrm, Rdiv. ring. Qed.

Lemma nrm_pos d : 0 < d -> 0 < nrm d.
Proof.
  intros H. unfold nrm. apply Rdiv_lt_0_compat; [exact H | apply nrm_denominator].
Qed.

Lemma nrm_neg d : d < 0 -> nrm d < 0.
Proof.
  intros H. unfold nrm, Rdiv.
  pose proof (Rinv_0_lt_compat _ (nrm_denominator d)). nra.
Qed.

Lemma ln_pair x y :
  layer_norm_vec unit_layer_norm [x; y] = [nrm ((x - y) / 2); nrm ((y - x) / 2)].
Proof.
  assert (Hm : mean [x; y] = (x + y) / 2) by (unfold mean; simpl; field).
  unfold layer_norm_vec, nrm, variance.
  cbn -[sqrt Rplus Rmult Rdiv Rminus INR mean].
  rewrite Hm. replace (INR 2) with 2 by (simpl; lra).
  f_equal; [|f_equal].
  - match goal with |- _ / sqrt ?a * 1 + 0 = _ / sqrt ?b =>
      replace a with b by field end.
    field. apply Rgt_not_eq, nrm_denominator.
  - match goal with |- _ / sqrt ?a * 1 + 0 = _ / sqrt ?b =>
      replace a with b by field end.
    field. apply Rgt_not_eq, nrm_denominator.
Qed.

Lemma softmax_zero_pair : softmax_vec [0; 0] = [1 / 2; 1 / 2].
Proof. unfold softmax_vec. simpl. rewrite exp_0. repeat f_equal; field. Qed.

(** The word row after two layer norms, first coordinate. *)
Lemma double_ln_first c c' :
  nth 0 (layer_norm_vec unit_layer_norm (layer_norm_vec unit_layer_norm [- c; - c'])) 0
  = nrm ((nrm ((c' - c) / 2) - nrm ((c - c') / 2)) / 2).
Proof.
  rewrite !ln_pair. simpl.
  replace ((- c - - c') / 2) with ((c' - c) / 2) by field.
  replace ((- c' - - c) / 2) with ((c - c') / 2) by field.
  reflexivity.
Qed.

Lemma double_ln_first_equal c : 
  nth 0 (layer_norm_vec unit_layer_norm (layer_norm_vec unit_layer_norm [- c; - c])) 0 = 0.
Proof.
  rewrite double_ln_first.
  replace ((nrm ((c - c) / 2) - nrm ((c - c) / 2)) / 2) with 0 by field.
  apply nrm_0.
Qed.

Lemma double_ln_first_neg c c' :
  c' < c ->
  nth 0 (layer_norm_vec unit_layer_norm (layer_norm_vec unit_layer_norm [- c; - c'])) 0 < 0.
Proof.
  intros H. rewrite double_ln_first. apply nrm_neg.
  pose proof (nrm_neg ((c' - c) / 2) ltac:(lra)).
  pose proof (nrm_pos ((c - c') / 2) ltac:(lra)). lra.
Qed.
End JointContext.

Ltac zero_scores :=
  repeat match goal with
         | |- context [softmax_vec [?a; ?b]] =>
             first [ progress (replace a with 0%R by (unfold Rdiv; ring))
                   | progress (replace b with 0%R by (unfold Rdiv; ring)) ]
         end.

Section TinyModel.
Local Open Scope R_scope.
Variable act : R -> R.

(** The attention of the small model: the word row attends the entity
    row with weight 1/2, the value projection turns the word's own
    contribution into the opposite of the residual, and what is left is
    the opposite of the entity row. *)
Lemma tiny_attention (c c' : R) (g : Generator) :
  LukeAttention_forward false (layer_attention (tiny_layer act 0)) [[[0; 0]]]
    (Some [[[c; c']]]) (Some [[[[0 * - (10000); 0 * - (10000)]]]]) g
  = (([[layer_norm_vec unit_layer_norm [- c; - c']]],
      Some [[layer_norm_vec unit_layer_norm [0; 0]]]), g).
Proof.
  unfold LukeAttention_forward, LukeSelfAttention_forward, LukeSelfOutput_forward,
    attention_weights, attention_probs.
  cbn -[exp sqrt Rplus Rmult Rdiv Rminus INR Rlt_dec Rmax tanh pow layer_norm_vec
        softmax_vec Ropp].
  zero_scores. rewrite softmax_zero_pair.
  cbn -[exp sqrt Rplus Rmult Rdiv Rminus INR Rlt_dec Rmax tanh pow layer_norm_vec
        softmax_vec Ropp].
  unfold ret. repeat f_equal; field.
Qed.

Lemma tiny_layer_forward (c c' : R) (g : Generator) :
  exists oe,
    LukeLayer_forward false (tiny_layer act 0) [[[0; 0]]]
      (Some [[[c; c']]]) (Some [[[[0 * - (10000); 0 * - (10000)]]]]) g
    = (([[layer_norm_vec unit_layer_norm
            (layer_norm_vec unit_layer_norm [- c; - c'])]],
        Some oe), g).
Proof.
  unfold LukeLayer_forward, bind.
  rewrite tiny_attention. rewrite !ln_pair.
  unfold feed_forward_chunk, LukeOutput_forward, LukeIntermediate_forward.
  cbn -[exp sqrt Rplus Rmult Rdiv Rminus INR Rlt_dec Rmax tanh pow layer_norm_vec
        softmax_vec Ropp nrm].
  eexists. unfold ret. f_equal. f_equal.
  match goal with
  | |- [[layer_norm_vec _ [?a; ?b]]] = _ =>
      replace a with (nrm ((- c - - c') / 2)) by ring;
      replace b with (nrm ((- c' - - c) / 2)) by ring
  end.
  rewrite ln_pair. reflexivity.
Qed.

(** The model on one token and one entity: the entity with table row
    [x 0] goes in as [c; c'] = layer norm of [x; 0]. *)
Lemma tiny_luke_forward (k : Z) (x : R) (g : Generator) :
  (k = 1%Z /\ x = 0) \/ (k = 2%Z /\ x = 1) ->
  exists e p,
    call_luke false (tiny_luke act 0) (tiny_inputs k) g
    = (Some ([[layer_norm_vec unit_layer_norm
                 (layer_norm_vec unit_layer_norm
                    [- nrm ((x - 0) / 2); - nrm ((0 - x) / 2)])]], e, p), g).
Proof.
  intros Hk.
  unfold call_luke, LukeModel_forward, LukeEmbeddings_forward, EntityEmbeddings_forward,
    entity_position_embeddings.
  destruct Hk as [[-> ->] | [-> ->]].
  - cbn -[exp sqrt Rplus Rmult Rdiv Rminus INR Rlt_dec Rmax tanh pow layer_norm_vec
          softmax_vec Ropp LukeLayer_forward tiny_layer].
    change (PosDef.Pos.to_nat 1) with 1%nat. cbn [Nat.eqb andb].
    match goal with
    | |- context [Some [[layer_norm_vec unit_layer_norm [?a; ?b]]]] =>
        replace a with 0 by (unfold Rdiv; ring);
        replace b with 0 by (unfold Rdiv; ring)
    end.
    rewrite ln_pair. unfold bind.
    destruct (tiny_layer_forward (nrm ((0 - 0) / 2)) (nrm ((0 - 0) / 2)) g) as [oe Hoe].
    match goal with
    | |- context [LukeLayer_forward ?a ?b ?c ?d ?e ?f] =>
        rewrite (Hoe : LukeLayer_forward a b c d e f = _)
    end.
    do 2 eexists. reflexivity.
  - cbn -[exp sqrt Rplus Rmult Rdiv Rminus INR Rlt_dec Rmax tanh pow layer_norm_vec
          softmax_vec Ropp LukeLayer_forward tiny_layer].
    change (PosDef.Pos.to_nat 2) with 2%nat. cbn [Nat.eqb andb].
    match goal with
    | |- context [Some [[layer_norm_vec unit_layer_norm [?a; ?b]]]] =>
        replace a with 1 by (unfold Rdiv; ring);
        replace b with 0 by (unfold Rdiv; ring)
    end.
    rewrite ln_pair. unfold bind.
    destruct (tiny_layer_forward (nrm ((1 - 0) / 2)) (nrm ((0 - 1) / 2)) g) as [oe Hoe].
    match goal with
    | |- context [LukeLayer_forward ?a ?b ?c ?d ?e ?f] =>
        rewrite (Hoe : LukeLayer_forward a b c d e f = _)
    end.
    do 2 eexists. reflexivity.
Qed.
End TinyModel.

(** C5.  Word tokens and entity mentions are contextualized jointly: there
    are parameter settings (whatever the activation function) and two
    inputs of [LukeModel.forward] with the same [input_ids],
    [token_type_ids], [position_ids] and [attention_mask], differing in
    their entity ids only, for which the returned word hidden states
    differ. *)
Theorem word_states_depend_on_entities (act : R -> R) :
  exists (self : LukeModel) (a1 a2 : LukeInputs) (g : Generator) (w1 w2 : Tensor3),
    input_ids a1 = input_ids a2 /\
    token_type_ids a1 = token_type_ids a2 /\
    position_ids a1 = position_ids a2 /\
    attention_mask a1 = attention_mask a2 /\
    (exists e p g', call_luke false self a1 g = (Some (w1, e, p), g')) /\
    (exists e p g', call_luke false self a2 g = (Some (w2, e, p), g')) /\
    w1 <> w2.
Proof.
  set (g := fun _ : nat => 0%R).
  destruct (tiny_luke_forward act 1 0 g) as (e1 & p1 & H1); [left; split; reflexivity|].
  destruct (tiny_luke_forward act 2 1 g) as (e2 & p2 & H2); [right; split; reflexivity|].
  exists (tiny_luke act 0), (tiny_inputs 1), (tiny_inputs 2), g.
  do 2 eexists. repeat split.
  - exists e1, p1, g. exact H1.
  - exists e2, p2, g. exact H2.
  - intros Heq.
    apply (f_equal (fun w : Tensor3 => nth 0 (nth 0 (nth 0 w []) []) 0%R)) in Heq.
    cbn [nth] in Heq.
    replace ((0 - 0) / 2)%R with 0%R in Heq by field.
    rewrite double_ln_first_equal in Heq.
    pose proof (double_ln_first_neg (nrm ((1 - 0) / 2)) (nrm ((0 - 1) / 2))) as Hneg.
    pose proof (nrm_pos ((1 - 0) / 2) ltac:(lra)).
    pose proof (nrm_neg ((0 - 1) / 2) ltac:(lra)).
    lra.
Qed.

(** ** The span classification head (C4) *)

Section SpanHead.
Local Open Scope R_scope.

Lemma nested_rows {X} (d : list X) B S (x : list (list X)) :
  dims2 B S x ->
  x = map (fun b => nth b x d) (seq 0 B).
Proof.
  intros [Hl _]. subst B. rewrite (map_seq_nth (fun r => r) x d), map_id. reflexivity.
Qed.

Lemma row_entries {X} (d : X) (r : list X) n :
  length r = n -> map (fun k => nth k r d) (seq 0 n) = r.
Proof.
  intros <-. rewrite (map_seq_nth (fun v => v) r d), map_id. reflexivity.
Qed.

Lemma dims2_nth {X} B S (x : list (list X)) b d :
  dims2 B S x -> (b < B)%nat -> length (nth b x d) = S.
Proof.
  intros [Hl Hall] Hb. rewrite Forall_forall in Hall. apply Hall, nth_In. lia.
Qed.

Lemma bcast_in_bounds xsh ish idx :
  Forall2 (fun xd n => xd = n \/ xd = 1%nat) xsh ish ->
  in_bounds ish idx -> in_bounds xsh (bcast_index xsh idx).
Proof.
  intros Hc; revert idx. induction Hc as [|xd n xsh ish Hx _ IH]; intros idx Hb.
  - inversion Hb; subst. constructor.
  - inversion Hb as [|i ? idx' ? Hi Hrest]; subst. simpl. constructor.
    + destruct (Nat.eqb_spec xd 1); [lia|]. destruct Hx; [lia | contradiction].
    + apply IH. exact Hrest.
Qed.

(** Reading the flat view of a nested tensor. *)
Lemma tget_to_tensor3 B S H (x : Tensor3) b s k :
  (0 < B)%nat -> (0 < S)%nat -> rect3 B S H x ->
  (b < B)%nat -> (s < S)%nat -> (k < H)%nat ->
  tget 0 (to_tensor3 x) [b; s; k] = nth k (nth s (nth b x []) []) 0.
Proof.
  intros HB HS [Hd Hr] Hb Hs Hk.
  assert (Hrows : forall b', (b' < B)%nat ->
            Forall (fun r => length r = H) (nth b' x [])).
  { intros b' Hb'. rewrite Forall_forall in Hr. apply Hr, nth_In.
    destruct Hd as [Hl' _]. tlia. }
  assert (Hsh2 : shape2 x = H).
  { unfold shape2, shape1. destruct Hd as [Hl Hall].
    destruct x as [|x0 x]; simpl in *; [lia|].
    inversion Hall as [|? ? Hx0 _]; subst.
    destruct x0 as [|r x0]; simpl in *; [lia|].
    specialize (Hrows 0%nat HB). simpl in Hrows. inversion Hrows; subst. reflexivity. }
  unfold tget, to_tensor3. cbn [shape data ravel numel fold_right].
  rewrite (dims2_shape1 B S x Hd HB), Hsh2. destruct Hd as [Hl Hall].
  replace (b * (S * (H * 1)) + (s * (H * 1) + (k * 1 + 0)))%nat
    with (b * (S * H) + (s * H + k))%nat by lia.
  rewrite (nth_concat_uniform (map (@concat R) x) (S * H) b (s * H + k) 0).
  - rewrite (nth_indep _ [] (concat [])) by (rewrite length_map; tlia).
    rewrite (map_nth (@concat R) x [] b).
    apply nth_concat_uniform.
    + apply Hrows. exact Hb.
    + pose proof (dims2_nth B S x b [] (conj Hl Hall) Hb). tlia.
    + exact Hk.
  - apply Forall_map, Forall_forall. intros xb Hxb.
    rewrite Forall_forall in Hall, Hr.
    rewrite (length_concat_uniform xb H), (Hall xb Hxb); [reflexivity|].
    apply Hr. exact Hxb.
  - rewrite length_map. tlia.
  - nia.
Qed.

Lemma rect3_shape2 {X} B S H (x : list (list (list X))) :
  (0 < B)%nat -> (0 < S)%nat -> rect3 B S H x -> shape2 x = H.
Proof.
  intros HB HS [[Hl Hall] Hr]. unfold shape2, shape1.
  destruct x as [|x0 x]; simpl in *; [lia|].
  inversion Hall as [|? ? Hx0 _]; subst.
  destruct x0 as [|r x0]; simpl in *; [lia|].
  inversion Hr as [|? ? Hr0 _]; subst. inversion Hr0; subst. reflexivity.
Qed.

Lemma expand_axis_one n : expand_axis 1 (Z.of_nat n) = Some n.
Proof.
  unfold expand_axis.
  replace (Z.of_nat n =? -1)%Z with false by (symmetry; apply Z.eqb_neq; lia).
  replace (Z.of_nat n <? 0)%Z with false by (symmetry; apply Z.ltb_ge; lia).
  rewrite orb_true_r, Nat2Z.id. reflexivity.
Qed.

Lemma expand_positions B E H (positions : IdMat) :
  (0 < B)%nat -> dims2 B E positions ->
  expand 0%Z (unsqueeze_last (to_tensor2 positions)) [(-1)%Z; (-1)%Z; Z.of_nat H]
  = Some (expanded_positions B E H positions).
Proof.
  intros HB Hd. unfold expand, unsqueeze_last, to_tensor2, rank.
  cbn [shape data length app Nat.ltb Nat.leb Nat.sub repeat zip_with].
  rewrite (dims2_shape1 B E positions Hd HB). destruct Hd as [Hl _]. rewrite Hl.
  rewrite expand_axis_one. reflexivity.
Qed.

Lemma expanded_positions_entry B E H (positions : IdMat) b i k :
  dims2 B E positions -> (b < B)%nat -> (i < E)%nat -> (k < H)%nat ->
  tget 0%Z (expanded_positions B E H positions) [b; i; k]
  = nth i (nth b positions []) 0%Z.
Proof.
  intros [Hl Hall] Hb Hi Hk. unfold expanded_positions.
  rewrite tget_tabulate by (repeat constructor; assumption).
  assert (Hr : ravel [B; E; 1%nat] (bcast_index [B; E; 1%nat] [b; i; k])
               = (b * E + i)%nat).
  { simpl. destruct (Nat.eqb_spec B 1), (Nat.eqb_spec E 1); nia. }
  rewrite Hr. apply nth_concat_uniform; [exact Hall | lia | exact Hi].
Qed.

Lemma expanded_positions_valid B E H S (positions : IdMat) :
  dims2 B E positions -> positions_ok S positions ->
  Forall (fun e => (0 <= e < Z.of_nat S)%Z) (data (expanded_positions B E H positions)).
Proof.
  intros [Hl Hall] Hok. unfold expanded_positions, tabulate. cbn [data].
  apply Forall_map, Forall_forall. intros j Hj. apply in_seq in Hj.
  assert (Hin : Forall (fun e => (0 <= e < Z.of_nat S)%Z) (concat positions)).
  { apply Forall_concat. exact Hok. }
  rewrite Forall_forall in Hin. apply Hin, nth_In.
  rewrite (length_concat_uniform positions E Hall), Hl.
  assert (Hb : in_bounds [B; E; 1%nat]
                 (bcast_index [B; E; 1%nat] (unravel [B; E; H] j))).
  { apply bcast_in_bounds with (ish := [B; E; H]).
    - constructor; [left; reflexivity|]. constructor; [left; reflexivity|].
      constructor; [right; reflexivity | constructor].
    - apply unravel_in_bounds. lia. }
  apply ravel_lt in Hb.
  change (numel [B; E; 1%nat]) with (B * (E * (1 * 1)))%nat in Hb. lia.
Qed.

(** Lines 1030-1033: gathering the word states at given positions. *)
Lemma gather_positions_rows B S H E (word : Tensor3) (positions : IdMat) :
  (0 < B)%nat -> (0 < S)%nat -> (0 < H)%nat -> (0 < E)%nat ->
  rect3 B S H word -> dims2 B E positions -> positions_ok S positions ->
  gather_positions word positions
  = Some (map (fun b =>
                 map (fun i =>
                        nth (Z.to_nat (nth i (nth b positions []) 0%Z)) (nth b word []) [])
                     (seq 0 E))
              (seq 0 B)).
Proof.
  intros HB HS HH HE Hw Hp Hok. unfold gather_positions.
  rewrite (rect3_shape2 B S H word HB HS Hw), (expand_positions B E H positions HB Hp).
  assert (Hshx : shape (to_tensor3 word) = [B; S; H]).
  { unfold to_tensor3. cbn [shape].
    rewrite (rect3_shape2 B S H word HB HS Hw), (dims2_shape1 B S word (proj1 Hw) HB).
    destruct Hw as [[Hl _] _]. f_equal. exact Hl. }
  destruct (paddle_gather_correct 0 (to_tensor3 word)
              (expanded_positions B E H positions) 1%nat) with (dim := (-2)%Z)
    as (out & Hrun & Hsh & _ & _ & Hexact).
  - apply wf_tabulate.
  - unfold rank. rewrite Hshx. reflexivity.
  - unfold rank. rewrite Hshx. simpl. lia.
  - repeat constructor; assumption.
  - unfold rank. rewrite Hshx. intros [|[|[|k]]] Hk Hne; simpl in *; try lia; left; reflexivity.
  - rewrite Hshx. apply expanded_positions_valid; assumption.
  - unfold rank. rewrite Hshx. reflexivity.
  - rewrite Hrun. f_equal. unfold of_tensor3. rewrite Hsh. cbn [expanded_positions tabulate shape].
    apply map_ext_in. intros b Hb. apply in_seq in Hb.
    apply map_ext_in. intros i Hi. apply in_seq in Hi.
    assert (Hs : (0 <= nth i (nth b positions []) 0 < Z.of_nat S)%Z).
    { unfold positions_ok in Hok. rewrite Forall_forall in Hok.
      assert (Hinb : In (nth b positions []) positions)
        by (apply nth_In; destruct Hp as [Hl _]; tlia).
      specialize (Hok _ Hinb). rewrite Forall_forall in Hok. apply Hok, nth_In.
      pose proof (dims2_nth B E positions b [] Hp ltac:(lia)). tlia. }
    transitivity (map (fun k => nth k (nth (Z.to_nat (nth i (nth b positions []) 0%Z))
                                         (nth b word []) []) 0)
                      (seq 0 H)).
    + apply map_ext_in. intros k Hk. apply in_seq in Hk.
      rewrite Hexact.
      * rewrite expanded_positions_entry by (try exact Hp; lia).
        cbn [set_nth].
        apply (tget_to_tensor3 B S H); try assumption; lia.
      * unfold rank. rewrite Hshx. intros [|[|[|k']]] Hk' Hne; simpl in *; try lia; reflexivity.
      * repeat constructor; lia.
    + apply row_entries.
      destruct Hw as [Hd Hr]. rewrite Forall_forall in Hr.
      assert (Hinb : In (nth b word []) word)
        by (apply nth_In; destruct Hd as [Hl _]; tlia).
      specialize (Hr _ Hinb). rewrite Forall_forall in Hr. apply Hr, nth_In.
      pose proof (dims2_nth B S word b [] Hd ltac:(lia)). tlia.
Qed.

Lemma zip_with_maps {X Y U W} (f : Y -> U -> W) (g : X -> Y) (h : X -> U) l :
  zip_with f (map g l) (map h l) = map (fun x => f (g x) (h x)) l.
Proof. rewrite zip_with_map_l, zip_with_map_r, zip_with_diag. reflexivity. Qed.

(** Line 1034: the concatenation along the feature axis, entry by entry. *)
Lemma concat_span_states B E (start_states end_states : nat -> nat -> Vec)
    (entity : Tensor3) :
  dims2 B E entity ->
  concat_axis2
    (concat_axis2 (map (fun b => map (start_states b) (seq 0 E)) (seq 0 B))
                  (map (fun b => map (end_states b) (seq 0 E)) (seq 0 B)))
    entity
  = map (fun b =>
           map (fun i => start_states b i ++ end_states b i ++ nth i (nth b entity []) [])
               (seq 0 E))
        (seq 0 B).
Proof.
  intros Hd.
  rewrite (nested_rows [] B E entity Hd) at 1.
  unfold concat_axis2. rewrite zip_with_maps, zip_with_maps.
  apply map_ext_in. intros b Hb. apply in_seq in Hb.
  pose proof (dims2_nth B E entity b [] Hd ltac:(lia)) as Hrow.
  etransitivity;
    [apply (f_equal (concat_axis1 _)); symmetry; exact (row_entries [] _ E Hrow)|].
  unfold concat_axis1. rewrite zip_with_maps, zip_with_maps.
  apply map_ext. intros i. rewrite <- app_assoc. reflexivity.
Qed.

Lemma span_features_rect B S H E (word entity : Tensor3) (starts ends : IdMat) :
  (0 < B)%nat ->
  rect3 B S H word -> rect3 B E H entity ->
  dims2 B E starts -> dims2 B E ends ->
  positions_ok S starts -> positions_ok S ends ->
  rect3 B E (3 * H) (span_features word starts ends entity).
Proof.
  intros HB [Hdw Hrw] [Hde Hre] Hs He Hos Hoe. unfold span_features.
  rewrite (dims2_shape1 B E starts Hs HB). destruct Hdw as [Hlw Hallw].
  replace (length word) with B by tlia.
  assert (Hrow : forall (positions : IdMat) b i,
             dims2 B E positions -> positions_ok S positions ->
             (b < B)%nat -> (i < E)%nat ->
             length (nth (Z.to_nat (nth i (nth b positions []) 0%Z)) (nth b word []) []) = H).
  { intros positions b i Hp Hok Hb Hi.
    assert (Hinp : In (nth b positions []) positions)
      by (apply nth_In; destruct Hp as [Hl _]; tlia).
    unfold positions_ok in Hok. rewrite Forall_forall in Hok.
    specialize (Hok _ Hinp). rewrite Forall_forall in Hok.
    assert (Hpos : (0 <= nth i (nth b positions []) 0 < Z.of_nat S)%Z).
    { apply Hok, nth_In. pose proof (dims2_nth B E positions b [] Hp Hb). tlia. }
    assert (Hinw : In (nth b word []) word) by (apply nth_In; tlia).
    rewrite Forall_forall in Hrw. specialize (Hrw _ Hinw).
    rewrite Forall_forall in Hrw. apply Hrw, nth_In.
    pose proof (dims2_nth B S word b [] (conj Hlw Hallw) Hb). tlia. }
  assert (Hent : forall b i, (b < B)%nat -> (i < E)%nat ->
             length (nth i (nth b entity []) []) = H).
  { intros b i Hb Hi.
    assert (Hine : In (nth b entity []) entity)
      by (apply nth_In; destruct Hde as [Hl _]; tlia).
    rewrite Forall_forall in Hre. specialize (Hre _ Hine).
    rewrite Forall_forall in Hre. apply Hre, nth_In.
    pose proof (dims2_nth B E entity b [] Hde Hb). tlia. }
  split; [split|].
  - rewrite length_map, length_seq. reflexivity.
  - apply Forall_map, Forall_forall. intros b _. rewrite length_map, length_seq. reflexivity.
  - apply Forall_map, Forall_forall. intros b Hb. apply in_seq in Hb.
    apply Forall_map, Forall_forall. intros i Hi. apply in_seq in Hi.
    rewrite !length_app, (Hrow starts), (Hrow ends), Hent by (assumption || lia). lia.
Qed.
End SpanHead.

(** C4.  [LukeForEntitySpanClassification.forward]: when the base model
    returns word states of shape [B, S, H] and entity states of shape
    [B, E, H], and the start and end positions have shape [B, E] and index
    the sequence axis, the call returns logits, and these are the classifier
    applied to the dropout of the feature vectors: for batch element [b] and
    entity [i], the word state at the start position, the word state at the
    end position and the entity state, laid end to end.  The feature vectors
    have width three times the hidden size.  Dropout starts from the
    generator state the base model leaves; in evaluation mode it is the
    identity. *)
Theorem span_classification_logits (training : bool)
    (self : LukeForEntitySpanClassification)
    (entity_start_positions entity_end_positions : IdMat) (a : LukeInputs)
    (g g1 : Generator) (word entity : Tensor3) (pooled : Mat) (B S H E : nat) :
  (0 < B)%nat -> (0 < S)%nat -> (0 < H)%nat -> (0 < E)%nat ->
  call_luke training (sp_luke self) a g = (Some (word, Some entity, pooled), g1) ->
  rect3 B S H word -> rect3 B E H entity ->
  dims2 B E entity_start_positions -> dims2 B E entity_end_positions ->
  positions_ok S entity_start_positions -> positions_ok S entity_end_positions ->
  let feature_vector :=
    span_features word entity_start_positions entity_end_positions entity in
  LukeForEntitySpanClassification_forward training self
    entity_start_positions entity_end_positions a g
  = (let (dropped, g2) := dropout3 training (sp_dropout self) feature_vector g1 in
     (Some (linear3 (sp_classifier self) dropped), g2)) /\
  rect3 B E (3 * H) feature_vector /\
  (training = false ->
   LukeForEntitySpanClassification_forward training self
     entity_start_positions entity_end_positions a g
   = (Some (linear3 (sp_classifier self) feature_vector), g1)).
Proof.
  intros HB HS HH HE Hcall Hw He Hs0 He0 Hos Hoe feature_vector.
  assert (Hrun : LukeForEntitySpanClassification_forward training self
                   entity_start_positions entity_end_positions a g
                 = (let (dropped, g2) :=
                      dropout3 training (sp_dropout self) feature_vector g1 in
                    (Some (linear3 (sp_classifier self) dropped), g2))).
  { unfold LukeForEntitySpanClassification_forward, bind. rewrite Hcall.
    rewrite (gather_positions_rows B S H E word entity_start_positions) by assumption.
    rewrite (gather_positions_rows B S H E word entity_end_positions) by assumption.
    rewrite (concat_span_states B E
               (fun b i => nth (Z.to_nat (nth i (nth b entity_start_positions []) 0%Z))
                               (nth b word []) [])
               (fun b i => nth (Z.to_nat (nth i (nth b entity_end_positions []) 0%Z))
                               (nth b word []) [])
               entity (proj1 He)).
    assert (Hf : map (fun b =>
                   map (fun i =>
                     nth (Z.to_nat (nth i (nth b entity_start_positions []) 0%Z))
                         (nth b word []) []
                     ++ nth (Z.to_nat (nth i (nth b entity_end_positions []) 0%Z))
                            (nth b word []) []
                     ++ nth i (nth b entity []) [])
                     (seq 0 E)) (seq 0 B) = feature_vector).
    { unfold feature_vector, span_features.
      rewrite (dims2_shape1 B E entity_start_positions Hs0 HB).
      destruct Hw as [[Hl _] _]. replace (length word) with B by tlia. reflexivity. }
    rewrite Hf. destruct (dropout3 training (sp_dropout self) feature_vector g1).
    reflexivity. }
  split; [exact Hrun|]. split.
  - apply (span_features_rect B S H E); assumption.
  - intros ->. rewrite Hrun. reflexivity.
Qed.

Lemma span_classification_logits_witness :
  exists word entity pooled,
    call_luke false (sp_luke (tiny_span_head (fun x => x) 0)) (tiny_inputs 1) (fun _ => 0%R)
    = (Some (word, Some entity, pooled), fun _ => 0%R) /\
    rect3 1 1 2 word /\ rect3 1 1 2 entity /\
    LukeForEntitySpanClassification_forward false (tiny_span_head (fun x => x) 0)
      [[0%Z]] [[0%Z]] (tiny_inputs 1) (fun _ => 0%R)
    = (Some (linear3 (sp_classifier (tiny_span_head (fun x => x) 0))
               (span_features word [[0%Z]] [[0%Z]] entity)),
       fun _ => 0%R) /\
    rect3 1 1 6 (span_features word [[0%Z]] [[0%Z]] entity).
Proof.
  do 3 eexists. split; [reflexivity|].
  match goal with
  | |- rect3 1 1 2 ?w /\ rect3 1 1 2 ?e /\ _ =>
      assert (Hw : rect3 1 1 2 w) by (repeat constructor);
      assert (He : rect3 1 1 2 e) by (repeat constructor);
      destruct (span_classification_logits false (tiny_span_head (fun x => x) 0)
                  [[0%Z]] [[0%Z]] (tiny_inputs 1) (fun _ => 0%R) (fun _ => 0%R) w e _
                  1 1 2 1 ltac:(lia) ltac:(lia) ltac:(lia) ltac:(lia) eq_refl Hw He)
        as (_ & Hwidth & Heval)
  end.
  - repeat constructor.
  - repeat constructor.
  - repeat constructor; lia.
  - repeat constructor; lia.
  - split; [exact Hw|]. split; [exact He|].
    split; [exact (Heval eq_refl) | exact Hwidth].
Defined.

(** ** Self-attention, row by row (C6, C8) *)

Lemma nth_map_lt {X Y} (f : X -> Y) (l : list X) i dx dy :
  (i < length l)%nat -> nth i (map f l) dy = f (nth i l dx).
Proof.
  intros H. rewrite (nth_indep _ dy (f dx)) by (rewrite length_map; exact H).
  apply map_nth.
Qed.

Lemma nth_zip_with {X Y W} (f : X -> Y -> W) a c i dx dy dw :
  (i < length a)%nat -> (i < length c)%nat ->
  nth i (zip_with f a c) dw = f (nth i a dx) (nth i c dy).
Proof.
  revert c i; induction a as [|x a IH]; intros [|y c] [|i]; simpl; try lia; auto.
  intros; apply IH; lia.
Qed.

Lemma zip_with_seq {X Y W} (f : X -> Y -> W) a c n dx dy :
  length a = n -> length c = n ->
  zip_with f a c = map (fun i => f (nth i a dx) (nth i c dy)) (seq 0 n).
Proof.
  intros Ha Hc.
  transitivity (zip_with f (map (fun k => nth k a dx) (seq 0 n))
                           (map (fun k => nth k c dy) (seq 0 n))).
  - rewrite !row_entries by assumption. reflexivity.
  - apply zip_with_maps.
Qed.

Lemma dims3_nth {X} B N S (x : list (list (list X))) b :
  dims3 B N S x -> (b < B)%nat -> dims2 N S (nth b x []).
Proof.
  intros [Hl Hall] Hb. rewrite Forall_forall in Hall. apply Hall, nth_In. lia.
Qed.

Lemma nth3_map {X Y} (F : list X -> list Y) (x : list (list (list (list X))))
    B N S b h s :
  dims3 B N S x -> (b < B)%nat -> (h < N)%nat -> (s < S)%nat ->
  nth s (nth h (nth b (map (map (map F)) x) []) []) []
  = F (nth s (nth h (nth b x []) []) []).
Proof.
  intros Hx Hb Hh Hs.
  pose proof (dims3_nth B N S x b Hx Hb) as Hxb.
  pose proof (dims2_nth N S (nth b x []) h [] Hxb Hh) as Hxh.
  destruct Hx as [Hl _]. destruct Hxb as [Hlb _].
  rewrite (nth_map_lt (map (map F)) x b [] []) by lia.
  rewrite (nth_map_lt (map F) (nth b x []) h [] []) by lia.
  apply nth_map_lt. lia.
Qed.

Lemma nth_matmul2 (A Bm : Mat) s :
  (s < length A)%nat ->
  nth s (matmul2 A Bm) [] = map (dot (nth s A [])) (transpose_mat (shape1 Bm) Bm).
Proof.
  intros Hs. unfold matmul2.
  apply (nth_map_lt (fun row => map (dot row) (transpose_mat (shape1 Bm) Bm)) A s [] []).
  exact Hs.
Qed.

(** Every row of the attention scores has one entry per key position. *)
Lemma attention_scores_rows (self : LukeSelfAttention) B ws es
    (w : Tensor3) (e : option Tensor3) :
  (0 < sa_attention_head_size self)%nat ->
  dims2 B ws w ->
  match e with Some e' => dims2 B es e' | None => es = 0%nat end ->
  Forall (Forall (Forall (fun row => length row = (ws + es)%nat)))
         (attention_scores self w e).
Proof.
  intros Hhs Hw He. destruct e as [e'|].
  - rewrite attention_scores_blocks by (try exact Hhs; apply (dims2_uniform B ws w Hw)).
    unfold block_attention_scores. destruct Hw as [Hlw Hw], He as [Hle He].
    apply Forall_zip_with
      with (PA := fun xb : Mat => length xb = ws) (PB := fun xb : Mat => length xb = es);
      [| exact Hw | exact He].
    intros wb eb Hwb Heb. apply Forall_map, Forall_forall. intros h _.
    unfold block_matrix. apply Forall_app. split.
    + eapply Forall_zip_with; [| apply mat_qkT_row_length | apply mat_qkT_row_length].
      cbv beta. intros r1 r2 H1 H2.
      rewrite length_app, H1, H2, !length_head_proj. tlia.
    + eapply Forall_zip_with; [| apply mat_qkT_row_length | apply mat_qkT_row_length].
      cbv beta. intros r1 r2 H1 H2.
      rewrite length_app, H1, H2, !length_head_proj. tlia.
  - subst es. rewrite attention_scores_none by exact Hhs.
    unfold standard_attention_scores. destruct Hw as [Hlw Hw].
    apply Forall_map. revert Hw. apply Forall_impl. intros wb Hwb.
    apply Forall_map, Forall_forall. intros h _.
    eapply Forall_impl; [| apply mat_qkT_row_length].
    cbv beta. intros r Hr. rewrite Hr, length_head_proj. tlia.
Qed.

Lemma Forall3_nth {X} (P : X -> Prop) (x : list (list (list X))) B N S b h s d :
  dims3 B N S x -> Forall (Forall (Forall P)) x ->
  (b < B)%nat -> (h < N)%nat -> (s < S)%nat ->
  P (nth s (nth h (nth b x []) []) d).
Proof.
  intros Hx HP Hb Hh Hs.
  pose proof (dims3_nth B N S x b Hx Hb) as Hxb.
  pose proof (dims2_nth N S (nth b x []) h [] Hxb Hh) as Hxh.
  destruct Hx as [Hl _]. destruct Hxb as [Hlb _].
  rewrite Forall_forall in HP.
  assert (H1 : Forall (Forall P) (nth b x [])) by (apply HP, nth_In; lia).
  rewrite Forall_forall in H1.
  assert (H2 : Forall P (nth h (nth b x []) [])) by (apply H1, nth_In; lia).
  rewrite Forall_forall in H2. apply H2, nth_In. lia.
Qed.

(** Three-level extensionality of nested tensors. *)
Lemma tensor_rows_ext {X} (x y : list (list (list (list X)))) B N S :
  dims3 B N S x -> dims3 B N S y ->
  (forall b h s, (b < B)%nat -> (h < N)%nat -> (s < S)%nat ->
     nth s (nth h (nth b x []) []) [] = nth s (nth h (nth b y []) []) []) ->
  x = y.
Proof.
  intros Hx Hy Heq.
  apply (nth_ext x y [] []).
  { destruct Hx as [-> _], Hy as [-> _]. reflexivity. }
  intros b Hb. assert (Hb' : (b < B)%nat) by (destruct Hx as [Hl _]; lia).
  pose proof (dims3_nth B N S x b Hx Hb') as Hxb.
  pose proof (dims3_nth B N S y b Hy Hb') as Hyb.
  apply (nth_ext _ _ [] []).
  { destruct Hxb as [-> _], Hyb as [-> _]. reflexivity. }
  intros h Hh. assert (Hh' : (h < N)%nat) by (destruct Hxb as [Hl _]; lia).
  pose proof (dims2_nth N S _ h [] Hxb Hh') as Hxh.
  pose proof (dims2_nth N S _ h [] Hyb Hh') as Hyh.
  apply (nth_ext _ _ [] []).
  { lia. }
  intros s Hs. apply Heq; lia.
Qed.

Lemma firstn_seq_le n start len :
  (n <= len)%nat -> firstn n (seq start len) = seq start n.
Proof.
  revert start len; induction n as [|n IH]; intros start [|len] H; simpl; try lia;
    try reflexivity.
  rewrite IH by lia. reflexivity.
Qed.

Section SelfAttentionRows.
Local Open Scope R_scope.

Lemma self_attention_eval_form (self : LukeSelfAttention) w e mask g :
  LukeSelfAttention_forward false self w e mask g
  = (let ctx := matmul4 (attention_probs self w e mask) (value_layer self w e) in
     let c := merge_heads (transpose_0213 (shape2 ctx) ctx) in
     (slice_to1 (shape1 w) c,
      match e with None => None | Some _ => Some (slice_from1 (shape1 w) c) end), g).
Proof. reflexivity. Qed.

Lemma probs_rows (self : LukeSelfAttention) B ws es (w : Tensor3) (e : option Tensor3)
    (mask : option Tensor4) b h s :
  (0 < (sa_attention_head_size self))%nat ->
  dims2 B ws w ->
  match e with Some e' => dims2 B es e' | None => es = 0%nat end ->
  match mask with Some m => dims3 B 1 1 m | None => True end ->
  (b < B)%nat -> (h < (sa_num_attention_heads self))%nat -> (s < ws + es)%nat ->
  nth s (nth h (nth b (attention_probs self w e mask) []) []) []
  = prob_row self w e mask b h s.
Proof.
  intros Hhs Hw He Hm Hb Hh Hs.
  pose proof (attention_scores_dims self B ws es w e Hhs Hw He) as Hsc.
  pose proof (dims3_map3 (map (fun v => v / sqrt (INR (sa_attention_head_size self))))
                _ _ _ _ Hsc) as Hscaled.
  unfold attention_probs, softmax4, prob_row, mask_row.
  unfold Tensor4, Tensor3, Mat, Vec, map4 in *.
  destruct mask as [m|].
  - rewrite (nth3_map softmax_vec _ B (sa_num_attention_heads self) (ws + es))
      by (try assumption; apply add4_bcast_dims; assumption).
    f_equal. unfold add4_bcast.
    destruct Hm as [Hlm Hallm]. pose proof Hscaled as [Hls _].
    rewrite bcast_zip_same_length by (unfold map4 in *; tlia).
    rewrite (nth_zip_with _ _ _ b [] [] []) by (unfold map4 in *; tlia).
    pose proof (dims3_nth B 1 1 m b (conj Hlm Hallm) Hb) as [Hl1 Hall1].
    destruct (nth b m []) as [|mh [|? ?]]; try discriminate Hl1.
    pose proof (Forall_inv Hall1) as Hmh. cbn beta in Hmh.
    destruct mh as [|mr [|? ?]]; try discriminate Hmh.
    rewrite bcast_zip_one_r.
    pose proof (dims3_nth B (sa_num_attention_heads self) (ws + es) _ b Hscaled Hb) as Hsb.
    rewrite (nth_map_lt _ _ h [] []) by (destruct Hsb as [Hlsb _]; lia).
    rewrite bcast_zip_one_r.
    rewrite (nth_map_lt _ _ s [] [])
      by (pose proof (dims2_nth (sa_num_attention_heads self) (ws + es) _ h [] Hsb Hh); lia).
    cbn [nth]. f_equal.
    apply (nth3_map _ _ B (sa_num_attention_heads self) (ws + es)); assumption.
  - rewrite (nth3_map softmax_vec _ B (sa_num_attention_heads self) (ws + es)) by assumption.
    f_equal. apply (nth3_map _ _ B (sa_num_attention_heads self) (ws + es)); assumption.
Qed.

Lemma context_rows (self : LukeSelfAttention) B T (P : Tensor4) (x : Tensor3) :
  (0 < (sa_num_attention_heads self))%nat ->
  dims3 B (sa_num_attention_heads self) T P -> length x = B ->
  let ctx := matmul4 P (transpose_for_scores self (linear3 (value self) x)) in
  merge_heads (transpose_0213 (shape2 ctx) ctx)
  = map (fun b =>
           map (fun s =>
                  concat (map (fun h =>
                                 map (dot (nth s (nth h (nth b P []) []) []))
                                     (transpose_mat
                                        (shape1 (head_proj self (value self) h (nth b x [])))
                                        (head_proj self (value self) h (nth b x []))))
                              (seq 0 (sa_num_attention_heads self))))
               (seq 0 T))
        (seq 0 B).
Proof.
  intros Hnh HP Hx ctx.
  assert (Hctx : dims3 B (sa_num_attention_heads self) T ctx).
  { apply matmul4_dims; [exact HP|]. apply value_layer_dims. exact Hx. }
  destruct B as [|B'].
  { destruct HP as [HlP _]. destruct P; [|discriminate HlP]. reflexivity. }
  set (B := Datatypes.S B') in *.
  rewrite (dims3_shape2 B (sa_num_attention_heads self) T ctx Hctx) by (unfold B; lia).
  unfold ctx, matmul4. rewrite transpose_for_scores_linear.
  destruct HP as [HlP HallP].
  rewrite (zip_with_seq _ _ _ B [] []) by (try rewrite length_map; assumption).
  unfold merge_heads, transpose_0213. rewrite !map_map.
  apply map_ext_in. intros b Hb. apply in_seq in Hb.
  rewrite (nth_map_lt _ x b [] []) by lia.
  pose proof (dims3_nth B (sa_num_attention_heads self) T P b (conj HlP HallP) ltac:(lia)) as HPb.
  rewrite (zip_with_seq matmul2 (nth b P []) _ (sa_num_attention_heads self) [] [])
    by (try (rewrite length_map, length_seq; reflexivity); destruct HPb as [HlPb _];
        exact HlPb).
  unfold swap_outer. rewrite !map_map.
  apply map_ext_in. intros s Hs. apply in_seq in Hs.
  rewrite map_map. f_equal.
  apply map_ext_in. intros h Hh. apply in_seq in Hh.
  rewrite (nth_map_seq _ (sa_num_attention_heads self) h) by lia.
  apply nth_matmul2.
  pose proof (dims2_nth (sa_num_attention_heads self) T _ h [] HPb ltac:(lia)). tlia.
Qed.

(** [LukeSelfAttention.forward] in evaluation mode, state by state. *)
Lemma self_attention_rows (self : LukeSelfAttention) B ws es (w : Tensor3) (e : option Tensor3)
    (mask : option Tensor4) (g : Generator) :
  (0 < (sa_num_attention_heads self))%nat -> (0 < (sa_attention_head_size self))%nat ->
  dims2 B ws w ->
  match e with Some e' => dims2 B es e' | None => es = 0%nat end ->
  match mask with Some m => dims3 B 1 1 m | None => True end ->
  LukeSelfAttention_forward false self w e mask g
  = ((map (fun b => map (context_row self w e mask b) (seq 0 ws)) (seq 0 B),
      match e with
      | None => None
      | Some _ => Some (map (fun b => map (context_row self w e mask b) (seq ws es)) (seq 0 B))
      end), g).
Proof.
  intros Hnh Hhs Hw He Hm.
  rewrite self_attention_eval_form. cbv zeta. unfold value_layer.
  pose proof (attention_probs_dims self B ws es w e mask Hhs Hw He Hm) as HP.
  pose proof (concat_hidden_states_dims B ws es w e Hw He) as [Hlx _].
  rewrite (context_rows self B (ws + es) _ _ Hnh HP Hlx).
  assert (Hrows : map (fun b =>
             map (fun s =>
                    concat (map (fun h =>
                       map (dot (nth s (nth h (nth b (attention_probs self w e mask) [])
                                           []) []))
                           (transpose_mat
                              (shape1 (head_proj self (value self) h
                                         (nth b (concat_hidden_states w e) [])))
                              (head_proj self (value self) h
                                 (nth b (concat_hidden_states w e) []))))
                      (seq 0 (sa_num_attention_heads self))))
                 (seq 0 (ws + es))) (seq 0 B)
           = map (fun b => map (context_row self w e mask b) (seq 0 (ws + es))) (seq 0 B)).
  { apply map_ext_in. intros b Hb. apply in_seq in Hb.
    apply map_ext_in. intros s Hs. apply in_seq in Hs.
    unfold context_row, value_head. f_equal.
    apply map_ext_in. intros h Hh. apply in_seq in Hh.
    rewrite (probs_rows self B ws es w e mask b h s) by (assumption || lia). reflexivity. }
  rewrite Hrows. clear Hrows.
  destruct B as [|B'].
  { simpl. destruct e; reflexivity. }
  rewrite (dims2_shape1 (Datatypes.S B') ws w Hw) by lia.
  unfold slice_to1, slice_from1. rewrite !map_map.
  f_equal. f_equal.
  - apply map_ext. intros b. rewrite firstn_map, firstn_seq_le by lia. reflexivity.
  - destruct e as [e'|]; [|reflexivity]. f_equal.
    apply map_ext. intros b. rewrite skipn_map, skipn_seq.
    replace (ws + es - ws)%nat with es by lia. reflexivity.
Qed.

(** *** The probabilities and the weighted values against their specification *)

Lemma probs_spec (self : LukeSelfAttention) B ws es (w : Tensor3) (e : option Tensor3)
    (mask : option Tensor4) :
  (0 < sa_attention_head_size self)%nat ->
  dims2 B ws w ->
  match e with Some e' => dims2 B es e' | None => es = 0%nat end ->
  match mask with Some m => dims3 B 1 1 m | None => True end ->
  attention_probs self w e mask
  = scaled_masked_softmax self mask (attention_scores self w e).
Proof.
  intros Hhs Hw He Hm.
  pose proof (attention_scores_dims self B ws es w e Hhs Hw He) as Hsc.
  apply (tensor_rows_ext _ _ B (sa_num_attention_heads self) (ws + es)).
  - apply attention_probs_dims; assumption.
  - unfold scaled_masked_softmax. destruct Hsc as [Hl Hall]. split.
    + rewrite length_map, length_seq. exact Hl.
    + apply Forall_map, Forall_forall. intros b Hb. apply in_seq in Hb.
      apply dims2_map_map.
      apply (dims3_nth B _ _ _ b (conj Hl Hall)). tlia.
  - intros b h s Hb Hh Hs.
    etransitivity; [apply (probs_rows self B ws es w e mask b h s); assumption|].
    unfold scaled_masked_softmax, prob_row.
    pose proof (dims3_nth B _ _ _ b Hsc Hb) as Hsb.
    pose proof (dims2_nth _ _ _ h [] Hsb Hh) as Hsh.
    destruct Hsc as [Hl _]. unfold Tensor4, Tensor3, Mat, Vec in *. rewrite Hl.
    rewrite (nth_map_seq _ B b) by exact Hb.
    rewrite (nth_map_lt _ _ h [] []) by (destruct Hsb as [Hlb _]; tlia).
    rewrite (nth_map_lt _ _ s [] []) by tlia.
    reflexivity.
Qed.

Lemma context_weighted_values (self : LukeSelfAttention) B T (P : Tensor4) (x : Tensor3) :
  (0 < sa_num_attention_heads self)%nat ->
  dims3 B (sa_num_attention_heads self) T P -> dims2 B T x ->
  let ctx := matmul4 P (transpose_for_scores self (linear3 (value self) x)) in
  merge_heads (transpose_0213 (shape2 ctx) ctx) = weighted_values self P x.
Proof.
  intros Hnh HP Hx ctx. unfold ctx.
  destruct Hx as [Hlx Hallx].
  rewrite (context_rows self B T P x Hnh HP Hlx).
  unfold weighted_values. unfold Tensor4, Tensor3, Mat, Vec in *. rewrite Hlx.
  apply map_ext_in. intros b Hb. apply in_seq in Hb.
  rewrite (dims2_nth B T x b [] (conj Hlx Hallx)) by lia.
  apply map_ext_in. intros s Hs. apply in_seq in Hs.
  f_equal. apply map_ext_in. intros h Hh. apply in_seq in Hh.
  symmetry. apply nth_matmul2.
  assert (Hb' : (b < B)%nat) by lia.
  assert (Hh' : (h < sa_num_attention_heads self)%nat) by lia.
  pose proof (dims3_nth B _ T P b HP Hb') as HPb.
  pose proof (dims2_nth _ T _ h [] HPb Hh'). tlia.
Qed.

Lemma self_attention_weighted (training : bool) (self : LukeSelfAttention) B ws es
    (w : Tensor3) (e : option Tensor3) (mask : option Tensor4) (g : Generator) :
  (0 < sa_num_attention_heads self)%nat -> (0 < sa_attention_head_size self)%nat ->
  dims2 B ws w ->
  match e with Some e' => dims2 B es e' | None => es = 0%nat end ->
  match mask with Some m => dims3 B 1 1 m | None => True end ->
  LukeSelfAttention_forward training self w e mask g
  = (let (weights, g') :=
       dropout4 training (sa_dropout self)
         (scaled_masked_softmax self mask (attention_scores self w e)) g in
     let context := weighted_values self weights (concat_hidden_states w e) in
     ((slice_to1 ws context,
       match e with None => None | Some _ => Some (slice_from1 ws context) end), g')).
Proof.
  intros Hnh Hhs Hw He Hm.
  pose proof (attention_probs_dims self B ws es w e mask Hhs Hw He Hm) as HP.
  rewrite <- (probs_spec self B ws es w e mask Hhs Hw He Hm).
  pose proof (dropout4_dims3 training (sa_dropout self) _ _ _ _ g HP) as HP'.
  pose proof (concat_hidden_states_dims B ws es w e Hw He) as Hx.
  unfold LukeSelfAttention_forward, attention_weights, bind, value_layer.
  destruct (dropout4 training (sa_dropout self) (attention_probs self w e mask) g)
    as [P g1]. cbn [fst] in HP'. unfold ret. cbv zeta.
  rewrite (context_weighted_values self B (ws + es) P _ Hnh HP' Hx).
  assert (Hl : length (weighted_values self P (concat_hidden_states w e)) = B).
  { unfold weighted_values. rewrite length_map, length_seq. apply Hx. }
  rewrite (slice_to1_shape1 B ws w _ Hw Hl).
  destruct e as [e'|]; [|reflexivity].
  rewrite (slice_from1_shape1 B ws w _ Hw Hl). reflexivity.
Qed.

(** *** Without entity states: standard attention, layer by layer *)

Lemma self_attention_none_standard (training : bool) (self : LukeSelfAttention) B S
    (w : Tensor3) (mask : option Tensor4) (g : Generator) :
  (0 < sa_num_attention_heads self)%nat -> (0 < sa_attention_head_size self)%nat ->
  dims2 B S w ->
  match mask with Some m => dims3 B 1 1 m | None => True end ->
  LukeSelfAttention_forward training self w None mask g
  = (let (o, g') := standard_self_attention training self w mask g in ((o, None), g')).
Proof.
  intros Hnh Hhs Hw Hm.
  rewrite (self_attention_weighted training self B S 0 w None mask g Hnh Hhs Hw eq_refl Hm).
  rewrite (attention_scores_none self w Hhs).
  unfold standard_self_attention, bind, concat_hidden_states.
  destruct (dropout4 training (sa_dropout self) _ g) as [P g1]. unfold ret.
  rewrite (slice_to1_all B S).
  - reflexivity.
  - unfold weighted_values. split.
    + rewrite length_map, length_seq. apply Hw.
    + apply Forall_map, Forall_forall. intros b Hb. apply in_seq in Hb.
      rewrite length_map, length_seq. apply (dims2_nth B S w b [] Hw). destruct Hw as [Hlw _]. tlia.
Qed.

Lemma standard_self_attention_dims (training : bool) (self : LukeSelfAttention) B S
    (w : Tensor3) (mask : option Tensor4) (g : Generator) :
  dims2 B S w ->
  dims2 B S (fst (standard_self_attention training self w mask g)).
Proof.
  intros Hw. unfold standard_self_attention, bind.
  destruct (dropout4 training (sa_dropout self) _ g) as [P g1]. cbn [ret fst].
  unfold weighted_values. split.
  - rewrite length_map, length_seq. apply Hw.
  - apply Forall_map, Forall_forall. intros b Hb. apply in_seq in Hb.
    rewrite length_map, length_seq. apply (dims2_nth B S w b [] Hw). destruct Hw as [Hlw _]. tlia.
Qed.

Lemma standard_layer_dims (training : bool) (self : LukeLayer) B S
    (w : Tensor3) (mask : option Tensor4) (g : Generator) :
  dims2 B S w ->
  dims2 B S (fst (standard_layer training self w mask g)).
Proof.
  intros Hw. unfold standard_layer, bind.
  pose proof (standard_self_attention_dims training (attn_self (layer_attention self))
                B S w mask g Hw) as Ha.
  destruct (standard_self_attention training _ w mask g) as [a g1]. cbn [fst] in Ha.
  pose proof (self_output_dims training (attn_output (layer_attention self)) B S a w g1
                Ha Hw) as Ho.
  destruct (LukeSelfOutput_forward training _ a w g1) as [o g2]. cbn [fst] in Ho.
  unfold feed_forward_chunk.
  apply output_dims; [apply intermediate_dims|]; exact Ho.
Qed.

Lemma layer_none_standard (training : bool) (self : LukeLayer) B S
    (w : Tensor3) (mask : option Tensor4) (g : Generator) :
  (0 < sa_num_attention_heads (attn_self (layer_attention self)))%nat ->
  (0 < sa_attention_head_size (attn_self (layer_attention self)))%nat ->
  dims2 B S w ->
  match mask with Some m => dims3 B 1 1 m | None => True end ->
  LukeLayer_forward training self w None mask g
  = (let (o, g') := standard_layer training self w mask g in ((o, None), g')).
Proof.
  intros Hnh Hhs Hw Hm.
  pose proof (standard_layer_dims training self B S w mask g Hw) as Hd.
  unfold standard_layer, bind in *.
  unfold LukeLayer_forward, LukeAttention_forward, bind.
  rewrite (self_attention_none_standard training _ B S w mask g Hnh Hhs Hw Hm).
  pose proof (standard_self_attention_dims training (attn_self (layer_attention self))
                B S w mask g Hw) as Ha.
  destruct (standard_self_attention training _ w mask g) as [a g1].
  cbn [fst snd concat_hidden_states] in *.
  pose proof (self_output_dims training (attn_output (layer_attention self)) B S a w g1
                Ha Hw) as Ho.
  destruct (LukeSelfOutput_forward training _ a w g1) as [o g2].
  cbn [fst snd ret] in *. unfold ret.
  assert (Hso : slice_to1 (shape1 w) o = o).
  { rewrite (slice_to1_shape1 B S w o Hw) by apply Ho. apply (slice_to1_all B S o Ho). }
  rewrite Hso.
  destruct (feed_forward_chunk training self o g2) as [f g3]. cbn [fst] in Hd.
  rewrite (slice_to1_shape1 B S w f Hw) by apply Hd.
  rewrite (slice_to1_all B S f Hd). reflexivity.
Qed.

Lemma encoder_none_standard (training : bool) (layers : list LukeLayer) B S
    (w : Tensor3) (mask : option Tensor4) (g : Generator) :
  heads_ok layers ->
  dims2 B S w ->
  match mask with Some m => dims3 B 1 1 m | None => True end ->
  LukeEncoder_forward training layers w None mask g
  = (let (o, g') := standard_encoder training layers w mask g in ((o, None), g')).
Proof.
  intros Hok. revert w g.
  induction Hok as [|l layers [Hnh Hhs] _ IH]; intros w g Hw Hm.
  - reflexivity.
  - cbn [LukeEncoder_forward standard_encoder]. unfold bind.
    rewrite (layer_none_standard training l B S w mask g Hnh Hhs Hw Hm).
    pose proof (standard_layer_dims training l B S w mask g Hw) as Hd.
    destruct (standard_layer training l w mask g) as [o g1]. cbn [fst snd] in *.
    apply (IH o g1 Hd Hm).
Qed.

Lemma luke_none_standard (training : bool) (self : LukeModel) (a : LukeInputs)
    (g : Generator) :
  entity_ids a = None ->
  heads_ok (encoder self) ->
  inputs_shape_ok a ->
  embeddings_shape_ok training (embeddings self) a ->
  call_luke training self a g
  = (let (out, g') := standard_luke training self a g in
     (Some (fst out, None, snd out), g')).
Proof.
  intros Hnone Hok Hin Hemb.
  unfold call_luke, LukeModel_forward, standard_luke, LukeEmbeddings_forward, bind.
  rewrite Hnone. specialize (Hemb g).
  destruct (embeddings self training (input_ids a) (token_type_ids a) (position_ids a) g)
    as [w0 g1]. cbn [fst] in Hemb. unfold ret at 1.
  destruct Hin as (Hids & Hmask & _).
  match goal with
  | |- context [LukeEncoder_forward training (encoder self) w0 None ?m g1] =>
      rewrite (encoder_none_standard training (encoder self) _ _ w0 m g1 Hok Hemb
                 (extended_mask_dims (pad_token_id self) (input_ids a) (attention_mask a)
                    _ _ Hids Hmask))
  end.
  destruct (standard_encoder training (encoder self) w0 _ g1) as [o g2].
  reflexivity.
Qed.

End SelfAttentionRows.

(** ** Scaling, mask, softmax and dropout (C6) *)




(** ** Without entities (C8) *)

(** C8.  For well-shaped inputs with [entity_ids = None] (layers with at
    least one head of positive size, a word-embedding layer that returns
    one row per input id), [LukeModel.forward] returns the word states and
    the pooled output of the word-only model, in which every layer runs
    standard single-stream attention over the word tokens with the [query],
    [key] and [value] projections alone, and [None] as its entity hidden
    state.  Layer by layer: without entity states
    [LukeSelfAttention.forward] returns what standard self-attention
    returns, and [None].  The [w2e_query], [e2w_query] and [e2e_query]
    projections are not used: two models that differ in them only return
    the same result. *)
Theorem luke_without_entities (training : bool) (self : LukeModel) (a : LukeInputs)
    (g : Generator) :
  entity_ids a = None ->
  heads_ok (encoder self) ->
  inputs_shape_ok a ->
  embeddings_shape_ok training (embeddings self) a ->
  (exists word pooled g',
     standard_luke training self a g = ((word, pooled), g') /\
     call_luke training self a g = (Some (word, None, pooled), g')) /\
  (forall (sa : LukeSelfAttention) (B S : nat) (w : Tensor3) (mask : option Tensor4)
          (g0 : Generator),
     (0 < sa_num_attention_heads sa)%nat ->
     (0 < sa_attention_head_size sa)%nat ->
     dims2 B S w ->
     match mask with Some m => dims3 B 1 1 m | None => True end ->
     LukeSelfAttention_forward training sa w None mask g0
     = (let (o, g') := standard_self_attention training sa w mask g0 in
        ((o, None), g'))) /\
  (forall self' : LukeModel,
     models_agree self self' ->
     call_luke training self' a g = call_luke training self a g).
Proof.
  intros Hnone Hok Hin Hemb. split; [|split].
  - rewrite (luke_none_standard training self a g Hnone Hok Hin Hemb).
    destruct (standard_luke training self a g) as [[word pooled] g'].
    exists word, pooled, g'. split; reflexivity.
  - intros sa B S w mask g0 Hnh Hhs Hw Hm.
    apply (self_attention_none_standard training sa B S); assumption.
  - intros self' (H1 & H2 & H3 & H4 & H5 & H6).
    unfold call_luke, LukeModel_forward, LukeEmbeddings_forward, bind. rewrite Hnone.
    rewrite <- H1, <- H4, <- H6.
    destruct (embeddings self training _ _ _ g) as [w0 g1]. unfold ret at 1 3.
    rewrite (encoder_none_agree training _ _ w0 _ g1 H3). reflexivity.
Qed.

Lemma luke_without_entities_witness :
  (exists word pooled g',
     standard_luke false (tiny_word_luke (fun x => x) 0) tiny_word_inputs (fun _ => 0%R)
     = ((word, pooled), g') /\
     call_luke false (tiny_word_luke (fun x => x) 0) tiny_word_inputs (fun _ => 0%R)
     = (Some (word, None, pooled), g')) /\
  LukeSelfAttention_forward false (tiny_self_attention 0) [[[1; 0]]]%R None None
    (fun _ => 0%R)
  = (let (o, g') :=
       standard_self_attention false (tiny_self_attention 0) [[[1; 0]]]%R None
         (fun _ => 0%R) in
     ((o, None), g')).
Proof.
  destruct (luke_without_entities false (tiny_word_luke (fun x => x) 0) tiny_word_inputs
              (fun _ => 0%R)) as [H [Hsa _]].
  - reflexivity.
  - repeat constructor.
  - unfold inputs_shape_ok; simpl. repeat split; repeat constructor.
  - intros g. simpl. repeat split; repeat constructor.
  - split; [exact H|].
    apply (Hsa (tiny_self_attention 0) 1%nat 1%nat [[[1; 0]]]%R None (fun _ => 0%R)).
    + simpl. lia.
    + simpl. lia.
    + repeat constructor.
    + exact I.
Defined.

(* ===================================================================== *)
(** * Part III.  Further properties of the layers                         *)
(* ===================================================================== *)

(** ** The encoder loop, missing arguments and defaults *)

(** X1.  [LukeEncoder.forward] runs its layers in order, each on the
    states (and with the generator state) the one before returns: the
    encoder of the layers [l1 ++ l2] is the encoder of [l1] followed by the
    encoder of [l2], with the same attention mask. *)
Theorem encoder_layers_compose (training : bool) (l1 l2 : list LukeLayer)
    (w : Tensor3) (e : option Tensor3) (mask : option Tensor4) (g : Generator) :
  LukeEncoder_forward training (l1 ++ l2) w e mask g
  = (let (o, g1) := LukeEncoder_forward training l1 w e mask g in
     LukeEncoder_forward training l2 (fst o) (snd o) mask g1).
Proof.
  revert w e g. induction l1 as [|l l1 IH]; intros w e g; simpl.
  - reflexivity.
  - unfold bind. destruct (LukeLayer_forward training l w e mask g) as [[w1 e1] g1].
    simpl. apply IH.
Qed.

(** Without entity ids the base model returns word states and a pooled
    output, and no entity states. *)
Lemma call_luke_no_entities (training : bool) (self : LukeModel) (a : LukeInputs)
    (g : Generator) :
  entity_ids a = None ->
  exists word pooled g',
    call_luke training self a g = (Some (word, None, pooled), g').
Proof.
  intros Hnone.
  unfold call_luke, LukeModel_forward, LukeEmbeddings_forward, bind. rewrite Hnone.
  destruct (embeddings self training _ _ _ g) as [w0 g1]. unfold ret at 1.
  pose proof (encoder_none_entity training (encoder self) w0
                (Some (extended_mask (pad_token_id self) (input_ids a) (attention_mask a)))
                g1) as He.
  destruct (LukeEncoder_forward training (encoder self) w0 None _ g1) as [[ow oe] g2].
  simpl in He. subst oe. do 3 eexists. reflexivity.
Qed.

(** X2.  With [entity_ids = None], [LukeModel.forward] never reads
    [entity_position_ids], [entity_token_type_ids] or
    [entity_attention_mask]: whatever they are, the call returns what it
    returns when they are [None] too. *)
Theorem luke_ignores_entity_arguments (training : bool) (self : LukeModel)
    (input_ids : IdMat) (token_type_ids position_ids : option IdMat)
    (attention_mask : option Mask) (entity_position_ids : option IdTensor3)
    (entity_token_type_ids : option IdMat) (entity_attention_mask : option Mask)
    (g : Generator) :
  LukeModel_forward training self input_ids token_type_ids position_ids attention_mask
    None entity_position_ids entity_token_type_ids entity_attention_mask g
  = LukeModel_forward training self input_ids token_type_ids position_ids attention_mask
      None None None None g.
Proof.
  unfold LukeModel_forward, bind.
  destruct (LukeEmbeddings_forward training (embeddings self) input_ids token_type_ids
              position_ids g) as [w0 g1].
  destruct entity_position_ids; reflexivity.
Qed.

(** X4.  The four heads that read the entity states fail when
    [entity_ids = None], since the base model then returns [None] in their
    place (lines 752, 840, 931, 1034). *)
Theorem heads_without_entities (training : bool) (a : LukeInputs) (g : Generator) :
  entity_ids a = None ->
  (forall self, fst (LukeForMaskedLM_forward training self a g) = None) /\
  (forall self, fst (LukeForEntityClassification_forward training self a g) = None) /\
  (forall self, fst (LukeForEntityPairClassification_forward training self a g) = None) /\
  (forall self starts ends,
     fst (LukeForEntitySpanClassification_forward training self starts ends a g) = None).
Proof.
  intros Hnone.
  split; [|split; [|split]].
  - intros self. unfold LukeForMaskedLM_forward, bind.
    destruct (call_luke_no_entities training (mlm_luke self) a g Hnone)
      as (w & p & g' & ->). reflexivity.
  - intros self. unfold LukeForEntityClassification_forward, bind.
    destruct (call_luke_no_entities training (ec_luke self) a g Hnone)
      as (w & p & g' & ->). reflexivity.
  - intros self. unfold LukeForEntityPairClassification_forward, bind.
    destruct (call_luke_no_entities training (ep_luke self) a g Hnone)
      as (w & p & g' & ->). reflexivity.
  - intros self starts ends. unfold LukeForEntitySpanClassification_forward, bind.
    destruct (call_luke_no_entities training (sp_luke self) a g Hnone)
      as (w & p & g' & ->).
    destruct (gather_positions w starts); [|reflexivity].
    destruct (gather_positions w ends); reflexivity.
Qed.

Lemma heads_without_entities_witness :
  fst (LukeForEntityClassification_forward false
         (mkLukeForEntityClassification (tiny_luke (fun x => x) 0) 0 (zero_linear 2 1))
         tiny_word_inputs (fun _ => 0%R))
  = None.
Proof.
  apply (heads_without_entities false tiny_word_inputs (fun _ => 0%R)). reflexivity.
Defined.

(** X5.  The defaults of [LukeModel.forward] (lines 553-575): leaving out
    [attention_mask] is passing the rank-2 mask that is 0 at the ids equal
    to [pad_token_id] and 1 elsewhere, leaving out [entity_attention_mask]
    is passing the like mask of the entity ids for [entity_pad_token_id],
    and leaving out [entity_token_type_ids] is passing zeros of shape
    [batch_size, entity_seq_length]. *)
Theorem luke_default_arguments (training : bool) (self : LukeModel)
    (input_ids : IdMat) (token_type_ids position_ids : option IdMat)
    (entity_ids : IdMat) (entity_position_ids : option IdTensor3) (g : Generator) :
  LukeModel_forward training self input_ids token_type_ids position_ids None
    (Some entity_ids) entity_position_ids None None g
  = LukeModel_forward training self input_ids token_type_ids position_ids
      (Some (Mask2 (non_padding_mask (pad_token_id self) input_ids)))
      (Some entity_ids) entity_position_ids
      (Some (repeat (repeat 0%Z (shape1 entity_ids)) (length input_ids)))
      (Some (Mask2 (non_padding_mask (entity_pad_token_id self) entity_ids))) g /\
  LukeModel_forward training self input_ids token_type_ids position_ids None
    None None None None g
  = LukeModel_forward training self input_ids token_type_ids position_ids
      (Some (Mask2 (non_padding_mask (pad_token_id self) input_ids)))
      None None None None g.
Proof.
  assert (Hmask : forall pad ids,
            extended_mask pad ids None
            = extended_mask pad ids (Some (Mask2 (non_padding_mask pad ids)))).
  { intros pad ids. unfold extended_mask, non_padding_mask, unsqueeze_12, map4.
    rewrite !map_map. apply map_ext. intros row. simpl. do 2 f_equal.
    rewrite map_map. apply map_ext. intros id.
    destruct (id =? pad)%Z; ring. }
  split.
  - unfold LukeModel_forward. rewrite <- !Hmask. reflexivity.
  - unfold LukeModel_forward. rewrite <- !Hmask. reflexivity.
Qed.

(** ** The pooler *)

Lemma tanh_bounds (x : R) : (-1 < tanh x < 1)%R.
Proof.
  unfold tanh, sinh, cosh.
  pose proof (exp_pos x) as Ha. pose proof (exp_pos (- x)) as Hb.
  set (a := exp x) in *. set (b := exp (- x)) in *.
  replace ((a - b) / 2 / ((a + b) / 2))%R with ((a - b) / (a + b))%R by (field; lra).
  split.
  - apply Rmult_lt_reg_r with (a + b)%R; [lra|].
    unfold Rdiv. rewrite Rmult_assoc, Rinv_l by lra. lra.
  - apply Rmult_lt_reg_r with (a + b)%R; [lra|].
    unfold Rdiv. rewrite Rmult_assoc, Rinv_l by lra. lra.
Qed.

(** X6.  The pooled output of [LukeModel.forward] is the pooler applied to
    the returned word states: the [tanh] of the dense projection of the
    state of the first token of every sequence (lines 162-168).  It has
    one row per sequence, of the width of the dense layer, and no entry
    is below -1 or above 1. *)
Theorem pooled_output_bounded (training : bool) (self : LukeModel) (a : LukeInputs)
    (g g' : Generator) (word : Tensor3) (entity : option Tensor3) (pooled : Mat) :
  call_luke training self a g = (Some (word, entity, pooled), g') ->
  pooled = map (fun b => map tanh (linear_vec (pooler_dense (pooler self)) (nth 0 b [])))
               word /\
  length pooled = length word /\
  Forall (fun row => length row = out_features (pooler_dense (pooler self))) pooled /\
  Forall (Forall (fun v => (-1 <= v <= 1)%R)) pooled.
Proof.
  intros Hcall.
  assert (Hp : pooled = LukePooler_forward (pooler self) word).
  { unfold call_luke, LukeModel_forward, LukeEmbeddings_forward, bind in Hcall.
    destruct (embeddings self training _ _ _ g) as [w0 g1].
    destruct (entity_ids a) as [ids|], (entity_position_ids a) as [pos|];
      try discriminate Hcall.
    - destruct (EntityEmbeddings_forward training _ _ _ _ g1) as [e0 g2].
      unfold ret at 1 in Hcall.
      destruct (LukeEncoder_forward training _ _ _ _ g2) as [[ow oe] g3].
      injection Hcall as <- _ <- _. reflexivity.
    - unfold ret at 1 in Hcall.
      destruct (LukeEncoder_forward training _ _ _ _ g1) as [[ow oe] g3].
      injection Hcall as <- _ <- _. reflexivity.
    - unfold ret at 1 in Hcall.
      destruct (LukeEncoder_forward training _ _ _ _ g1) as [[ow oe] g3].
      injection Hcall as <- _ <- _. reflexivity. }
  assert (Hform : pooled
            = map (fun b => map tanh (linear_vec (pooler_dense (pooler self)) (nth 0 b [])))
                  word).
  { rewrite Hp. unfold LukePooler_forward, linear_mat. rewrite !map_map. reflexivity. }
  split; [exact Hform|]. rewrite Hform. split; [|split].
  - apply length_map.
  - apply Forall_map, Forall_forall. intros b _.
    unfold linear_vec. rewrite !length_map, length_seq. reflexivity.
  - apply Forall_map, Forall_forall. intros b _.
    apply Forall_map, Forall_forall. intros v _.
    pose proof (tanh_bounds v). lra.
Qed.

Lemma pooled_output_bounded_witness :
  exists word entity pooled,
    call_luke false (tiny_luke (fun x => x) 0) (tiny_inputs 1) (fun _ => 0%R)
    = (Some (word, entity, pooled), fun _ => 0%R) /\
    Forall (Forall (fun v => (-1 <= v <= 1)%R)) pooled.
Proof.
  do 3 eexists. split; [reflexivity|].
  eapply (pooled_output_bounded false (tiny_luke (fun x => x) 0) (tiny_inputs 1)
            (fun _ => 0%R) (fun _ => 0%R)).
  reflexivity.
Defined.

(** ** Splitting into heads and merging them *)

Lemma concat_pieces (hs nh : nat) (row : Vec) :
  length row = (nh * hs)%nat ->
  concat (map (fun h => firstn hs (skipn (h * hs) row)) (seq 0 nh)) = row.
Proof.
  revert row. induction nh as [|n IH]; intros row Hlen.
  - simpl in *. destruct row; [reflexivity | discriminate Hlen].
  - rewrite <- cons_seq, <- seq_shift. cbn [map concat]. rewrite map_map.
    cbn [Nat.mul skipn].
    rewrite (map_ext (fun h => firstn hs (skipn (Datatypes.S h * hs) row))
                     (fun h => firstn hs (skipn (h * hs) (skipn hs row)))).
    + rewrite IH.
      * apply firstn_skipn.
      * rewrite length_skipn. simpl in Hlen. lia.
    + intros h. rewrite skipn_skipn. f_equal. f_equal. simpl. lia.
Qed.

(** X7.  Merging the heads undoes splitting into heads: for states [x] of
    shape [B, S, num_attention_heads * attention_head_size], the transpose
    and reshape of lines 290-294 applied to [transpose_for_scores x] (lines
    226-229) give [x] back. *)
Theorem merge_heads_transpose_for_scores (self : LukeSelfAttention) (x : Tensor3)
    (B S : nat) :
  (0 < sa_num_attention_heads self)%nat ->
  rect3 B S (sa_num_attention_heads self * sa_attention_head_size self) x ->
  merge_heads (transpose_0213 (shape2 (transpose_for_scores self x))
                              (transpose_for_scores self x))
  = x.
Proof.
  intros Hnh [[Hl Hall] Hrows].
  set (nh := sa_num_attention_heads self) in *.
  set (hs := sa_attention_head_size self) in *.
  assert (Ht : transpose_for_scores self x
               = map (fun xb =>
                        map (fun h => map (fun row => firstn hs (skipn (h * hs) row)) xb)
                            (seq 0 nh)) x).
  { unfold transpose_for_scores, transpose_0213, reshape_heads, swap_outer.
    fold nh. fold hs. rewrite map_map. apply map_ext. intros xb.
    apply map_ext_in. intros h Hh. apply in_seq in Hh.
    rewrite map_map. apply map_ext. intros row.
    rewrite nth_map_seq by lia. reflexivity. }
  rewrite Ht.
  destruct x as [|x0 xs]; [reflexivity|].
  unfold Tensor3, Mat, Vec in *.
  match goal with
  | |- context [@shape2 ?X ?t] =>
      assert (Hs2 : @shape2 X t = length x0)
        by (unfold shape2, shape1; cbn [map hd];
            destruct nh as [|n]; [lia|]; cbn [seq map hd]; apply length_map);
      rewrite Hs2
  end.
  inversion Hall as [|? ? Hx0 _]; subst.
  unfold merge_heads, transpose_0213, swap_outer. rewrite !map_map.
  rewrite <- (map_id (x0 :: xs)) at 2. apply map_ext_in. intros xb Hxb.
  rewrite Forall_forall in Hall, Hrows.
  pose proof (Hall xb Hxb) as Hlen. pose proof (Hrows xb Hxb) as Hr.
  rewrite map_map.
  transitivity (map (fun s => nth s xb []) (seq 0 (length x0))).
  - apply map_ext_in. intros s Hs. apply in_seq in Hs. rewrite map_map.
    rewrite (map_ext_in _ (fun h => firstn hs (skipn (h * hs) (nth s xb [])))).
    + apply concat_pieces. rewrite Forall_forall in Hr. apply Hr, nth_In.
      unfold Mat, Vec in *. lia.
    + intros h _.
      rewrite (nth_indep _ [] ((fun row => firstn hs (skipn (h * hs) row)) []))
        by (rewrite length_map; unfold Mat, Vec in *; lia).
      apply (map_nth (fun row => firstn hs (skipn (h * hs) row))).
  - rewrite <- Hlen. rewrite (map_seq_nth (fun r => r) xb []), map_id. reflexivity.
Qed.

Lemma merge_heads_transpose_for_scores_witness :
  merge_heads
    (transpose_0213 (shape2 (transpose_for_scores (tiny_self_attention 0) [[[1; 2]]]%R))
                    (transpose_for_scores (tiny_self_attention 0) [[[1; 2]]]%R))
  = [[[1; 2]]]%R.
Proof.
  apply (merge_heads_transpose_for_scores (tiny_self_attention 0) [[[1; 2]]]%R 1 1).
  - simpl. lia.
  - repeat constructor.
Defined.

(** ** The entity embeddings *)

(** X8.  The row of the entity table at [padding_idx] (0 at line 176) is
    never read: an entity with that id gets the zero vector from the table,
    and changing that row of the table changes nothing in what
    [EntityEmbeddings.forward] returns (for ids that are not negative). *)
Theorem entity_padding_row_unread (training : bool) (self : EntityEmbeddings)
    (table : Embedding) (p : Z) (entity_ids : IdMat) (position_ids : IdTensor3)
    (token_type_ids : option IdMat) (g : Generator) :
  (0 <= p)%Z ->
  padding_idx (ee_entity_embeddings self) = Some p ->
  padding_idx table = Some p ->
  embedding_dim table = embedding_dim (ee_entity_embeddings self) ->
  (forall i j, i <> Z.to_nat p ->
     emb_weight table i j = emb_weight (ee_entity_embeddings self) i j) ->
  Forall (Forall (fun id => (0 <= id)%Z)) entity_ids ->
  embedding_vec (ee_entity_embeddings self) p
  = repeat 0%R (embedding_dim (ee_entity_embeddings self)) /\
  EntityEmbeddings_forward training
    (mkEntityEmbeddings (ee_entity_emb_size self) (ee_hidden_size self) table
       (ee_entity_embedding_dense self) (ee_position_embeddings self)
       (ee_token_type_embeddings self) (ee_layer_norm self) (ee_dropout self))
    entity_ids position_ids token_type_ids g
  = EntityEmbeddings_forward training self entity_ids position_ids token_type_ids g.
Proof.
  intros Hp Hpad Hpad' Hdim Hw Hids. split.
  - unfold embedding_vec, is_padding. rewrite Hpad, Z.eqb_refl.
    rewrite repeat_map_seq. reflexivity.
  - assert (Hemb : embedding_mat table entity_ids
                   = embedding_mat (ee_entity_embeddings self) entity_ids).
    { unfold embedding_mat. apply map_ext_in. intros row Hrow.
      rewrite Forall_forall in Hids. specialize (Hids row Hrow).
      rewrite Forall_forall in Hids.
      apply map_ext_in. intros id Hid. specialize (Hids id Hid).
      unfold embedding_vec, is_padding. rewrite Hpad, Hpad', Hdim.
      apply map_ext. intros j.
      destruct (Z.eqb_spec id p) as [|Hne]; [reflexivity|].
      apply Hw. lia. }
    unfold EntityEmbeddings_forward, entity_position_embeddings.
    cbn [ee_entity_emb_size ee_hidden_size ee_entity_embeddings ee_entity_embedding_dense
         ee_position_embeddings ee_token_type_embeddings ee_layer_norm ee_dropout].
    rewrite Hemb. reflexivity.
Qed.

Lemma entity_padding_row_unread_witness :
  EntityEmbeddings_forward false
    (mkEntityEmbeddings 1 1
       (mkEmbedding 3 1 (fun i _ => if (i =? 0)%nat then 7%R else INR i) (Some 0%Z))
       unit_linear
       (mkEmbedding 4 1 (fun i _ => INR i) None)
       (mkEmbedding 1 1 (fun _ _ => 0%R) None)
       unit_layer_norm 0)
    [[0%Z; 2%Z]] [[[1%Z]; [2%Z]]] None (fun _ => 0%R)
  = EntityEmbeddings_forward false (unit_entity_embeddings 0)
      [[0%Z; 2%Z]] [[[1%Z]; [2%Z]]] None (fun _ => 0%R).
Proof.
  apply (entity_padding_row_unread false (unit_entity_embeddings 0)
           (mkEmbedding 3 1 (fun i _ => if (i =? 0)%nat then 7%R else INR i) (Some 0%Z))
           0%Z [[0%Z; 2%Z]] [[[1%Z]; [2%Z]]] None (fun _ => 0%R)).
  - lia.
  - reflexivity.
  - reflexivity.
  - reflexivity.
  - intros i j Hi. destruct i as [|i]; [contradiction Hi; reflexivity | reflexivity].
  - repeat constructor; lia.
Defined.

(** The position term of lines 194-198, entity by entity. *)
Lemma entity_position_mean (self : EntityEmbeddings) (position_ids : IdTensor3) :
  padding_idx (ee_position_embeddings self) = None ->
  valid_position_ids (ee_position_embeddings self) position_ids ->
  entity_position_embeddings self position_ids
  = map (map (mean_position_embedding (ee_position_embeddings self))) position_ids.
Proof.
  intros Hpad Hvalid. unfold entity_position_embeddings.
  rewrite bcast_zip_maps, !map_map, bcast_zip_maps.
  apply map_ext_in. intros b Hb.
  rewrite bcast_zip_maps, !map_map, bcast_zip_maps.
  apply map_ext_in. intros ids Hids.
  assert (Hge : Forall (fun id => (-1 <= id)%Z) ids).
  { unfold valid_position_ids in Hvalid. rewrite Forall_forall in Hvalid.
    specialize (Hvalid b Hb). rewrite Forall_forall in Hvalid.
    specialize (Hvalid ids Hids). revert Hvalid. apply Forall_impl. intros; lia. }
  rewrite bcast_zip_maps.
  assert (Hrows : map (fun id =>
                    bcast_zip Rmult
                      (embedding_vec (ee_position_embeddings self) (Z.max id 0))
                      [if (id =? -1)%Z then 0%R else 1%R]) ids
                  = map (fun id =>
                      map (fun h =>
                             emb_weight (ee_position_embeddings self)
                               (Z.to_nat (Z.max id 0)) h
                             * (if (id =? -1)%Z then 0 else 1))%R
                          (seq 0 (embedding_dim (ee_position_embeddings self)))) ids).
  { apply map_ext. intros id. rewrite bcast_zip_one_r.
    unfold embedding_vec, is_padding. rewrite Hpad, map_map. reflexivity. }
  rewrite Hrows, sum_rows_tabulated.
  change (map (fun id => [if (id =? -1)%Z then 0%R else 1%R]) ids)
    with (map (fun id => map (fun _ : nat => if (id =? -1)%Z then 0%R else 1%R)
                           (seq 0 1)) ids).
  rewrite sum_rows_tabulated. cbn [seq map].
  rewrite bcast_zip_one_r, map_map, mask_count.
  unfold mean_position_embedding. apply map_ext. intros h.
  rewrite (masked_sum (fun n => emb_weight (ee_position_embeddings self) n h) ids Hge).
  reflexivity.
Qed.

Lemma nth_map_map {X Y} (F : X -> Y) (x : list (list X)) b i dx dy :
  (b < length x)%nat -> (i < length (nth b x []))%nat ->
  nth i (nth b (map (map F) x) []) dy = F (nth i (nth b x []) dx).
Proof.
  intros Hb Hi.
  rewrite (nth_indep _ [] (map F [])) by (rewrite length_map; exact Hb).
  rewrite (map_nth (map F) x [] b).
  rewrite (nth_indep _ dy (F dx)) by (rewrite length_map; exact Hi).
  apply map_nth.
Qed.

(** X9.  The position term of an entity at the ends of the range of its
    count of position ids (lines 194-198): when all its position ids are
    -1 the term is the zero vector (the divisor is the clip bound, not 0);
    when exactly one position id [k] is not -1 the term is row [k] of the
    position table. *)
Theorem entity_position_term_degenerate (self : EntityEmbeddings)
    (position_ids : IdTensor3) (b i : nat) :
  padding_idx (ee_position_embeddings self) = None ->
  valid_position_ids (ee_position_embeddings self) position_ids ->
  (b < length position_ids)%nat -> (i < length (nth b position_ids []))%nat ->
  let ids := nth i (nth b position_ids []) [] in
  let term := nth i (nth b (entity_position_embeddings self position_ids) []) [] in
  (Forall (fun id => id = (-1)%Z) ids ->
   term = repeat 0%R (embedding_dim (ee_position_embeddings self))) /\
  (forall k, filter (fun id => negb (id =? -1)%Z) ids = [k] ->
   term = map (emb_weight (ee_position_embeddings self) (Z.to_nat k))
              (seq 0 (embedding_dim (ee_position_embeddings self)))).
Proof.
  intros Hpad Hvalid Hb Hi ids term.
  assert (Hterm : term = mean_position_embedding (ee_position_embeddings self) ids).
  { unfold term. rewrite (entity_position_mean self position_ids Hpad Hvalid).
    apply nth_map_map; assumption. }
  assert (Hclip : (0 < 1 / 10 ^ 7 <= 1)%R).
  { assert (H10 : (1 <= 10 ^ 7)%R) by (apply pow_R1_Rle; lra).
    split.
    - apply Rdiv_lt_0_compat; lra.
    - apply Rmult_le_reg_r with (10 ^ 7)%R; [lra|].
      unfold Rdiv. rewrite Rmult_assoc, Rinv_l by lra. lra. }
  split.
  - intros Hall. rewrite Hterm. unfold mean_position_embedding.
    assert (Hnil : filter (fun id => negb (id =? -1)%Z) ids = []).
    { clear Hterm. induction Hall as [|id l Hid _ IH]; [reflexivity|].
      simpl. subst id. simpl. exact IH. }
    rewrite Hnil, repeat_map_seq. apply map_ext. intros h. simpl.
    unfold Rdiv. apply Rmult_0_l.
  - intros k Hk. rewrite Hterm. unfold mean_position_embedding. rewrite Hk.
    apply map_ext. intros h. cbn [map length INR Rsum fold_right].
    rewrite Rmax_left by lra. field.
Qed.

Lemma entity_position_term_degenerate_witness :
  nth 0 (nth 0 (entity_position_embeddings (unit_entity_embeddings 0)
                  [[[-1; -1]; [-1; 3]]]%Z) []) []
  = repeat 0%R 1.
Proof.
  apply (entity_position_term_degenerate (unit_entity_embeddings 0)
           [[[-1; -1]; [-1; 3]]]%Z 0 0).
  - reflexivity.
  - repeat constructor; simpl; lia.
  - simpl; lia.
  - simpl; lia.
  - repeat constructor.
Defined.

(** ** The feed-forward part of a layer *)

Lemma zip_with_map_self {X Y W} (f : Y -> X -> W) (g : X -> Y) (a : list X) :
  zip_with f (map g a) a = map (fun x => f (g x) x) a.
Proof. rewrite zip_with_map_l, zip_with_diag. reflexivity. Qed.

(** In evaluation mode [feed_forward_chunk] maps one function over the
    positions. *)
Lemma feed_forward_eval (self : LukeLayer) (x : Tensor3) (g : Generator) :
  feed_forward_chunk false self x g
  = (map (map (fun v : Vec =>
                 layer_norm_vec (out_layer_norm (layer_output self))
                   (zip_with Rplus
                      (linear_vec (out_dense (layer_output self))
                         (map (intermediate_act_fn (layer_intermediate self))
                              (linear_vec (im_dense (layer_intermediate self)) v)))
                      v))) x, g).
Proof.
  unfold feed_forward_chunk, LukeOutput_forward, LukeIntermediate_forward, dropout3,
    bind, ret, linear3, linear_mat, layer_norm3, add3.
  f_equal. rewrite !map_map, zip_with_map_self, map_map.
  apply map_ext. intros xb.
  rewrite !map_map, zip_with_map_self, map_map. reflexivity.
Qed.

(** X11.  In evaluation mode the feed-forward part of a layer (lines
    382-385) works position by position: the output at a position is a
    function of the input at that position alone, the same function at
    every position of every sequence, namely the layer norm of the input
    plus the output projection of the activation of the intermediate
    projection. *)
Theorem feed_forward_position_wise (self : LukeLayer) (x : Tensor3) (g : Generator) :
  let f := fun v : Vec =>
    layer_norm_vec (out_layer_norm (layer_output self))
      (zip_with Rplus
         (linear_vec (out_dense (layer_output self))
            (map (intermediate_act_fn (layer_intermediate self))
                 (linear_vec (im_dense (layer_intermediate self)) v)))
         v) in
  feed_forward_chunk false self x g = (map (map f) x, g) /\
  (forall b s, (b < length x)%nat -> (s < length (nth b x []))%nat ->
     nth s (nth b (fst (feed_forward_chunk false self x g)) []) []
     = f (nth s (nth b x []) [])).
Proof.
  intros f. split.
  - apply feed_forward_eval.
  - intros b s Hb Hs. rewrite feed_forward_eval. cbn [fst].
    apply (nth_map_map f x b s [] []); assumption.
Qed.

Lemma slice_to1_concat_axis1 {X} B S (a b : list (list X)) :
  dims2 B S a -> length b = B -> slice_to1 S (concat_axis1 a b) = a.
Proof.
  intros [Hl Hall]. revert B b Hl.
  induction Hall as [|r a Hr _ IH]; intros B b Hl Hb; simpl in *.
  - reflexivity.
  - destruct b as [|rb b]; simpl in *; [lia|].
    unfold slice_to1, concat_axis1 in *. simpl.
    rewrite (IH (length a) b eq_refl) by lia.
    rewrite firstn_app, <- Hr, firstn_all, Nat.sub_diag. simpl.
    rewrite app_nil_r. reflexivity.
Qed.

Lemma slice_from1_concat_axis1 {X} B S (a b : list (list X)) :
  dims2 B S a -> length b = B -> slice_from1 S (concat_axis1 a b) = b.
Proof.
  intros [Hl Hall]. revert B b Hl.
  induction Hall as [|r a Hr _ IH]; intros B b Hl Hb; simpl in *.
  - destruct b; [reflexivity | simpl in *; lia].
  - destruct b as [|rb b]; simpl in *; [lia|].
    unfold slice_from1, concat_axis1 in *. simpl.
    rewrite (IH (length a) b eq_refl) by lia.
    rewrite skipn_app, <- Hr, skipn_all, Nat.sub_diag. reflexivity.
Qed.

Lemma map_map_concat_axis1 {X Y} (f : X -> Y) (a b : list (list X)) :
  map (map f) (concat_axis1 a b) = concat_axis1 (map (map f) a) (map (map f) b).
Proof.
  unfold concat_axis1. rewrite map_zip_with, zip_with_map_l, zip_with_map_r.
  apply zip_with_ext_in. intros x y _ _. apply map_app.
Qed.

(** X12.  In evaluation mode, with entity states given, a layer applies
    its feed-forward part to the word positions and to the entity
    positions separately: concatenating the two attention outputs along
    the sequence axis, running [feed_forward_chunk] and slicing at
    [word_size] (lines 366-378) returns the feed-forward of the word part
    and the feed-forward of the entity part. *)
Theorem layer_feed_forward_splits (self : LukeLayer) (B ws es : nat)
    (w e : Tensor3) (mask : option Tensor4) (g : Generator) :
  (0 < sa_num_attention_heads (attn_self (layer_attention self)))%nat ->
  (0 < sa_attention_head_size (attn_self (layer_attention self)))%nat ->
  dims2 B ws w -> dims2 B es e ->
  match mask with Some m => dims3 B 1 1 m | None => True end ->
  exists aw ae,
    LukeAttention_forward false (layer_attention self) w (Some e) mask g
    = ((aw, Some ae), g) /\
    LukeLayer_forward false self w (Some e) mask g
    = ((fst (feed_forward_chunk false self aw g),
        Some (fst (feed_forward_chunk false self ae g))), g).
Proof.
  intros Hnh Hhs Hw He Hm.
  pose proof (attention_dims false (layer_attention self) B ws es w (Some e) mask g
                Hnh Hhs Hw He Hm) as Hdims.
  destruct (attention_eval (layer_attention self) w (Some e) mask) as [a Ha].
  rewrite Ha in Hdims. cbn [fst] in Hdims.
  destruct a as [aw oe]. destruct Hdims as [Haw (ae & Hoe & Hae)].
  cbn [fst snd] in Haw, Hoe. subst oe.
  exists aw, ae. split; [apply Ha|].
  unfold LukeLayer_forward, bind. rewrite Ha.
  unfold concat_outputs. cbn [fst snd].
  rewrite !feed_forward_eval. cbn [fst]. unfold ret. f_equal. f_equal.
  - rewrite (slice_to1_shape1 B ws w _ Hw)
      by (rewrite length_map; unfold concat_axis1; rewrite length_zip_with;
          destruct Haw as [-> _], Hae as [-> _]; apply Nat.min_id).
    rewrite map_map_concat_axis1.
    apply (slice_to1_concat_axis1 B ws).
    + apply dims2_map_map. exact Haw.
    + rewrite length_map. destruct Hae as [Hl _]. exact Hl.
  - f_equal.
    rewrite (slice_from1_shape1 B ws w _ Hw)
      by (rewrite length_map; unfold concat_axis1; rewrite length_zip_with;
          destruct Haw as [-> _], Hae as [-> _]; apply Nat.min_id).
    rewrite map_map_concat_axis1.
    apply (slice_from1_concat_axis1 B ws).
    + apply dims2_map_map. exact Haw.
    + rewrite length_map. destruct Hae as [Hl _]. exact Hl.
Qed.

Lemma layer_feed_forward_splits_witness :
  exists aw ae,
    LukeAttention_forward false (layer_attention (tiny_layer (fun x => x) 0))
      [[[0; 0]]]%R (Some [[[1; 0]]]%R) None (fun _ => 0%R)
    = ((aw, Some ae), fun _ => 0%R) /\
    LukeLayer_forward false (tiny_layer (fun x => x) 0)
      [[[0; 0]]]%R (Some [[[1; 0]]]%R) None (fun _ => 0%R)
    = ((fst (feed_forward_chunk false (tiny_layer (fun x => x) 0) aw (fun _ => 0%R)),
        Some (fst (feed_forward_chunk false (tiny_layer (fun x => x) 0) ae
                     (fun _ => 0%R)))),
       fun _ => 0%R).
Proof.
  apply (layer_feed_forward_splits (tiny_layer (fun x => x) 0) 1 1 1
           [[[0; 0]]]%R [[[1; 0]]]%R None (fun _ => 0%R)).
  - simpl. lia.
  - simpl. lia.
  - repeat constructor.
  - repeat constructor.
  - exact I.
Defined.

(** ** The two streams of self-attention *)

Section AttentionStreams.
Local Open Scope R_scope.

(** *** The rows of the score matrix *)

Lemma score_row_word (self : LukeSelfAttention) B ws es (w e : Tensor3) b h s :
  (0 < sa_attention_head_size self)%nat ->
  dims2 B ws w -> dims2 B es e ->
  (b < B)%nat -> (h < sa_num_attention_heads self)%nat -> (s < ws)%nat ->
  nth s (nth h (nth b (attention_scores self w (Some e)) []) []) []
  = nth s (mat_qkT (head_proj self (query self) h (nth b w []))
                   (head_proj self (key self) h (nth b w []))) []
    ++ nth s (mat_qkT (head_proj self (w2e_query self) h (nth b w []))
                      (head_proj self (key self) h (nth b e []))) [].
Proof.
  intros Hhs Hw He Hb Hh Hs.
  rewrite attention_scores_blocks by (try exact Hhs; apply (dims2_uniform B ws w Hw)).
  unfold block_attention_scores.
  pose proof (dims2_nth B ws w b [] Hw Hb) as Hwb.
  destruct Hw as [Hlw _], He as [Hle _].
  unfold Tensor4, Tensor3, Mat, Vec in *.
  rewrite (nth_zip_with _ w e b [] [] []) by lia.
  rewrite (nth_map_seq _ (sa_num_attention_heads self) h) by exact Hh.
  unfold block_matrix.
  rewrite app_nth1
    by (rewrite length_zip_with, !length_mat_qkT, !length_head_proj; tlia).
  apply nth_zip_with; rewrite length_mat_qkT, length_head_proj; tlia.
Qed.

Lemma score_row_entity (self : LukeSelfAttention) B ws es (w e : Tensor3) b h t :
  (0 < sa_attention_head_size self)%nat ->
  dims2 B ws w -> dims2 B es e ->
  (b < B)%nat -> (h < sa_num_attention_heads self)%nat -> (t < es)%nat ->
  nth (ws + t) (nth h (nth b (attention_scores self w (Some e)) []) []) []
  = nth t (mat_qkT (head_proj self (e2w_query self) h (nth b e []))
                   (head_proj self (key self) h (nth b w []))) []
    ++ nth t (mat_qkT (head_proj self (e2e_query self) h (nth b e []))
                      (head_proj self (key self) h (nth b e []))) [].
Proof.
  intros Hhs Hw He Hb Hh Ht.
  rewrite attention_scores_blocks by (try exact Hhs; apply (dims2_uniform B ws w Hw)).
  unfold block_attention_scores.
  pose proof (dims2_nth B ws w b [] Hw Hb) as Hwb.
  pose proof (dims2_nth B es e b [] He Hb) as Heb.
  destruct Hw as [Hlw _], He as [Hle _].
  unfold Tensor4, Tensor3, Mat, Vec in *.
  rewrite (nth_zip_with _ w e b [] [] []) by lia.
  rewrite (nth_map_seq _ (sa_num_attention_heads self) h) by exact Hh.
  unfold block_matrix.
  assert (Htop : length (zip_with (@app R)
                   (mat_qkT (head_proj self (query self) h (nth b w []))
                            (head_proj self (key self) h (nth b w [])))
                   (mat_qkT (head_proj self (w2e_query self) h (nth b w []))
                            (head_proj self (key self) h (nth b e [])))) = ws).
  { rewrite length_zip_with, !length_mat_qkT, !length_head_proj. tlia. }
  rewrite app_nth2 by lia. rewrite Htop.
  replace (ws + t - ws)%nat with t by lia.
  apply nth_zip_with; rewrite length_mat_qkT, length_head_proj; tlia.
Qed.

(** *** Word rows and entity rows *)

(** X14.  In evaluation mode, with entity states given, the word output
    of [LukeSelfAttention.forward] is computed from the projections
    [query], [w2e_query], [key] and [value] alone, and the entity output
    from [e2w_query], [e2e_query], [key] and [value] alone (lines 250-270
    and 288-300): two attention layers with the same head layout, keys and
    values return the same word output when they share [query] and
    [w2e_query], and the same entity output when they share [e2w_query]
    and [e2e_query]. *)
Theorem attention_streams_separate (a c : LukeSelfAttention) B ws es (w e : Tensor3)
    (mask : option Tensor4) (g : Generator) :
  (0 < sa_num_attention_heads a)%nat ->
  (0 < sa_attention_head_size a)%nat ->
  sa_num_attention_heads a = sa_num_attention_heads c ->
  sa_attention_head_size a = sa_attention_head_size c ->
  key a = key c -> value a = value c ->
  dims2 B ws w -> dims2 B es e ->
  match mask with Some m => dims3 B 1 1 m | None => True end ->
  (query a = query c -> w2e_query a = w2e_query c ->
   fst (fst (LukeSelfAttention_forward false a w (Some e) mask g))
   = fst (fst (LukeSelfAttention_forward false c w (Some e) mask g))) /\
  (e2w_query a = e2w_query c -> e2e_query a = e2e_query c ->
   snd (fst (LukeSelfAttention_forward false a w (Some e) mask g))
   = snd (fst (LukeSelfAttention_forward false c w (Some e) mask g))).
Proof.
  intros Hnh Hhs Enh Ehs Ekey Eval Hw He Hm.
  assert (Hnh' : (0 < sa_num_attention_heads c)%nat) by lia.
  assert (Hhs' : (0 < sa_attention_head_size c)%nat) by lia.
  rewrite (self_attention_rows a B ws es w (Some e) mask g Hnh Hhs Hw He Hm).
  rewrite (self_attention_rows c B ws es w (Some e) mask g Hnh' Hhs' Hw He Hm).
  cbn [fst snd]. split.
  - intros Eq Ew2e.
    apply map_ext_in. intros b Hb. apply in_seq in Hb.
    apply map_ext_in. intros s Hs. apply in_seq in Hs.
    unfold context_row, prob_row, value_head. rewrite <- Enh. f_equal.
    apply map_ext_in. intros h Hh. apply in_seq in Hh.
    rewrite (score_row_word a B ws es w e b h s) by (assumption || lia).
    rewrite (score_row_word c B ws es w e b h s) by (assumption || lia).
    unfold head_proj. rewrite <- Ehs, <- Ekey, <- Eval, <- Eq, <- Ew2e. reflexivity.
  - intros Ee2w Ee2e. f_equal.
    apply map_ext_in. intros b Hb. apply in_seq in Hb.
    apply map_ext_in. intros s Hs. apply in_seq in Hs.
    unfold context_row, prob_row, value_head. rewrite <- Enh. f_equal.
    apply map_ext_in. intros h Hh. apply in_seq in Hh.
    replace s with (ws + (s - ws))%nat by lia.
    rewrite (score_row_entity a B ws es w e b h (s - ws)) by (assumption || lia).
    rewrite (score_row_entity c B ws es w e b h (s - ws)) by (assumption || lia).
    unfold head_proj. rewrite <- Ehs, <- Ekey, <- Eval, <- Ee2w, <- Ee2e. reflexivity.
Qed.

(** *** One batch element at a time *)

Lemma scores_of_element (self : LukeSelfAttention) B ws es (w : Tensor3)
    (e : option Tensor3) b :
  (0 < sa_attention_head_size self)%nat ->
  dims2 B ws w ->
  match e with Some e' => dims2 B es e' | None => es = 0%nat end ->
  (b < B)%nat ->
  nth b (attention_scores self w e) []
  = nth 0 (attention_scores self [nth b w []]
             (option_map (fun e' : Tensor3 => [nth b e' []]) e)) [].
Proof.
  intros Hhs Hw He Hb. destruct e as [e'|]; cbn [option_map].
  - rewrite attention_scores_blocks by (try exact Hhs; apply (dims2_uniform B ws w Hw)).
    rewrite attention_scores_blocks by (try exact Hhs; repeat constructor).
    unfold block_attention_scores. destruct Hw as [Hlw _], He as [Hle _].
    unfold Tensor4, Tensor3, Mat, Vec in *.
    rewrite (nth_zip_with _ w e' b [] [] []) by lia. reflexivity.
  - rewrite !attention_scores_none by exact Hhs.
    unfold standard_attention_scores. destruct Hw as [Hlw _].
    unfold Tensor4, Tensor3, Mat, Vec in *.
    rewrite (nth_map_lt _ w b [] []) by lia. reflexivity.
Qed.

Lemma hidden_of_element B ws es (w : Tensor3) (e : option Tensor3) b :
  dims2 B ws w ->
  match e with Some e' => dims2 B es e' | None => es = 0%nat end ->
  (b < B)%nat ->
  nth b (concat_hidden_states w e) []
  = nth 0 (concat_hidden_states [nth b w []]
             (option_map (fun e' : Tensor3 => [nth b e' []]) e)) [].
Proof.
  intros Hw He Hb. destruct e as [e'|]; cbn [option_map concat_hidden_states].
  - unfold concat_axis1. destruct Hw as [Hlw _], He as [Hle _].
    unfold Tensor4, Tensor3, Mat, Vec in *.
    rewrite (nth_zip_with _ w e' b [] [] []) by lia. reflexivity.
  - reflexivity.
Qed.

Lemma self_attention_element (self : LukeSelfAttention) B ws es (w : Tensor3)
    (e : option Tensor3) (mask : option Tensor4) (g : Generator) b :
  (0 < sa_num_attention_heads self)%nat ->
  (0 < sa_attention_head_size self)%nat ->
  dims2 B ws w ->
  match e with Some e' => dims2 B es e' | None => es = 0%nat end ->
  match mask with Some m => dims3 B 1 1 m | None => True end ->
  (b < B)%nat ->
  LukeSelfAttention_forward false self [nth b w []]
    (option_map (fun e' : Tensor3 => [nth b e' []]) e)
    (option_map (fun m : Tensor4 => [nth b m []]) mask) g
  = (([nth b (fst (fst (LukeSelfAttention_forward false self w e mask g))) []],
      option_map (fun oe : Tensor3 => [nth b oe []])
                 (snd (fst (LukeSelfAttention_forward false self w e mask g)))), g).
Proof.
  intros Hnh Hhs Hw He Hm Hb.
  assert (Hw1 : dims2 1 ws [nth b w []]).
  { split; [reflexivity|]. constructor; [|constructor].
    apply (dims2_nth B ws w b [] Hw Hb). }
  assert (He1 : match option_map (fun e' : Tensor3 => [nth b e' []]) e with
                | Some e' => dims2 1 es e'
                | None => es = 0%nat
                end).
  { destruct e as [e'|]; cbn [option_map]; [|exact He].
    split; [reflexivity|]. constructor; [|constructor].
    apply (dims2_nth B es e' b [] He Hb). }
  assert (Hm1 : match option_map (fun m : Tensor4 => [nth b m []]) mask with
                | Some m => dims3 1 1 1 m
                | None => True
                end).
  { destruct mask as [m|]; cbn [option_map]; [|exact I].
    split; [reflexivity|]. constructor; [|constructor].
    apply (dims3_nth B 1 1 m b Hm Hb). }
  rewrite (self_attention_rows self 1 ws es _ _ _ g Hnh Hhs Hw1 He1 Hm1).
  rewrite (self_attention_rows self B ws es w e mask g Hnh Hhs Hw He Hm).
  cbn [fst snd seq map].
  assert (Hrow : forall s,
            context_row self [nth b w []]
              (option_map (fun e' : Tensor3 => [nth b e' []]) e)
              (option_map (fun m : Tensor4 => [nth b m []]) mask) 0 s
            = context_row self w e mask b s).
  { intros s. unfold context_row, prob_row, value_head.
    rewrite <- (scores_of_element self B ws es w e b Hhs Hw He Hb).
    rewrite <- (hidden_of_element B ws es w e b Hw He Hb).
    f_equal. apply map_ext. intros h. f_equal. f_equal. f_equal.
    destruct mask as [m|]; reflexivity. }
  f_equal. f_equal.
  - f_equal. rewrite (nth_map_seq _ B b) by exact Hb.
    apply map_ext. intros s. apply Hrow.
  - destruct e as [e'|]; cbn [option_map]; [|reflexivity].
    f_equal. f_equal. rewrite (nth_map_seq _ B b) by exact Hb.
    apply map_ext. intros s. apply Hrow.
Qed.

(** *** A mask that is zero everywhere *)

Lemma zip_with_repeat_r (c : R) (r : Vec) n :
  length r = n -> zip_with Rplus r (repeat c n) = map (fun v => v + c) r.
Proof.
  revert n; induction r as [|x r IH]; intros [|n] H; simpl in *; try lia;
    try reflexivity.
  rewrite IH by lia. reflexivity.
Qed.

Lemma zero_mask_probs (self : LukeSelfAttention) B ws es (w : Tensor3)
    (e : option Tensor3) (m : Tensor4) :
  (0 < sa_attention_head_size self)%nat ->
  dims2 B ws w ->
  match e with Some e' => dims2 B es e' | None => es = 0%nat end ->
  dims3 B 1 1 m ->
  Forall (Forall (Forall (fun row => row = repeat 0 (ws + es)))) m ->
  attention_probs self w e (Some m) = attention_probs self w e None.
Proof.
  intros Hhs Hw He Hm Hconst.
  apply (tensor_rows_ext _ _ B (sa_num_attention_heads self) (ws + es)).
  - apply attention_probs_dims; assumption.
  - apply attention_probs_dims; try assumption. exact I.
  - intros b h s Hb Hh Hs.
    transitivity (prob_row self w e (Some m) b h s);
      [apply (probs_rows self B ws es); assumption|].
    transitivity (prob_row self w e None b h s);
      [|symmetry; apply (probs_rows self B ws es); assumption || exact I].
    unfold prob_row, mask_row.
    pose proof (Forall3_nth (fun row : Vec => row = repeat 0 (ws + es)) m
                  B 1 1 b 0 0 [] Hm Hconst Hb) as Hc.
    specialize (Hc ltac:(lia) ltac:(lia)).
    assert (Hrow : length (nth s (nth h (nth b (attention_scores self w e) []) []) [])
                   = (ws + es)%nat).
    { apply (Forall3_nth (fun row : Vec => length row = (ws + es)%nat) _
               B (sa_num_attention_heads self) (ws + es));
        try assumption.
      - apply attention_scores_dims; assumption.
      - apply (attention_scores_rows self B ws es); assumption. }
    unfold Tensor4, Tensor3, Mat, Vec in *. rewrite Hc.
    rewrite bcast_zip_same_length by (rewrite length_map, repeat_length; exact Hrow).
    rewrite zip_with_repeat_r by (rewrite length_map; exact Hrow).
    f_equal. etransitivity; [|apply map_id].
    apply map_ext. intros v. apply Rplus_0_r.
Qed.

Lemma zero_mask_self_attention (training : bool) (self : LukeSelfAttention)
    B ws es (w : Tensor3) (e : option Tensor3) (m : Tensor4) (g : Generator) :
  (0 < sa_attention_head_size self)%nat ->
  dims2 B ws w ->
  match e with Some e' => dims2 B es e' | None => es = 0%nat end ->
  dims3 B 1 1 m ->
  Forall (Forall (Forall (fun row => row = repeat 0 (ws + es)))) m ->
  LukeSelfAttention_forward training self w e (Some m) g
  = LukeSelfAttention_forward training self w e None g.
Proof.
  intros Hhs Hw He Hm Hconst.
  unfold LukeSelfAttention_forward, attention_weights.
  rewrite (zero_mask_probs self B ws es w e m Hhs Hw He Hm Hconst). reflexivity.
Qed.

Lemma zero_mask_layer (training : bool) (self : LukeLayer)
    B ws es (w : Tensor3) (e : option Tensor3) (m : Tensor4) (g : Generator) :
  (0 < sa_attention_head_size (attn_self (layer_attention self)))%nat ->
  dims2 B ws w ->
  match e with Some e' => dims2 B es e' | None => es = 0%nat end ->
  dims3 B 1 1 m ->
  Forall (Forall (Forall (fun row => row = repeat 0 (ws + es)))) m ->
  LukeLayer_forward training self w e (Some m) g
  = LukeLayer_forward training self w e None g.
Proof.
  intros Hhs Hw He Hm Hconst.
  unfold LukeLayer_forward, LukeAttention_forward, bind.
  rewrite (zero_mask_self_attention training _ B ws es w e m g Hhs Hw He Hm Hconst).
  reflexivity.
Qed.

Lemma zero_mask_encoder (training : bool) (layers : list LukeLayer)
    B ws es (w : Tensor3) (e : option Tensor3) (m : Tensor4) (g : Generator) :
  heads_ok layers ->
  dims2 B ws w ->
  match e with Some e' => dims2 B es e' | None => es = 0%nat end ->
  dims3 B 1 1 m ->
  Forall (Forall (Forall (fun row => row = repeat 0 (ws + es)))) m ->
  LukeEncoder_forward training layers w e (Some m) g
  = LukeEncoder_forward training layers w e None g.
Proof.
  intros Hok. revert w e g.
  induction Hok as [|l layers [Hnh Hhs] _ IH]; intros w e g Hw He Hm Hconst.
  - reflexivity.
  - cbn [LukeEncoder_forward]. unfold bind.
    rewrite (zero_mask_layer training l B ws es w e m g Hhs Hw He Hm Hconst).
    pose proof (layer_dims training l B ws es w e None g Hnh Hhs Hw He I) as Hlo.
    destruct (LukeLayer_forward training l w e None g) as [[lw le] g1].
    destruct Hlo as [Hlw Hle]. cbn [fst snd] in *.
    destruct e as [e'|].
    + destruct Hle as (oe & -> & Hoe). apply (IH lw (Some oe) g1 Hlw Hoe Hm Hconst).
    + apply (IH lw None g1 Hlw He Hm Hconst).
Qed.

End AttentionStreams.

Lemma attention_streams_separate_witness :
  fst (fst (LukeSelfAttention_forward false (tiny_self_attention 0)
              [[[0; 0]]]%R (Some [[[1; 0]]]%R) None (fun _ => 0%R)))
  = fst (fst (LukeSelfAttention_forward false
                (mkLukeSelfAttention 1 2 2 (zero_linear 2 2) (zero_linear 2 2)
                   (scaled_identity (-2) 2) (zero_linear 2 2)
                   (scaled_identity 1 2) (scaled_identity 3 2) 0)
                [[[0; 0]]]%R (Some [[[1; 0]]]%R) None (fun _ => 0%R))).
Proof.
  destruct (attention_streams_separate (tiny_self_attention 0)
              (mkLukeSelfAttention 1 2 2 (zero_linear 2 2) (zero_linear 2 2)
                 (scaled_identity (-2) 2) (zero_linear 2 2)
                 (scaled_identity 1 2) (scaled_identity 3 2) 0)
              1 1 1 [[[0; 0]]]%R [[[1; 0]]]%R None (fun _ => 0%R)) as [Hword _].
  - simpl. lia.
  - simpl. lia.
  - reflexivity.
  - reflexivity.
  - reflexivity.
  - reflexivity.
  - repeat constructor.
  - repeat constructor.
  - exact I.
  - apply Hword; reflexivity.
Defined.

(** X15.  In evaluation mode [LukeSelfAttention.forward] treats the
    elements of a batch independently: run on element [b] alone (its word
    states, its entity states and its mask row), it returns the states it
    returns for element [b] when run on the whole batch. *)
Theorem attention_batch_independent (self : LukeSelfAttention) (B ws es : nat)
    (w : Tensor3) (e : option Tensor3) (mask : option Tensor4) (g : Generator)
    (b : nat) :
  (0 < sa_num_attention_heads self)%nat ->
  (0 < sa_attention_head_size self)%nat ->
  dims2 B ws w ->
  match e with Some e' => dims2 B es e' | None => es = 0%nat end ->
  match mask with Some m => dims3 B 1 1 m | None => True end ->
  (b < B)%nat ->
  LukeSelfAttention_forward false self [nth b w []]
    (option_map (fun e' : Tensor3 => [nth b e' []]) e)
    (option_map (fun m : Tensor4 => [nth b m []]) mask) g
  = (([nth b (fst (fst (LukeSelfAttention_forward false self w e mask g))) []],
      option_map (fun oe : Tensor3 => [nth b oe []])
                 (snd (fst (LukeSelfAttention_forward false self w e mask g)))), g).
Proof.
  intros Hnh Hhs Hw He Hm Hb.
  apply (self_attention_element self B ws es); assumption.
Qed.

Lemma attention_batch_independent_witness :
  LukeSelfAttention_forward false (tiny_self_attention 0) [[[1; 0]]]%R
    (Some [[[0; 1]]]%R) None (fun _ => 0%R)
  = (([nth 1 (fst (fst (LukeSelfAttention_forward false (tiny_self_attention 0)
                          [[[0; 0]]; [[1; 0]]]%R (Some [[[1; 1]]; [[0; 1]]]%R) None
                          (fun _ => 0%R)))) []],
      option_map (fun oe : Tensor3 => [nth 1 oe []])
        (snd (fst (LukeSelfAttention_forward false (tiny_self_attention 0)
                     [[[0; 0]]; [[1; 0]]]%R (Some [[[1; 1]]; [[0; 1]]]%R) None
                     (fun _ => 0%R))))),
     fun _ => 0%R).
Proof.
  apply (attention_batch_independent (tiny_self_attention 0) 2 1 1
           [[[0; 0]]; [[1; 0]]]%R (Some [[[1; 1]]; [[0; 1]]]%R) None (fun _ => 0%R) 1).
  - simpl. lia.
  - simpl. lia.
  - repeat constructor.
  - repeat constructor.
  - exact I.
  - lia.
Defined.

(** X16.  A mask that is zero everywhere has no effect (lines 277-279
    add it to the scaled scores): for a mask of shape [B, 1, 1, T] whose
    row for every batch element holds [T] zeros, as when no position is
    padding, the attention probabilities, and with them what
    [LukeSelfAttention.forward] and [LukeEncoder.forward] return in either
    mode, are those computed without a mask. *)
Theorem zero_mask_no_effect (self : LukeSelfAttention) (B ws es : nat)
    (w : Tensor3) (e : option Tensor3) (m : Tensor4) :
  (0 < sa_attention_head_size self)%nat ->
  dims2 B ws w ->
  match e with Some e' => dims2 B es e' | None => es = 0%nat end ->
  dims3 B 1 1 m ->
  Forall (Forall (Forall (fun row => row = repeat 0%R (ws + es)))) m ->
  attention_probs self w e (Some m) = attention_probs self w e None /\
  (forall training g,
     LukeSelfAttention_forward training self w e (Some m) g
     = LukeSelfAttention_forward training self w e None g) /\
  (forall training layers g,
     heads_ok layers ->
     LukeEncoder_forward training layers w e (Some m) g
     = LukeEncoder_forward training layers w e None g).
Proof.
  intros Hhs Hw He Hm Hconst.
  pose proof (zero_mask_probs self B ws es w e m Hhs Hw He Hm Hconst) as Hp.
  split; [exact Hp|]. split.
  - intros training g. unfold LukeSelfAttention_forward, attention_weights.
    rewrite Hp. reflexivity.
  - intros training layers g Hok.
    apply (zero_mask_encoder training layers B ws es); assumption.
Qed.

Lemma zero_mask_no_effect_witness :
  attention_probs (tiny_self_attention 0) [[[0; 0]]]%R (Some [[[1; 0]]]%R)
    (Some [[[[0; 0]]]]%R)
  = attention_probs (tiny_self_attention 0) [[[0; 0]]]%R (Some [[[1; 0]]]%R) None.
Proof.
  apply (zero_mask_no_effect (tiny_self_attention 0) 1 1 1
           [[[0; 0]]]%R (Some [[[1; 0]]]%R) [[[[0; 0]]]]%R).
  - simpl. lia.
  - repeat constructor.
  - repeat constructor.
  - repeat constructor.
  - constructor; [|constructor]. constructor; [|constructor].
    constructor; [|constructor]. reflexivity.
Defined.

(** ** The outputs of the heads *)

(** For well-shaped inputs the base model returns word states with the
    batch size and sequence length of [input_ids] and, with entity ids,
    entity states with the batch size and length of [entity_ids]. *)
Lemma call_luke_dims (training : bool) (self : LukeModel) (a : LukeInputs)
    (g : Generator) :
  heads_ok (encoder self) ->
  inputs_shape_ok a ->
  embeddings_shape_ok training (embeddings self) a ->
  exists word entity pooled g',
    call_luke training self a g = (Some (word, entity, pooled), g') /\
    dims2 (length (input_ids a)) (shape1 (input_ids a)) word /\
    match entity_ids a with
    | None => entity = None
    | Some ids => exists e, entity = Some e /\ dims2 (length (input_ids a)) (shape1 ids) e
    end.
Proof.
  intros Hok (Hids & Hmask & Hent) Hemb.
  unfold call_luke, LukeModel_forward, LukeEmbeddings_forward, bind.
  pose proof (Hemb g) as Hw0.
  destruct (embeddings self training (input_ids a) (token_type_ids a) (position_ids a) g)
    as [w0 g1]. simpl fst in Hw0.
  pose proof (extended_mask_dims (pad_token_id self) _ _ _ _ Hids Hmask) as Hm.
  destruct (entity_ids a) as [ids|].
  - destruct Hent as (Hdi & (pos & Epos & Hdp) & Htt & Hem). rewrite Epos.
    pose proof (extended_mask_dims (entity_pad_token_id self) _ _ _ _ Hdi Hem) as Hme.
    pose proof (concat_masks_dims _ _ _ Hm Hme) as Hmc.
    assert (He0 : forall tt,
              tt = match entity_token_type_ids a with
                   | Some _ => entity_token_type_ids a
                   | None => Some (repeat (repeat 0%Z (shape1 ids)) (length (input_ids a)))
                   end ->
              dims2 (length (input_ids a)) (shape1 ids)
                (fst (EntityEmbeddings_forward training (entity_embeddings self)
                        ids pos tt g1))).
    { intros tt ->. apply entity_embeddings_dims; [exact Hdi | exact Hdp |].
      destruct (entity_token_type_ids a); [exact Htt | apply zeros_dims]. }
    specialize (He0 _ eq_refl).
    destruct (EntityEmbeddings_forward training (entity_embeddings self) ids pos _ g1)
      as [e0 g2]. simpl fst in He0. unfold ret at 1.
    pose proof (encoder_dims training (encoder self) _ _ _ w0 (Some e0) (Some _) g2
                  Hok Hw0 He0 Hmc) as Henc.
    destruct (LukeEncoder_forward training (encoder self) w0 (Some e0) _ g2) as [[ow oe] g3].
    destruct Henc as [Hw (e' & He' & Hde)]. simpl in Hw, He'. subst oe.
    do 4 eexists. split; [reflexivity|]. split; [exact Hw|].
    exists e'. split; [reflexivity | exact Hde].
  - unfold ret at 1.
    pose proof (encoder_dims training (encoder self) _ _ 0%nat w0 None (Some _) g1
                  Hok Hw0 eq_refl Hm) as Henc.
    destruct (LukeEncoder_forward training (encoder self) w0 None _ g1) as [[ow oe] g3].
    destruct Henc as [Hw He']. simpl in Hw, He'. subst oe.
    do 4 eexists. split; [reflexivity|]. split; [exact Hw | reflexivity].
Qed.

Lemma rect3_linear3 (l : Linear) B S (x : Tensor3) :
  dims2 B S x -> rect3 B S (out_features l) (linear3 l x).
Proof.
  intros Hx. split; [apply linear3_dims; exact Hx|].
  unfold linear3, linear_mat. apply Forall_map, Forall_forall. intros xb _.
  apply Forall_map, Forall_forall. intros r _.
  unfold linear_vec. rewrite length_map, length_seq. reflexivity.
Qed.

(** X17.  [LukeForMaskedLM.forward] on well-shaped inputs with entity ids
    returns word logits of shape [batch_size, sequence_length, vocab_size]
    and entity logits of shape [batch_size, entity_length,
    entity_vocab_size] (the width of the entity decoder), as its docstring
    says. *)
Theorem masked_lm_logits_shapes (training : bool) (self : LukeForMaskedLM)
    (a : LukeInputs) (ids : IdMat) (g : Generator) :
  heads_ok (encoder (mlm_luke self)) ->
  inputs_shape_ok a ->
  embeddings_shape_ok training (embeddings (mlm_luke self)) a ->
  entity_ids a = Some ids ->
  exists logits entity_logits g',
    LukeForMaskedLM_forward training self a g = (Some (logits, entity_logits), g') /\
    rect3 (length (input_ids a)) (shape1 (input_ids a)) (lm_vocab_size (lm_head self))
          logits /\
    rect3 (length (input_ids a)) (shape1 ids)
          (out_features (decoder (entity_predictions self))) entity_logits.
Proof.
  intros Hok Hin Hemb Hids.
  destruct (call_luke_dims training (mlm_luke self) a g Hok Hin Hemb)
    as (word & entity & pooled & g' & Hcall & Hw & He).
  rewrite Hids in He. destruct He as (e & -> & He).
  unfold LukeForMaskedLM_forward, bind. rewrite Hcall.
  do 3 eexists. split; [reflexivity|]. split.
  - unfold LukeLMHead_forward. split.
    + apply (dims2_map_map _ _ _ _
               (layer_norm3_dims _ _ _ _
                  (dims2_map_map _ _ _ _ (linear3_dims _ _ _ _ Hw)))).
    + apply Forall_map, Forall_forall. intros xb _.
      apply Forall_map, Forall_forall. intros r _.
      rewrite length_map, length_seq. reflexivity.
  - unfold EntityPredictionHead_forward, EntityPredictionHeadTransform_forward.
    apply rect3_linear3, layer_norm3_dims, dims2_map_map, linear3_dims. exact He.
Qed.

Lemma masked_lm_logits_shapes_witness :
  exists logits entity_logits g',
    LukeForMaskedLM_forward false
      (mkLukeForMaskedLM (tiny_luke (fun x => x) 0)
         (mkLukeLMHead (zero_linear 2 2) unit_layer_norm (fun x => x) 3 2
                       (fun _ _ => 0%R) (fun _ => 0%R))
         (mkEntityPredictionHead
            (mkEntityPredictionHeadTransform (zero_linear 2 2) (fun x => x) unit_layer_norm)
            (zero_linear 2 3)))
      (tiny_inputs 1) (fun _ => 0%R)
    = (Some (logits, entity_logits), g') /\
    rect3 1 1 3 logits /\ rect3 1 1 3 entity_logits.
Proof.
  apply (masked_lm_logits_shapes false
           (mkLukeForMaskedLM (tiny_luke (fun x => x) 0)
              (mkLukeLMHead (zero_linear 2 2) unit_layer_norm (fun x => x) 3 2
                            (fun _ _ => 0%R) (fun _ => 0%R))
              (mkEntityPredictionHead
                 (mkEntityPredictionHeadTransform (zero_linear 2 2) (fun x => x)
                    unit_layer_norm)
                 (zero_linear 2 3)))
           (tiny_inputs 1) [[1%Z]] (fun _ => 0%R)).
  - repeat constructor.
  - unfold inputs_shape_ok; simpl. repeat split; repeat constructor.
    exists [[[0%Z]]]. repeat split; repeat constructor.
  - intros g. simpl. repeat split; repeat constructor.
  - reflexivity.
Defined.

Lemma dropout_mat_length (training : bool) (p : R) (x : Mat) (g : Generator) :
  length (fst (dropout_mat training p x g)) = length x.
Proof.
  unfold dropout_mat. destruct training; [apply mapM_length | reflexivity].
Qed.

Lemma linear_mat_dims (l : Linear) (x : Mat) :
  dims2 (length x) (out_features l) (linear_mat l x).
Proof.
  unfold linear_mat. split; [apply length_map|].
  apply Forall_map, Forall_forall. intros r _.
  unfold linear_vec. rewrite length_map, length_seq. reflexivity.
Qed.

(** X18.  [LukeForEntityClassification.forward] and
    [LukeForEntityPairClassification.forward] on well-shaped inputs with
    at least one (two) entities return logits of shape [batch_size,
    num_labels] (the width of the classifier).  In evaluation mode the
    logits of a sequence are the classifier applied to the state of its
    first entity (lines 840-842), respectively to the states of its first
    two entities laid end to end (lines 931-933). *)
Theorem entity_classification_logits (training : bool) (luke : LukeModel)
    (p : R) (classifier : Linear) (a : LukeInputs) (ids : IdMat) (g : Generator) :
  heads_ok (encoder luke) ->
  inputs_shape_ok a ->
  embeddings_shape_ok training (embeddings luke) a ->
  entity_ids a = Some ids ->
  exists word entity pooled g1,
    call_luke training luke a g = (Some (word, Some entity, pooled), g1) /\
    ((0 < shape1 ids)%nat ->
     exists logits g2,
       LukeForEntityClassification_forward training
         (mkLukeForEntityClassification luke p classifier) a g = (Some logits, g2) /\
       dims2 (length (input_ids a)) (out_features classifier) logits /\
       (training = false ->
        logits = map (fun eb => linear_vec classifier (nth 0 eb [])) entity)) /\
    ((1 < shape1 ids)%nat ->
     exists logits g2,
       LukeForEntityPairClassification_forward training
         (mkLukeForEntityPairClassification luke p classifier) a g = (Some logits, g2) /\
       dims2 (length (input_ids a)) (out_features classifier) logits /\
       (training = false ->
        logits = map (fun eb => linear_vec classifier (nth 0 eb [] ++ nth 1 eb [])) entity)).
Proof.
  intros Hok Hin Hemb Hids.
  destruct (call_luke_dims training luke a g Hok Hin Hemb)
    as (word & entity & pooled & g1 & Hcall & Hw & He).
  rewrite Hids in He. destruct He as (e & -> & [Hle He]).
  exists word, e, pooled, g1. split; [exact Hcall|]. split.
  - intros _. unfold LukeForEntityClassification_forward, bind.
    cbn [ec_luke ec_dropout ec_classifier]. rewrite Hcall.
    match goal with
    | |- context [dropout_mat training p ?x g1] =>
        pose proof (dropout_mat_length training p x g1) as Hlen;
        assert (Heval : training = false -> dropout_mat training p x g1 = (x, g1))
          by (intros ->; reflexivity);
        destruct (dropout_mat training p x g1) as [fv g2]
    end.
    cbn [fst] in Hlen. do 2 eexists. split; [reflexivity|]. split.
    + pose proof (linear_mat_dims classifier fv) as Hd.
      rewrite length_map in Hlen.
      replace (length fv) with (length (input_ids a)) in Hd by tlia. exact Hd.
    + intros Ht. specialize (Heval Ht). injection Heval as -> _.
      unfold linear_mat. rewrite map_map. reflexivity.
  - intros _. unfold LukeForEntityPairClassification_forward, bind.
    cbn [ep_luke ep_dropout ep_classifier]. rewrite Hcall.
    unfold concat_axis1. rewrite zip_with_maps.
    match goal with
    | |- context [dropout_mat training p ?x g1] =>
        pose proof (dropout_mat_length training p x g1) as Hlen;
        assert (Heval : training = false -> dropout_mat training p x g1 = (x, g1))
          by (intros ->; reflexivity);
        destruct (dropout_mat training p x g1) as [fv g2]
    end.
    cbn [fst] in Hlen. do 2 eexists. split; [reflexivity|]. split.
    + pose proof (linear_mat_dims classifier fv) as Hd.
      rewrite length_map in Hlen.
      replace (length fv) with (length (input_ids a)) in Hd by tlia. exact Hd.
    + intros Ht. specialize (Heval Ht). injection Heval as -> _.
      unfold linear_mat. rewrite map_map. reflexivity.
Qed.

Lemma entity_classification_logits_witness :
  exists word entity pooled g1,
    call_luke false (tiny_luke (fun x => x) 0) (tiny_inputs 1) (fun _ => 0%R)
    = (Some (word, Some entity, pooled), g1) /\
    exists logits g2,
      LukeForEntityClassification_forward false
        (mkLukeForEntityClassification (tiny_luke (fun x => x) 0) 0 (zero_linear 2 3))
        (tiny_inputs 1) (fun _ => 0%R) = (Some logits, g2) /\
      dims2 1 3 logits.
Proof.
  destruct (entity_classification_logits false (tiny_luke (fun x => x) 0) 0
              (zero_linear 2 3) (tiny_inputs 1) [[1%Z]] (fun _ => 0%R))
    as (word & entity & pooled & g1 & Hcall & Hec & _).
  - repeat constructor.
  - unfold inputs_shape_ok; simpl. repeat split; repeat constructor.
    exists [[[0%Z]]]. repeat split; repeat constructor.
  - intros g. simpl. repeat split; repeat constructor.
  - reflexivity.
  - exists word, entity, pooled, g1. split; [exact Hcall|].
    destruct (Hec ltac:(unfold shape1; simpl; lia)) as (logits & g2 & Hrun & Hd & _).
    exists logits, g2. split; [exact Hrun | exact Hd].
Defined.

(** X19.  [LukeForQuestionAnswering.forward] on well-shaped inputs, the
    output layer having two channels (line 1053): the start logits and the
    end logits have shape [batch_size, sequence_length], and are channel 0
    and channel 1 of the output layer applied to the word state of each
    token (lines 1125-1129); the generator state is the one the base model
    leaves. *)
Theorem question_answering_logits (training : bool) (self : LukeForQuestionAnswering)
    (a : LukeInputs) (g : Generator) :
  heads_ok (encoder (qa_luke self)) ->
  inputs_shape_ok a ->
  embeddings_shape_ok training (embeddings (qa_luke self)) a ->
  out_features (qa_outputs self) = 2%nat ->
  exists word entity pooled start_logits end_logits g1,
    call_luke training (qa_luke self) a g = (Some (word, entity, pooled), g1) /\
    LukeForQuestionAnswering_forward training self a g
    = (Some (start_logits, end_logits), g1) /\
    start_logits = map (map (fun r => nth 0 (linear_vec (qa_outputs self) r) 0%R)) word /\
    end_logits = map (map (fun r => nth 1 (linear_vec (qa_outputs self) r) 0%R)) word /\
    dims2 (length (input_ids a)) (shape1 (input_ids a)) start_logits /\
    dims2 (length (input_ids a)) (shape1 (input_ids a)) end_logits.
Proof.
  intros Hok Hin Hemb Hout.
  destruct (call_luke_dims training (qa_luke self) a g Hok Hin Hemb)
    as (word & entity & pooled & g1 & Hcall & Hw & _).
  assert (Hrow : forall r,
            nth 0 (firstn (length (linear_vec (qa_outputs self) r) / 2)
                          (linear_vec (qa_outputs self) r)) 0%R
            = nth 0 (linear_vec (qa_outputs self) r) 0%R /\
            nth 0 (skipn (length (linear_vec (qa_outputs self) r) / 2)
                         (linear_vec (qa_outputs self) r)) 0%R
            = nth 1 (linear_vec (qa_outputs self) r) 0%R).
  { intros r.
    assert (Hl : length (linear_vec (qa_outputs self) r) = 2%nat)
      by (unfold linear_vec; rewrite length_map, length_seq; exact Hout).
    destruct (linear_vec (qa_outputs self) r) as [|r0 [|r1 [|? ?]]];
      try discriminate Hl. split; reflexivity. }
  exists word, entity, pooled,
    (map (map (fun r => nth 0 (linear_vec (qa_outputs self) r) 0%R)) word),
    (map (map (fun r => nth 1 (linear_vec (qa_outputs self) r) 0%R)) word), g1.
  split; [exact Hcall|]. split.
  - unfold LukeForQuestionAnswering_forward, bind. rewrite Hcall.
    unfold qa_word_hidden_states. rewrite (slice_to1_all _ _ _ Hw).
    unfold split2_last, squeeze_last, ret, linear3, linear_mat. rewrite !map_map.
    f_equal. f_equal. f_equal.
    + apply map_ext. intros xb. rewrite !map_map. apply map_ext. intros r. apply Hrow.
    + apply map_ext. intros xb. rewrite !map_map. apply map_ext. intros r. apply Hrow.
  - split; [reflexivity|]. split; [reflexivity|].
    split; apply dims2_map_map; exact Hw.
Qed.

Lemma question_answering_logits_witness :
  exists word entity pooled start_logits end_logits g1,
    call_luke false (tiny_luke (fun x => x) 0) (tiny_inputs 1) (fun _ => 0%R)
    = (Some (word, entity, pooled), g1) /\
    LukeForQuestionAnswering_forward false
      (mkLukeForQuestionAnswering (tiny_luke (fun x => x) 0) (scaled_identity 1 2))
      (tiny_inputs 1) (fun _ => 0%R)
    = (Some (start_logits, end_logits), g1) /\
    dims2 1 1 start_logits /\ dims2 1 1 end_logits.
Proof.
  destruct (question_answering_logits false
              (mkLukeForQuestionAnswering (tiny_luke (fun x => x) 0) (scaled_identity 1 2))
              (tiny_inputs 1) (fun _ => 0%R))
    as (word & entity & pooled & s & e & g1 & Hcall & Hrun & _ & _ & Hs & He).
  - repeat constructor.
  - unfold inputs_shape_ok; simpl. repeat split; repeat constructor.
    exists [[[0%Z]]]. repeat split; repeat constructor.
  - intros g. simpl. repeat split; repeat constructor.
  - reflexivity.
  - exists word, entity, pooled, s, e, g1.
    split; [exact Hcall|]. split; [exact Hrun|]. split; [exact Hs | exact He].
Defined.

(** ** [paddle_gather] at the edges *)

Lemma sequence_none {X} (l : list (option X)) : In None l -> sequence l = None.
Proof.
  induction l as [|a l IH]; intros Hin; [contradiction|].
  destruct a as [a|]; [|reflexivity].
  destruct Hin as [Ha | Hin]; [discriminate Ha|].
  simpl. rewrite (IH Hin). reflexivity.
Qed.

(** X20.  [paddle_gather] fails when [index] has fewer axes than [x] (and
    [x] has an axis other than [dim]): line 55 expands the [arange] of such
    an axis, reshaped to the rank of [x], to the shape of [index], and
    [paddle.expand] rejects a target shape shorter than the rank of its
    input. *)
Theorem paddle_gather_index_rank {A : Type} (dflt : A) (x : tensor A) (dim : Z)
    (index : tensor Z) :
  (rank index < rank x)%nat -> (2 <= rank x)%nat ->
  paddle_gather dflt x dim index = None.
Proof.
  intros Hlt H2. unfold paddle_gather. cbv zeta.
  remember (if (dim <? 0)%Z then (Z.of_nat (rank x) + dim)%Z else dim) as dim' eqn:Edim.
  clear Edim.
  assert (Hex : exists k, (k < rank x)%nat /\ (Z.of_nat k =? dim')%Z = false).
  { destruct (Z.eqb_spec dim' 0) as [E|Hd].
    - exists 1%nat. split; [lia|]. apply Z.eqb_neq. simpl. lia.
    - exists 0%nat. split; [lia|]. apply Z.eqb_neq. simpl. lia. }
  destruct Hex as (k & Hk & Hne).
  rewrite sequence_none; [reflexivity|].
  apply in_map_iff. exists k. split; [|apply in_seq; lia].
  rewrite Hne. unfold reshape.
  destruct (forallb _ _ && _); [|reflexivity].
  unfold expand, rank. cbn [shape].
  rewrite length_map, length_set_nth, repeat_length.
  replace (length (shape index) <? length (shape x))%nat with true; [reflexivity|].
  symmetry. apply Nat.ltb_lt. exact Hlt.
Qed.

Lemma paddle_gather_index_rank_witness :
  paddle_gather 0%R (mkTensor [2; 2]%nat [1; 2; 3; 4]%R) 1 (mkTensor [2]%nat [0; 1]%Z)
  = None.
Proof.
  apply (paddle_gather_index_rank 0%R (mkTensor [2; 2]%nat [1; 2; 3; 4]%R) 1
           (mkTensor [2]%nat [0; 1]%Z)).
  - unfold rank; simpl; lia.
  - unfold rank; simpl; lia.
Defined.

Lemma set_nth_same (i : list nat) d : set_nth d (nth d i 0%nat) i = i.
Proof.
  revert d; induction i as [|a i IH]; intros [|d]; simpl; try reflexivity.
  rewrite IH. reflexivity.
Qed.

(** X21.  Gathering with the index that holds, at every multi-index, its
    own coordinate along [dim] returns [x] itself (for a well-formed [x]
    with no axis of size 0). *)
Theorem paddle_gather_identity {A : Type} (dflt : A) (x : tensor A) (d : nat)
    (dim : Z) :
  wf x ->
  (d < rank x)%nat ->
  Forall (fun n => 0 < n)%nat (shape x) ->
  (if (dim <? 0)%Z then (Z.of_nat (rank x) + dim)%Z else dim) = Z.of_nat d ->
  paddle_gather dflt x dim
    (tabulate (shape x) (fun i => Z.of_nat (nth d i 0%nat)))
  = Some x.
Proof.
  intros Hwf Hd Hpos Hdim.
  set (index := tabulate (shape x) (fun i => Z.of_nat (nth d i 0%nat))).
  destruct (paddle_gather_correct dflt x index d) with (dim := dim)
    as (out & Hrun & Hsh & Hwfo & _ & Hexact).
  - apply wf_tabulate.
  - reflexivity.
  - exact Hd.
  - exact Hpos.
  - intros k _ _. left. reflexivity.
  - unfold index, tabulate. cbn [data].
    apply Forall_map, Forall_forall. intros j Hj. apply in_seq in Hj.
    pose proof (in_bounds_nth (shape x) (unravel (shape x) j) d
                  (unravel_in_bounds (shape x) j ltac:(lia)) Hd). lia.
  - exact Hdim.
  - rewrite Hrun. f_equal.
    specialize (Hexact (fun k _ _ => eq_refl)).
    destruct out as [osh odata], x as [xsh xdata].
    cbn [shape data] in *. unfold wf in *. cbn [shape data] in *.
    change (shape index) with xsh in *. subst osh. f_equal.
    apply (nth_ext _ _ dflt dflt); [lia|].
    intros j Hj. rewrite Hwfo in Hj.
    pose proof (unravel_in_bounds xsh j Hj) as Hb.
    specialize (Hexact _ Hb).
    subst index. rewrite tget_tabulate in Hexact by exact Hb.
    rewrite Nat2Z.id, set_nth_same in Hexact.
    unfold tget in Hexact. cbn [shape data] in Hexact.
    rewrite ravel_unravel in Hexact by exact Hj.
    exact Hexact.
Qed.

Lemma paddle_gather_identity_witness :
  paddle_gather 0%R (mkTensor [2; 2]%nat [1; 2; 3; 4]%R) (-1)
    (tabulate [2; 2]%nat (fun i => Z.of_nat (nth 1 i 0%nat)))
  = Some (mkTensor [2; 2]%nat [1; 2; 3; 4]%R).
Proof.
  apply (paddle_gather_identity 0%R (mkTensor [2; 2]%nat [1; 2; 3; 4]%R) 1 (-1)).
  - reflexivity.
  - unfold rank; simpl; lia.
  - repeat constructor.
  - reflexivity.
Defined.

(** ** The encoder, one batch element at a time *)

Section EncoderElements.
Local Open Scope R_scope.

Lemma nth_concat_axis1 {X} (x y : list (list X)) b :
  (b < length x)%nat -> (b < length y)%nat ->
  nth b (concat_axis1 x y) [] = nth b x [] ++ nth b y [].
Proof. intros Hx Hy. unfold concat_axis1. apply nth_zip_with; assumption. Qed.

Lemma nth_slice_to1 {X} n (x : list (list X)) b :
  (b < length x)%nat -> nth b (slice_to1 n x) [] = firstn n (nth b x []).
Proof. intros Hx. unfold slice_to1. apply nth_map_lt. exact Hx. Qed.

Lemma nth_slice_from1 {X} n (x : list (list X)) b :
  (b < length x)%nat -> nth b (slice_from1 n x) [] = skipn n (nth b x []).
Proof. intros Hx. unfold slice_from1. apply nth_map_lt. exact Hx. Qed.

(** [LukeSelfOutput.forward] in evaluation mode, for one batch element. *)
Let self_output_one (self : LukeSelfOutput) (h x : Mat) : Mat :=
  map (layer_norm_vec (so_layer_norm self))
      (zip_with (zip_with Rplus) (map (linear_vec (so_dense self)) h) x).

Lemma self_output_eval_form (self : LukeSelfOutput) (h x : Tensor3) (g : Generator) :
  LukeSelfOutput_forward false self h x g = (zip_with (self_output_one self) h x, g).
Proof.
  unfold LukeSelfOutput_forward, dropout3, bind, ret, layer_norm3, add3, linear3,
    linear_mat, self_output_one.
  rewrite map_zip_with, zip_with_map_l. reflexivity.
Qed.

Lemma shape1_element {X} B S (w : list (list X)) b :
  dims2 B S w -> (b < B)%nat -> shape1 [nth b w []] = shape1 w.
Proof.
  intros Hw Hb. rewrite (dims2_shape1 B S w Hw) by lia.
  unfold shape1. cbn [hd]. apply (dims2_nth B S w b [] Hw Hb).
Qed.

Lemma attention_element (self : LukeAttention) B ws es (w : Tensor3)
    (e : option Tensor3) (mask : option Tensor4) (g : Generator) b :
  (0 < sa_num_attention_heads (attn_self self))%nat ->
  (0 < sa_attention_head_size (attn_self self))%nat ->
  dims2 B ws w ->
  match e with Some e' => dims2 B es e' | None => es = 0%nat end ->
  match mask with Some m => dims3 B 1 1 m | None => True end ->
  (b < B)%nat ->
  LukeAttention_forward false self [nth b w []]
    (option_map (fun e' : Tensor3 => [nth b e' []]) e)
    (option_map (fun m : Tensor4 => [nth b m []]) mask) g
  = (([nth b (fst (fst (LukeAttention_forward false self w e mask g))) []],
      option_map (fun oe : Tensor3 => [nth b oe []])
                 (snd (fst (LukeAttention_forward false self w e mask g)))), g).
Proof.
  intros Hnh Hhs Hw He Hm Hb.
  pose proof (self_attention_element (attn_self self) B ws es w e mask g b
                Hnh Hhs Hw He Hm Hb) as Hel.
  pose proof (self_attention_dims false (attn_self self) B ws es w e mask g
                Hnh Hhs Hw He Hm) as Hso.
  pose proof (shape1_element B ws w b Hw Hb) as Hsh1.
  destruct (self_attention_eval (attn_self self) w e mask) as [so Hso'].
  rewrite (Hso' g) in Hel, Hso. cbn [fst snd] in Hel, Hso.
  unfold LukeAttention_forward, bind. rewrite (Hso' g). clear Hso'.
  destruct so as [sw se]. cbn [fst snd] in *. destruct Hso as [Hsw Hse].
  pose proof Hw as [Hlw _]. pose proof Hsw as [Hlsw _].
  unfold Tensor4, Tensor3, Mat, Vec in *.
  rewrite Hel, Hsh1. clear Hel Hsh1.
  rewrite !self_output_eval_form. unfold ret. cbn [fst snd].
  destruct e as [e'|]; cbn [option_map concat_hidden_states].
  - destruct Hse as (oe & -> & Hoe). pose proof He as [Hle _]. pose proof Hoe as [Hloe _].
    cbn [option_map]. unfold concat_outputs. cbn [fst snd concat_axis1 zip_with].
    f_equal. f_equal.
    + f_equal. cbn [slice_to1 map]. f_equal.
      rewrite nth_slice_to1
        by (rewrite length_zip_with; unfold concat_axis1; rewrite !length_zip_with; tlia).
      f_equal.
      unfold Tensor3, Mat, Vec.
      rewrite (nth_zip_with _ _ _ b [] [] [])
        by (unfold concat_axis1; rewrite !length_zip_with; tlia).
      unfold concat_axis1.
      rewrite !(nth_zip_with (@app (list R)) _ _ b [] [] []) by tlia. reflexivity.
    + f_equal. cbn [slice_from1 map]. f_equal.
      rewrite nth_slice_from1
        by (rewrite length_zip_with; unfold concat_axis1; rewrite !length_zip_with; tlia).
      f_equal.
      unfold Tensor3, Mat, Vec.
      rewrite (nth_zip_with _ _ _ b [] [] [])
        by (unfold concat_axis1; rewrite !length_zip_with; tlia).
      unfold concat_axis1.
      rewrite !(nth_zip_with (@app (list R)) _ _ b [] [] []) by tlia. reflexivity.
  - subst se. cbn [option_map fst snd zip_with].
    f_equal. f_equal. cbn [slice_to1 map]. f_equal.
    rewrite nth_slice_to1 by (rewrite length_zip_with; tlia).
    f_equal.
    unfold Tensor3, Mat, Vec.
    rewrite (nth_zip_with _ _ _ b [] [] []) by tlia. reflexivity.
Qed.

Lemma layer_element (self : LukeLayer) B ws es (w : Tensor3)
    (e : option Tensor3) (mask : option Tensor4) (g : Generator) b :
  (0 < sa_num_attention_heads (attn_self (layer_attention self)))%nat ->
  (0 < sa_attention_head_size (attn_self (layer_attention self)))%nat ->
  dims2 B ws w ->
  match e with Some e' => dims2 B es e' | None => es = 0%nat end ->
  match mask with Some m => dims3 B 1 1 m | None => True end ->
  (b < B)%nat ->
  LukeLayer_forward false self [nth b w []]
    (option_map (fun e' : Tensor3 => [nth b e' []]) e)
    (option_map (fun m : Tensor4 => [nth b m []]) mask) g
  = (([nth b (fst (fst (LukeLayer_forward false self w e mask g))) []],
      option_map (fun oe : Tensor3 => [nth b oe []])
                 (snd (fst (LukeLayer_forward false self w e mask g)))), g).
Proof.
  intros Hnh Hhs Hw He Hm Hb.
  pose proof (attention_element (layer_attention self) B ws es w e mask g b
                Hnh Hhs Hw He Hm Hb) as Hel.
  pose proof (attention_dims false (layer_attention self) B ws es w e mask g
                Hnh Hhs Hw He Hm) as Hao.
  pose proof (shape1_element B ws w b Hw Hb) as Hsh1.
  destruct (attention_eval (layer_attention self) w e mask) as [ao Hao'].
  rewrite (Hao' g) in Hel, Hao. cbn [fst snd] in Hel, Hao.
  unfold LukeLayer_forward, bind. rewrite (Hao' g). clear Hao'.
  destruct ao as [aw ae]. destruct Hao as [Haw Hae]. cbn [fst snd] in *.
  pose proof Hw as [Hlw _]. pose proof Haw as [Hlaw _].
  unfold Tensor4, Tensor3, Mat, Vec in *.
  rewrite Hel, Hsh1. clear Hel Hsh1.
  rewrite !feed_forward_eval. unfold ret. cbn [fst snd].
  destruct e as [e'|]; cbn [option_map].
  - destruct Hae as (oe & -> & Hoe). pose proof Hoe as [Hloe _].
    cbn [option_map]. unfold concat_outputs. cbn [fst snd concat_axis1 zip_with map].
    f_equal. f_equal.
    + f_equal. cbn [slice_to1 map]. f_equal.
      rewrite nth_slice_to1
        by (rewrite length_map; unfold concat_axis1; rewrite length_zip_with; tlia).
      f_equal. unfold Tensor3, Mat, Vec.
      rewrite (nth_map_lt _ _ b [] [])
        by (unfold concat_axis1; rewrite length_zip_with; tlia).
      unfold concat_axis1.
      rewrite (nth_zip_with (@app (list R)) _ _ b [] [] []) by tlia. reflexivity.
    + f_equal. cbn [slice_from1 map]. f_equal.
      rewrite nth_slice_from1
        by (rewrite length_map; unfold concat_axis1; rewrite length_zip_with; tlia).
      f_equal. unfold Tensor3, Mat, Vec.
      rewrite (nth_map_lt _ _ b [] [])
        by (unfold concat_axis1; rewrite length_zip_with; tlia).
      unfold concat_axis1.
      rewrite (nth_zip_with (@app (list R)) _ _ b [] [] []) by tlia. reflexivity.
  - subst ae. cbn [option_map fst snd map].
    f_equal. f_equal. cbn [slice_to1 map]. f_equal.
    rewrite nth_slice_to1 by (rewrite length_map; tlia).
    f_equal. unfold Tensor3, Mat, Vec.
    rewrite (nth_map_lt _ _ b [] []) by tlia. reflexivity.
Qed.

Lemma encoder_element (layers : list LukeLayer) B ws es (w : Tensor3)
    (e : option Tensor3) (mask : option Tensor4) (g : Generator) b :
  heads_ok layers ->
  dims2 B ws w ->
  match e with Some e' => dims2 B es e' | None => es = 0%nat end ->
  match mask with Some m => dims3 B 1 1 m | None => True end ->
  (b < B)%nat ->
  LukeEncoder_forward false layers [nth b w []]
    (option_map (fun e' : Tensor3 => [nth b e' []]) e)
    (option_map (fun m : Tensor4 => [nth b m []]) mask) g
  = (([nth b (fst (fst (LukeEncoder_forward false layers w e mask g))) []],
      option_map (fun oe : Tensor3 => [nth b oe []])
                 (snd (fst (LukeEncoder_forward false layers w e mask g)))), g).
Proof.
  intros Hok. revert w e g.
  induction Hok as [|l layers [Hnh Hhs] _ IH]; intros w e g Hw He Hm Hb.
  - reflexivity.
  - cbn [LukeEncoder_forward]. unfold bind.
    rewrite (layer_element l B ws es w e mask g b Hnh Hhs Hw He Hm Hb).
    pose proof (layer_dims false l B ws es w e mask g Hnh Hhs Hw He Hm) as Hlo.
    destruct (layer_eval l w e mask) as [lo Hlo'].
    rewrite (Hlo' g) in *. cbn [fst snd] in *.
    destruct lo as [lw le]. destruct Hlo as [Hlw Hle]. cbn [fst snd] in *.
    destruct e as [e'|]; cbn [option_map].
    + destruct Hle as (oe & -> & Hoe). cbn [option_map].
      apply (IH lw (Some oe) g Hlw Hoe Hm Hb).
    + subst le. apply (IH lw None g Hlw He Hm Hb).
Qed.
End EncoderElements.

(** X22.  In evaluation mode a layer and the whole encoder treat the
    elements of a batch independently: run on element [b] alone (its word
    states, its entity states and its mask row), [LukeEncoder.forward]
    returns the states it returns for element [b] when run on the whole
    batch, so no sequence of a batch influences the states of another. *)
Theorem encoder_batch_independent (layers : list LukeLayer) (B ws es : nat)
    (w : Tensor3) (e : option Tensor3) (mask : option Tensor4) (g : Generator)
    (b : nat) :
  heads_ok layers ->
  dims2 B ws w ->
  match e with Some e' => dims2 B es e' | None => es = 0%nat end ->
  match mask with Some m => dims3 B 1 1 m | None => True end ->
  (b < B)%nat ->
  LukeEncoder_forward false layers [nth b w []]
    (option_map (fun e' : Tensor3 => [nth b e' []]) e)
    (option_map (fun m : Tensor4 => [nth b m []]) mask) g
  = (([nth b (fst (fst (LukeEncoder_forward false layers w e mask g))) []],
      option_map (fun oe : Tensor3 => [nth b oe []])
                 (snd (fst (LukeEncoder_forward false layers w e mask g)))), g) /\
  (forall l, In l layers ->
     LukeLayer_forward false l [nth b w []]
       (option_map (fun e' : Tensor3 => [nth b e' []]) e)
       (option_map (fun m : Tensor4 => [nth b m []]) mask) g
     = (([nth b (fst (fst (LukeLayer_forward false l w e mask g))) []],
         option_map (fun oe : Tensor3 => [nth b oe []])
                    (snd (fst (LukeLayer_forward false l w e mask g)))), g)).
Proof.
  intros Hok Hw He Hm Hb. split.
  - apply (encoder_element layers B ws es); assumption.
  - intros l Hl. unfold heads_ok in Hok. rewrite Forall_forall in Hok.
    destruct (Hok l Hl) as [Hnh Hhs].
    apply (layer_element l B ws es); assumption.
Qed.

Lemma encoder_batch_independent_witness :
  LukeEncoder_forward false [tiny_layer (fun x => x) 0] [[[1; 0]]]%R
    (Some [[[0; 1]]]%R) None (fun _ => 0%R)
  = (([nth 1 (fst (fst (LukeEncoder_forward false [tiny_layer (fun x => x) 0]
                          [[[0; 0]]; [[1; 0]]]%R (Some [[[1; 1]]; [[0; 1]]]%R) None
                          (fun _ => 0%R)))) []],
      option_map (fun oe : Tensor3 => [nth 1 oe []])
        (snd (fst (LukeEncoder_forward false [tiny_layer (fun x => x) 0]
                     [[[0; 0]]; [[1; 0]]]%R (Some [[[1; 1]]; [[0; 1]]]%R) None
                     (fun _ => 0%R))))),
     fun _ => 0%R).
Proof.
  destruct (encoder_batch_independent [tiny_layer (fun x => x) 0] 2 1 1
              [[[0; 0]]; [[1; 0]]]%R (Some [[[1; 1]]; [[0; 1]]]%R) None (fun _ => 0%R) 1)
    as [Henc _].
  - repeat constructor.
  - repeat constructor.
  - repeat constructor.
  - exact I.
  - lia.
  - exact Henc.
Defined.
